(** * MLS-Analyzer: a shallow embedding of [mls_app.py]

    The application keeps three tables (listing, field, observation) and
    serves a handful of requests over them.  Each request handler of
    [mls_app.py] is embedded as a function from a store (and the request's
    payload) to a response and a new store.

    Conventions of the embedding:
    - a Python [str] is the list of its Unicode code points ([list N]);
    - a table is the list of its rows in rowid order, which is the order in
      which SQLite returns the rows of an unordered query; [.first()] is
      the head of the filtered table and [.all()] is the filtered table;
    - an integer primary key is assigned as SQLite does for a table without
      deletions: one more than the largest key in use;
    - [datetime.utcnow] is an input of the system: the store carries the
      sequence of its readings and the number of readings taken so far;
    - a request body is taken at the types the handlers expect (texts for
      the listing id, the field texts and the analyst);
    - the widths of the text columns ([String(120)], [String(200)]) are
      declarations SQLite does not enforce, and are not part of the model;
    - the library functions the handlers call ([str.strip], [int],
      [csv.writer], [csv.reader], [csv.DictReader], [datetime.isoformat])
      are modelled after CPython 3.11; the reader's limit on the size of a
      field (131072 characters) is left out;
    - the spreadsheet service is outside the program: the exporter is
      modelled where the service accepts every call, and the formulas it
      is sent are given the meaning the spreadsheet gives them;
    - the query of [/api/fields] is given the meaning it has in SQLite,
      the default database: [ilike] is [lower(a) LIKE lower(b)], where
      [lower] and [LIKE] know the letters of ASCII only;
    - the script of the quick-entry page works on JavaScript strings, the
      lists of their UTF-16 code units. *)

From Stdlib Require Import String Ascii DecimalString QArith.
From stdpp Require Import gmap list sorting.

Abbreviation str := (list N).

(** ** Text *)

(** The code points of an ASCII literal of the source. *)
Definition py (s : string) : str := N_of_ascii <$> list_ascii_of_string s.

(** [str.isspace] for one character: the code points of
    [_PyUnicode_IsWhitespace]. *)
Definition whitespace : list N :=
  [9; 10; 11; 12; 13; 28; 29; 30; 31; 32; 133; 160; 5760;
   8192; 8193; 8194; 8195; 8196; 8197; 8198; 8199; 8200; 8201; 8202;
   8232; 8233; 8239; 8287; 12288]%N.

Definition isspace (c : N) : bool := bool_decide (c ∈ whitespace).

(** The text without its leading characters that satisfy [p]. *)
Fixpoint lstrip_with (p : N → bool) (s : str) : str :=
  match s with
  | c :: s' => if p c then lstrip_with p s' else s
  | [] => []
  end.

Definition lstrip (s : str) : str := lstrip_with isspace s.

Definition rstrip (s : str) : str := reverse (lstrip (reverse s)).

(** [s.strip()] *)
Definition strip (s : str) : str := rstrip (lstrip s).

(** [str(n)] for a non-negative integer. *)
Definition decimal (n : nat) : str :=
  py (NilEmpty.string_of_uint (Nat.to_uint n)).

(** A text between quotes. *)
Definition quoted (t : str) : str := [34%N] ++ t ++ [34%N].

(** ** Data model *)

(** A [datetime] value, as the fields Python keeps. *)
Record datetime := {
  year : N; month : N; day : N;
  hour : N; minute : N; second : N; microsecond : N
}.

(** The rows of the three tables.  The columns [id] and [created_at] of
    each table carry the initial of the table, and [checked_at] is the
    time of an observation. *)
Record Listing := {
  l_id : Z;
  batch : str;
  listing_id_text : str;
  l_created_at : datetime
}.

Record Field := {
  f_id : Z;
  canonical : str;
  f_created_at : datetime
}.

Record Observation := {
  o_id : Z;
  listing_id : Z;
  field_id : Z;
  filled : bool;
  raw_text : str;
  analyst : str;
  checked_at : datetime
}.

Record store := {
  listings : list Listing;
  fields : list Field;
  observations : list Observation;
  utcnow : nat → datetime;
  reads : nat
}.

Definition empty_store (clock : nat → datetime) : store :=
  {| listings := []; fields := []; observations := [];
     utcnow := clock; reads := 0 |}.

(** The key SQLite gives to a new row. *)
Definition next_id (ids : list Z) : Z := (1 + foldr Z.max 0 ids)%Z.

(** [db.session.add(Listing(batch=b, listing_id_text=t))], flushed. *)
Definition add_Listing (b t : str) (s : store) : Listing * store :=
  let l := {| l_id := next_id (l_id <$> listings s); batch := b;
              listing_id_text := t; l_created_at := utcnow s (reads s) |} in
  (l, {| listings := listings s ++ [l]; fields := fields s;
         observations := observations s;
         utcnow := utcnow s; reads := S (reads s) |}).

(** [db.session.add(Field(canonical=c))], flushed. *)
Definition add_Field (c : str) (s : store) : Field * store :=
  let f := {| f_id := next_id (f_id <$> fields s); canonical := c;
              f_created_at := utcnow s (reads s) |} in
  (f, {| listings := listings s; fields := fields s ++ [f];
         observations := observations s;
         utcnow := utcnow s; reads := S (reads s) |}).

(** [db.session.add(Observation(...))], flushed. *)
Definition add_Observation (lid fid : Z) (fl : bool) (raw who : str)
    (s : store) : Observation * store :=
  let o := {| o_id := next_id (o_id <$> observations s);
              listing_id := lid; field_id := fid; filled := fl;
              raw_text := raw; analyst := who;
              checked_at := utcnow s (reads s) |} in
  (o, {| listings := listings s; fields := fields s;
         observations := observations s ++ [o];
         utcnow := utcnow s; reads := S (reads s) |}).

(** [Field.query.filter_by(canonical=name).first()] *)
Definition field_by_canonical (name : str) (s : store) : option Field :=
  head (filter (λ f, canonical f = name) (fields s)).

(** [Field.query.get(field_id)] *)
Definition field_by_id (fid : Z) (s : store) : option Field :=
  head (filter (λ f, f_id f = fid) (fields s)).

(** [Observation.query.filter_by(listing_id=lid, field_id=fid).first()] *)
Definition first_observation (lid fid : Z) (s : store) : option Observation :=
  head (filter (λ o, listing_id o = lid ∧ field_id o = fid) (observations s)).

(** [Listing.query.filter_by(listing_id_text=t, batch=b).first()] *)
Definition listing_by_text (t b : str) (s : store) : option Listing :=
  head (filter (λ l, listing_id_text l = t ∧ batch l = b) (listings s)).

(** ** Field registry *)

Definition find_or_create_field (name : str) (s : store)
    : option Field * store :=
  let name := strip name in
  match name with
  | [] => (None, s)
  | _ =>
    match field_by_canonical name s with
    | Some f => (Some f, s)
    | None => let '(f, s') := add_Field name s in (Some f, s')
    end
  end.

(** ** Requests and responses *)

(** A JSON scalar of a request body. *)
Inductive json :=
| JNull
| JBool (b : bool)
| JInt (z : Z)
| JStr (t : str).

(** [bool(v)] *)
Definition truthy (v : json) : bool :=
  match v with
  | JNull => false
  | JBool b => b
  | JInt z => negb (z =? 0)%Z
  | JStr t => match t with [] => false | _ => true end
  end.

(** One element of the [observations] array of an add-listing request.
    A key that is absent is [None]; for [field_text] so is a JSON null
    ([obs.get('field_text') or ''] reads both as the empty text). *)
Record observation_entry := {
  field_text : option str;
  entry_filled : option json
}.

(** The JSON body of an add-listing request; an absent key is [None]. *)
Record listing_request := {
  req_listing_id : option str;
  req_observations : list observation_entry;
  req_analyst : option str
}.

Record summary_row := {
  sr_field_id : Z;
  sr_canonical : str;
  sr_filled : nat;
  sr_empty : nat;
  sr_sample : nat
}.

Inductive status := st_filled | st_empty | st_unchecked.

Record detail_row := {
  dr_listing_id_text : str;
  dr_status : status;
  dr_obs_id : option Z
}.

Inductive body :=
| JsonError (msg : str)
| JsonListing (listing_db_id : Z)
| JsonSummary (rows : list summary_row)
| FieldPage (f : Field) (rows : list detail_row)
| RedirectTo (fid : Z)
| Attachment (text : str)
| Text (msg : str)
| NotFound.

Inductive exn := AttributeError | TypeError | ValueError | CsvError.

(** What the client receives: a response built by the handler, or the
    failure of a handler that raised. *)
Inductive response :=
| Response (code : nat) (b : body)
| Unhandled (e : exn).

(** ** Observation recorder *)

(** The body of the loop of [add_listing]. *)
Definition add_listing_entry (lst : Listing) (who : str) (s : store)
    (obs : observation_entry) : store :=
  let raw := strip (default [] (field_text obs)) in
  match raw with
  | [] => s
  | _ =>
    let '(fld, s1) :=
      match field_by_canonical raw s with
      | Some f => (f, s)
      | None => add_Field raw s
      end in
    (add_Observation (l_id lst) (f_id fld)
       (truthy (default (JBool false) (entry_filled obs))) raw who s1).2
  end.

Definition add_listing (b : str) (data : listing_request) (s : store)
    : response * store :=
  let listing_text := strip (default [] (req_listing_id data)) in
  let who := default (py "unknown") (req_analyst data) in
  match listing_text with
  | [] => (Response 400 (JsonError (py "listing_id required")), s)
  | _ =>
    let '(lst, s1) := add_Listing b listing_text s in
    let s2 := foldl (add_listing_entry lst who) s1 (req_observations data) in
    (Response 200 (JsonListing (l_id lst)), s2)
  end.

(** An entry whose field text is blank: absent, null or empty after
    trimming. *)
Definition blank_entry (e : observation_entry) : Prop :=
  strip (default [] (field_text e)) = [].

#[global] Instance blank_entry_dec e : Decision (blank_entry e).
Proof. unfold blank_entry. apply _. Defined.

(** The body of the loop of [bulk_mark_empty], on the running count and
    the store; the query of each round sees the rows added before it. *)
Definition bulk_mark_empty_step (fld : Field) (who : str)
    (acc : nat * store) (l : Listing) : nat * store :=
  let '(count, s) := acc in
  match first_observation (l_id l) (f_id fld) s with
  | Some _ => (count, s)
  | None =>
    (S count,
     (add_Observation (l_id l) (f_id fld) false (canonical fld) who s).2)
  end.

Definition bulk_mark_empty_loop (fld : Field) (who : str) (s : store)
    : nat * store :=
  foldl (bulk_mark_empty_step fld who) (0, s) (listings s).

Definition bulk_mark_empty (fid : Z) (form_analyst : option str) (s : store)
    : response * store :=
  let who := default (py "bulk_user") form_analyst in
  match field_by_id fid s with
  | None => (Response 404 NotFound, s)
  | Some fld =>
    let '(_, s') := bulk_mark_empty_loop fld who s in
    (Response 302 (RedirectTo fid), s')
  end.

(** ** Field detail *)

Fixpoint lex_compare (a b : list N) : comparison :=
  match a, b with
  | x :: a', y :: b' =>
    match (x ?= y)%N with
    | Eq => lex_compare a' b'
    | c => c
    end
  | [], [] => Eq
  | [], _ => Lt
  | _, [] => Gt
  end.

Definition dt_fields (d : datetime) : list N :=
  [year d; month d; day d; hour d; minute d; second d; microsecond d].

(** [a <= b] on [datetime] values *)
Definition dt_leb (a b : datetime) : bool :=
  match lex_compare (dt_fields a) (dt_fields b) with
  | Gt => false
  | _ => true
  end.

Definition status_of (obs : option Observation) : status :=
  match obs with
  | Some o => if filled o then st_filled else st_empty
  | None => st_unchecked
  end.

Definition field_detail_row (fid : Z) (s : store) (l : Listing) : detail_row :=
  let obs := first_observation (l_id l) fid s in
  {| dr_listing_id_text := listing_id_text l;
     dr_status := status_of obs;
     dr_obs_id := o_id <$> obs |}.

Definition field_detail (fid : Z) (s : store) : response :=
  match field_by_id fid s with
  | None => Response 404 NotFound
  | Some fld =>
    let ls := merge_sort (λ a b, dt_leb (l_created_at b) (l_created_at a))
                (listings s) in
    Response 200 (FieldPage fld (field_detail_row fid s <$> ls))
  end.

(** ** Aggregator *)

(** [FROM field f JOIN observation o ON f.id=o.field_id
     JOIN listing l ON o.listing_id=l.id WHERE l.batch = :batch] *)
Definition summary_join (b : str) (s : store)
    : list (Field * Observation * Listing) :=
  f ← fields s;
  o ← filter (λ o, f_id f = field_id o) (observations s);
  l ← filter (λ l, listing_id o = l_id l ∧ batch l = b) (listings s);
  [(f, o, l)].

(** One output row of [GROUP BY f.id], from the joined rows of the group. *)
Definition summary_group (k : Z) (g : list (Field * Observation * Listing))
    : summary_row :=
  {| sr_field_id := k;
     sr_canonical := default [] ((λ r, canonical r.1.1) <$> head g);
     sr_filled := sum_list ((λ r, if filled r.1.2 then 1 else 0) <$> g);
     sr_empty := sum_list ((λ r, if filled r.1.2 then 0 else 1) <$> g);
     sr_sample := length g |}.

Definition summary_rows (b : str) (s : store) : list summary_row :=
  let j := summary_join b s in
  let keys := remove_dups ((λ r, f_id r.1.1) <$> j) in
  merge_sort (λ x y, sr_sample y <=? sr_sample x)
    ((λ k, summary_group k (filter (λ r, f_id r.1.1 = k) j)) <$> keys).

Definition batch_summary (b : str) (s : store) : response :=
  Response 200 (JsonSummary (summary_rows b s)).

(** An observation whose listing belongs to batch [b]. *)
Definition observation_in_batch (b : str) (s : store) (o : Observation)
    : Prop :=
  Exists (λ l, listing_id o = l_id l ∧ batch l = b) (listings s).

(** The store without the observations whose listing is outside batch [b]. *)
Definition restrict_to_batch (b : str) (s : store) : store :=
  {| listings := listings s; fields := fields s;
     observations := filter (observation_in_batch b s) (observations s);
     utcnow := utcnow s; reads := reads s |}.

(** ** Matrix exporter *)

(** The loop of [col_idx_to_letter]; [idx] strictly decreases, so [idx]
    rounds are enough. *)
Fixpoint col_idx_to_letter_loop (rounds : nat) (idx : nat) (letters : str)
    : str :=
  match rounds with
  | 0 => letters
  | S k =>
    if 0 <? idx then
      let rem := (idx - 1) `mod` 26 in
      let idx := (idx - 1) `div` 26 in
      col_idx_to_letter_loop k idx (N.of_nat (65 + rem) :: letters)
    else letters
  end.

Definition col_idx_to_letter (idx : nat) : str :=
  col_idx_to_letter_loop idx idx [].

(** [build_listing_order]: the listings of the batch, oldest first. *)
Definition build_listing_order (b : str) (s : store) : list Listing :=
  merge_sort (λ x y, dt_leb (l_created_at x) (l_created_at y))
    (filter (λ l, batch l = b) (listings s)).

(** [a <= b] on texts, by code points *)
Definition str_leb (a b : str) : bool :=
  match lex_compare a b with
  | Gt => false
  | _ => true
  end.

(** [Field.query.order_by(Field.canonical.asc()).all()] *)
Definition fields_by_canonical (s : store) : list Field :=
  merge_sort (λ x y, str_leb (canonical x) (canonical y)) (fields s).

(** The three glyphs of a matrix cell: an em dash, a check mark and a
    cross, the last two followed by the variation selector U+FE0F. *)
Definition symbol_unobserved : str := [8212]%N.
Definition symbol_filled : str := [10004; 65039]%N.
Definition symbol_empty : str := [10006; 65039]%N.

(** [{(o.field_id, o.listing_id): o for o in obs_q}] *)
Definition obs_map (obs_q : list Observation) : gmap (Z * Z) Observation :=
  foldl (λ m o, <[(field_id o, listing_id o) := o]> m) ∅ obs_q.

Definition cell_symbol (m : gmap (Z * Z) Observation) (f : Field)
    (l : Listing) : str :=
  match m !! (f_id f, l_id l) with
  | None => symbol_unobserved
  | Some obs => if filled obs then symbol_filled else symbol_empty
  end.

Definition row_symbols (m : gmap (Z * Z) Observation) (ls : list Listing)
    (f : Field) : list str :=
  cell_symbol m f <$> ls.

Definition matrix_row (m : gmap (Z * Z) Observation) (ls : list Listing)
    (f : Field) : list str :=
  canonical f :: row_symbols m ls f.

(** [f"L{i} - {l.listing_id_text}"], [i] counted from 1 *)
Definition listing_headers (ls : list Listing) : list str :=
  imap (λ i l, py "L" ++ decimal (S i) ++ py " - " ++ listing_id_text l) ls.

Definition header_row (ls : list Listing) : list str :=
  [py "Field Name"] ++ listing_headers ls ++
  [py "Filled Count"; py "Empty Count"; py "% Empty";
   py "Remove? (" ++ [8805%N] ++ py "6)"].

(** *** The formulas, as the text the source builds *)

Definition list_range (first_list_col_letter last_list_col_letter : str)
    (row_num : nat) : str :=
  first_list_col_letter ++ decimal row_num ++ py ":" ++
  last_list_col_letter ++ decimal row_num.

Definition filled_formula (range : str) : str :=
  py "=COUNTIF(" ++ range ++ py "," ++ quoted symbol_filled ++ py ")".

Definition empty_formula (range : str) : str :=
  py "=COUNTIF(" ++ range ++ py "," ++ quoted symbol_empty ++ py ")".

Definition pct_formula (filled_col_letter empty_col_letter : str)
    (row_num : nat) : str :=
  let f := filled_col_letter ++ decimal row_num in
  let e := empty_col_letter ++ decimal row_num in
  py "=IF((" ++ f ++ py "+" ++ e ++ py ")=0,0," ++ e ++ py "/(" ++
  f ++ py "+" ++ e ++ py "))".

Definition remove_formula (filled_col_letter empty_col_letter : str)
    (row_num : nat) : str :=
  let f := filled_col_letter ++ decimal row_num in
  let e := empty_col_letter ++ decimal row_num in
  py "=IF(AND(" ++ e ++ py ">=6,(" ++ f ++ py "+" ++ e ++ py ")>=10)," ++
  quoted (py "YES") ++ py "," ++ quoted (py "NO") ++ py ")".

(** *** The formulas, as syntax trees *)

(** The formula language the exporter uses.  A cell is named by its column
    and row numbers, both counted from 1. *)
Inductive expr :=
| ENum (n : nat)
| EStr (t : str)
| ECell (col row : nat)
| EAdd (a b : expr)
| EDiv (a b : expr)
| EEq (a b : expr)
| EGe (a b : expr)
| EAnd (a b : expr)
| EIf (c t e : expr)
| ECountIf (col1 row1 col2 row2 : nat) (criterion : str).

(** The text of a formula in the spreadsheet's syntax; a sum is written in
    parentheses, as the source writes every sum. *)
Fixpoint render (e : expr) : str :=
  match e with
  | ENum n => decimal n
  | EStr t => quoted t
  | ECell col row => col_idx_to_letter col ++ decimal row
  | EAdd a b => py "(" ++ render a ++ py "+" ++ render b ++ py ")"
  | EDiv a b => render a ++ py "/" ++ render b
  | EEq a b => render a ++ py "=" ++ render b
  | EGe a b => render a ++ py ">=" ++ render b
  | EAnd a b => py "AND(" ++ render a ++ py "," ++ render b ++ py ")"
  | EIf c t e =>
    py "IF(" ++ render c ++ py "," ++ render t ++ py "," ++ render e ++ py ")"
  | ECountIf col1 row1 col2 row2 criterion =>
    py "COUNTIF(" ++ col_idx_to_letter col1 ++ decimal row1 ++ py ":" ++
    col_idx_to_letter col2 ++ decimal row2 ++ py "," ++ quoted criterion ++
    py ")"
  end.

Definition formula_text (e : expr) : str := py "=" ++ render e.

Definition filled_expr (first_col last_col row_num : nat) : expr :=
  ECountIf first_col row_num last_col row_num symbol_filled.

Definition empty_expr (first_col last_col row_num : nat) : expr :=
  ECountIf first_col row_num last_col row_num symbol_empty.

Definition pct_expr (filled_col empty_col row_num : nat) : expr :=
  let total := EAdd (ECell filled_col row_num) (ECell empty_col row_num) in
  EIf (EEq total (ENum 0)) (ENum 0) (EDiv (ECell empty_col row_num) total).

Definition remove_expr (filled_col empty_col row_num : nat) : expr :=
  let total := EAdd (ECell filled_col row_num) (ECell empty_col row_num) in
  EIf (EAnd (EGe (ECell empty_col row_num) (ENum 6)) (EGe total (ENum 10)))
      (EStr (py "YES")) (EStr (py "NO")).

(** *** The worksheet *)

(** What a cell holds: text written as it is ([ws.update], raw input), or
    a formula ([ws.update_acell] with a text that starts with [=]). *)
Inductive content :=
| Raw (t : str)
| Entered (e : expr).

(** A worksheet: the content of the cell at a row and a column, both
    counted from 1. *)
Definition worksheet := nat → nat → option content.

Definition blank_worksheet : worksheet := λ _ _, None.

(** [ws.update(label, values)] with [label] the cell at [row0], [col0] *)
Definition update (row0 col0 : nat) (values : list (list str))
    (ws : worksheet) : worksheet :=
  λ row col,
    if (row0 <=? row) && (col0 <=? col) then
      match values !! (row - row0) ≫= (λ r, r !! (col - col0)) with
      | Some t => Some (Raw t)
      | None => ws row col
      end
    else ws row col.

(** [ws.update_acell(label, formula)] *)
Definition update_acell (row col : nat) (e : expr) (ws : worksheet)
    : worksheet :=
  λ row' col',
    if (row =? row') && (col =? col') then Some (Entered e) else ws row' col'.

Definition write_formulas (n_listings : nat) (ws : worksheet) (i : nat)
    : worksheet :=
  let row_num := 2 + i in
  let first_listing_col := 2 in
  let last_listing_col := 1 + n_listings in
  let filled_col_idx := last_listing_col + 1 in
  let empty_col_idx := last_listing_col + 2 in
  let pct_col_idx := last_listing_col + 3 in
  let remove_col_idx := last_listing_col + 4 in
  update_acell row_num remove_col_idx
    (remove_expr filled_col_idx empty_col_idx row_num)
    (update_acell row_num pct_col_idx
       (pct_expr filled_col_idx empty_col_idx row_num)
       (update_acell row_num empty_col_idx
          (empty_expr first_listing_col last_listing_col row_num)
          (update_acell row_num filled_col_idx
             (filled_expr first_listing_col last_listing_col row_num) ws))).

(** The handler, for a deployment where the spreadsheet library is
    installed and the spreadsheet service accepts every call; the tab
    [Single Family] is deleted and created anew, so the writes start from a
    blank worksheet.  The result carries the worksheet when one was
    written. *)
Definition export_google_sheet_symbols (sheet_id b : option str) (s : store)
    : response * option worksheet :=
  let b := default (py "default") b in
  match sheet_id with
  | None | Some [] => (Response 400 (Text (py "missing sheet_id")), None)
  | Some sheet_id =>
    let ls := build_listing_order b s in
    match ls with
    | [] =>
      (Response 400
         (Text (py "No listings found for batch '" ++ b ++ py "'.")), None)
    | _ =>
      let fs := fields_by_canonical s in
      match fs with
      | [] => (Response 400 (Text (py "No fields found.")), None)
      | _ =>
        let m := obs_map (observations s) in
        let rows := matrix_row m ls <$> fs in
        let ws := update 1 1 [header_row ls] blank_worksheet in
        let ws := update 2 1 rows ws in
        let n_listings := length ls in
        let ws := foldl (write_formulas n_listings) ws (seq 0 (length rows)) in
        (Response 200
           (Text (py "Exported " ++ decimal (length rows) ++
                  py " fields for " ++ decimal n_listings ++
                  py " listings to sheet " ++ sheet_id ++
                  py " (tab 'Single Family')")),
         Some ws)
      end
    end
  end.

(** *** What the spreadsheet computes *)

Inductive value :=
| VNum (q : Q)
| VText (t : str)
| VBool (b : bool)
| VBlank
| VError.

Definition to_number (v : value) : option Q :=
  match v with
  | VNum q => Some q
  | VBool b => Some (if b then 1 else 0)%Q
  | VBlank => Some 0%Q
  | VText _ | VError => None
  end.

Definition to_bool (v : value) : option bool :=
  match v with
  | VBool b => Some b
  | VNum q => Some (negb (Qeq_bool q 0))
  | VBlank => Some false
  | VText _ | VError => None
  end.

Definition arith (op : Q → Q → value) (a b : value) : value :=
  match to_number a, to_number b with
  | Some x, Some y => op x y
  | _, _ => VError
  end.

(** A value that is the text [criterion]. *)
Definition shows (criterion : str) (v : value) : bool :=
  match v with
  | VText t => bool_decide (t = criterion)
  | _ => false
  end.

(** The value of a formula on a worksheet: [COUNTIF] counts the cells of
    the range whose value is the text of the criterion (the criteria of
    this program hold no wildcard and no comparison operator), a reference
    to a formula cell is the value of that formula.  [depth] bounds the
    nesting of operators and references that is followed; the result is
    [None] when it is exceeded. *)
Fixpoint eval (depth : nat) (ws : worksheet) (e : expr) : option value :=
  match depth with
  | 0 => None
  | S d =>
    match e with
    | ENum n => Some (VNum (inject_Z (Z.of_nat n)))
    | EStr t => Some (VText t)
    | ECell col row =>
      match ws row col with
      | None => Some VBlank
      | Some (Raw t) => Some (VText t)
      | Some (Entered e') => eval d ws e'
      end
    | EAdd a b =>
      x ← eval d ws a; y ← eval d ws b;
      Some (arith (λ x y, VNum (x + y)) x y)
    | EDiv a b =>
      x ← eval d ws a; y ← eval d ws b;
      Some (arith (λ x y, if Qeq_bool y 0 then VError else VNum (x / y)) x y)
    | EEq a b =>
      x ← eval d ws a; y ← eval d ws b;
      Some (arith (λ x y, VBool (Qeq_bool x y)) x y)
    | EGe a b =>
      x ← eval d ws a; y ← eval d ws b;
      Some (arith (λ x y, VBool (Qle_bool y x)) x y)
    | EAnd a b =>
      x ← eval d ws a; y ← eval d ws b;
      Some match to_bool x, to_bool y with
           | Some x, Some y => VBool (x && y)
           | _, _ => VError
           end
    | EIf c t e =>
      x ← eval d ws c;
      match to_bool x with
      | Some true => eval d ws t
      | Some false => eval d ws e
      | None => Some VError
      end
    | ECountIf col1 row1 col2 row2 criterion =>
      vs ← mapM (λ rc, eval d ws (ECell rc.2 rc.1))
              (r ← seq row1 (S row2 - row1);
               c ← seq col1 (S col2 - col1); [(r, c)]);
      Some (VNum (inject_Z (Z.of_nat (length (filter (shows criterion) vs)))))
    end
  end.

(** The number of cells of a matrix row that show a glyph. *)
Definition count_symbol (g : str) (symbols : list str) : nat :=
  length (filter (λ t, t = g) symbols).

(** ** The observation of a pair *)

(** An observation of the pair of listing [lid] and field [fid]. *)
Definition pair_match (lid fid : Z) (o : Observation) : Prop :=
  listing_id o = lid ∧ field_id o = fid.

(** [o] is the first (the last) observation of the pair in the table
    [obs]. *)
Definition first_match (lid fid : Z) (obs : list Observation)
    (o : Observation) : Prop :=
  ∃ pre post, obs = pre ++ o :: post ∧ pair_match lid fid o ∧
              Forall (λ x, ¬ pair_match lid fid x) pre.

Definition last_match (lid fid : Z) (obs : list Observation)
    (o : Observation) : Prop :=
  ∃ pre post, obs = pre ++ o :: post ∧ pair_match lid fid o ∧
              Forall (λ x, ¬ pair_match lid fid x) post.

(** The glyph that shows an observation. *)
Definition symbol_of (o : Observation) : str :=
  if filled o then symbol_filled else symbol_empty.

(** ** CSV: the writer *)

(** [n] in decimal, padded with zeros to [width] digits. *)
Definition zero_padded (width : nat) (n : N) : str :=
  let digits := decimal (N.to_nat n) in
  replicate (width - length digits) 48%N ++ digits.

(** [d.isoformat()] *)
Definition isoformat (d : datetime) : str :=
  zero_padded 4 (year d) ++ py "-" ++ zero_padded 2 (month d) ++ py "-" ++
  zero_padded 2 (day d) ++ py "T" ++ zero_padded 2 (hour d) ++ py ":" ++
  zero_padded 2 (minute d) ++ py ":" ++ zero_padded 2 (second d) ++
  (if (microsecond d =? 0)%N then []
   else py "." ++ zero_padded 6 (microsecond d)).

(** The characters that make [csv.writer] quote a field, in the default
    dialect: the delimiter, the quote character and the characters of the
    line terminator. *)
Definition csv_special (c : N) : bool :=
  bool_decide (c ∈ [44; 34; 13; 10]%N).

(** The characters of a field with every quote character doubled. *)
Definition escape_field (field : str) : str :=
  c ← field; if (c =? 34)%N then [34; 34]%N else [c].

(** One field as [csv.writer] writes it: in quotes when it holds a special
    character. *)
Definition write_field (field : str) : str :=
  if existsb csv_special field then quoted (escape_field field) else field.

Fixpoint join_fields (row : list str) : str :=
  match row with
  | [] => []
  | [f] => write_field f
  | f :: row' => write_field f ++ [44%N] ++ join_fields row'
  end.

(** [cw.writerow(row)]: the fields joined by commas, a lone empty field
    written as two quotes, then the line terminator. *)
Definition writerow (row : list str) : str :=
  let rec := join_fields row in
  (match row, rec with
   | _ :: _, [] => quoted []
   | _, _ => rec
   end) ++ [13; 10]%N.

Definition export_header : list str :=
  [py "listing_id"; py "field"; py "filled"; py "analyst"; py "checked_at"].

(** The rows of the join of [export_observations], one per observation
    with its listing and its field. *)
Definition export_rows (s : store) : list (list str) :=
  o ← observations s;
  l ← filter (λ l, listing_id o = l_id l) (listings s);
  f ← filter (λ f, field_id o = f_id f) (fields s);
  [[listing_id_text l; canonical f; decimal (if filled o then 1 else 0);
    analyst o; isoformat (checked_at o)]].

(** The text of the exported file. *)
Definition export_text (s : store) : str :=
  concat (writerow <$> (export_header :: export_rows s)).


(** ** CSV: the reader *)

(** The states of [csv.reader] that the default dialect (no escape
    character) can reach. *)
Inductive parser_state :=
| START_RECORD
| START_FIELD
| IN_FIELD
| IN_QUOTED_FIELD
| QUOTE_IN_QUOTED_FIELD
| EAT_CRNL.

#[global] Instance parser_state_eq_dec : EqDecision parser_state.
Proof. solve_decision. Defined.

Record reader := {
  state : parser_state;
  field : str;
  rfields : list str
}.

(** [parse_reset] *)
Definition parse_reset : reader :=
  {| state := START_RECORD; field := []; rfields := [] |}.


Definition set_state (st : parser_state) (r : reader) : reader :=
  {| state := st; field := field r; rfields := rfields r |}.

Definition parse_save_field (r : reader) : reader :=
  {| state := state r; field := []; rfields := rfields r ++ [field r] |}.

Definition parse_add_char (c : N) (r : reader) : reader :=
  {| state := state r; field := field r ++ [c]; rfields := rfields r |}.

(** What a character is to the reader in the default dialect; [EOL] is
    the end-of-line mark the reader feeds after the characters of each
    line. *)
Inductive input :=
| Quote
| Delimiter
| Newline (c : N)
| EOL
| Other (c : N).

Definition classify (c : option N) : input :=
  match c with
  | None => EOL
  | Some c =>
    if (c =? 34)%N then Quote
    else if (c =? 44)%N then Delimiter
    else if (c =? 10)%N || (c =? 13)%N then Newline c
    else Other c
  end.

(** [parse_process_char] for the default dialect; the character [None] is
    [EOL].  The result is [None] when the reader raises [csv.Error]. *)
Definition parse_process_char (r : reader) (c : option N) : option reader :=
  let start_field (r : reader) :=
    match classify c with
    | Newline _ => Some (set_state EAT_CRNL (parse_save_field r))
    | EOL => Some (set_state START_RECORD (parse_save_field r))
    | Quote => Some (set_state IN_QUOTED_FIELD r)
    | Delimiter => Some (parse_save_field r)
    | Other ch => Some (set_state IN_FIELD (parse_add_char ch r))
    end in
  match state r with
  | START_RECORD =>
    match classify c with
    | EOL => Some r
    | Newline _ => Some (set_state EAT_CRNL r)
    | _ => start_field (set_state START_FIELD r)
    end
  | START_FIELD => start_field r
  | IN_FIELD =>
    match classify c with
    | Newline _ => Some (set_state EAT_CRNL (parse_save_field r))
    | EOL => Some (set_state START_RECORD (parse_save_field r))
    | Delimiter => Some (set_state START_FIELD (parse_save_field r))
    | Quote => Some (parse_add_char 34%N r)
    | Other ch => Some (parse_add_char ch r)
    end
  | IN_QUOTED_FIELD =>
    match classify c with
    | EOL => Some r
    | Quote => Some (set_state QUOTE_IN_QUOTED_FIELD r)
    | Delimiter => Some (parse_add_char 44%N r)
    | Newline ch | Other ch => Some (parse_add_char ch r)
    end
  | QUOTE_IN_QUOTED_FIELD =>
    match classify c with
    | Quote => Some (set_state IN_QUOTED_FIELD (parse_add_char 34%N r))
    | Delimiter => Some (set_state START_FIELD (parse_save_field r))
    | Newline _ => Some (set_state EAT_CRNL (parse_save_field r))
    | EOL => Some (set_state START_RECORD (parse_save_field r))
    | Other ch => Some (set_state IN_FIELD (parse_add_char ch r))
    end
  | EAT_CRNL =>
    match classify c with
    | Newline _ => Some r
    | EOL => Some (set_state START_RECORD r)
    | _ => None
    end
  end.

(** A record, followed by what the reader does next. *)
Definition yield (record : list str) (next : list (list str) * option exn)
    : list (list str) * option exn :=
  (record :: next.1, next.2).

(** The records [csv.reader] yields over [io.StringIO(text)], and whether
    it then raises.  The reader takes the text line by line (a line ends at
    a line feed) and feeds [EOL] after the characters of each line; a record
    is complete when that leaves the state [START_RECORD].  [midline] tells
    that the current line has characters.  When the text ends inside a
    record, the record is yielded with the field read so far. *)
Fixpoint reader_run (r : reader) (midline : bool) (text : str)
    : list (list str) * option exn :=
  match text with
  | [] =>
    let r := if midline then default r (parse_process_char r None) else r in
    if bool_decide (state r = START_RECORD) then
      ((if midline then [rfields r] else []), None)
    else if negb (bool_decide (field r = [])) ||
            bool_decide (state r = IN_QUOTED_FIELD)
    then ([rfields (parse_save_field r)], None)
    else ([], None)
  | c :: text' =>
    match parse_process_char r (Some c) with
    | None => ([], Some CsvError)
    | Some r =>
      if (c =? 10)%N then
        let r := default r (parse_process_char r None) in
        if bool_decide (state r = START_RECORD) then
          yield (rfields r) (reader_run parse_reset false text')
        else reader_run r false text'
      else reader_run r true text'
    end
  end.

Definition csv_reader (text : str) : list (list str) * option exn :=
  reader_run parse_reset false text.

(** The dictionary [csv.DictReader] builds for a row: the field names
    paired with the values, the names beyond the row set to [None].  (The
    values beyond the names go under the key [None], which no caller
    reads.) *)
Definition row_dict (fieldnames row : list str) : gmap str (option str) :=
  let d := foldl (λ d kv, <[kv.1 := Some kv.2]> d) ∅ (zip fieldnames row) in
  foldl (λ d key, <[key := None]> d) d (drop (length row) fieldnames).

(** [csv.DictReader(io.StringIO(text))]: the first record names the
    fields, empty records are skipped. *)
Definition DictReader (text : str)
    : list (gmap str (option str)) * option exn :=
  let '(records, e) := csv_reader text in
  match records with
  | [] => ([], e)
  | fieldnames :: rows =>
    (row_dict fieldnames <$> filter (λ row, row ≠ []) rows, e)
  end.

(** ** CSV: the import *)

(** [Py_ISSPACE] *)
Definition is_ascii_space (c : N) : bool :=
  bool_decide (c ∈ [9; 10; 11; 12; 13; 32]%N).

(** The code points of the digit zero of every block of decimal digits of
    Unicode 14; a block is ten consecutive code points, in the order of
    their values. *)
Definition decimal_zeros : list N :=
  [48; 1632; 1776; 1984; 2406; 2534; 2662; 2790; 2918; 3046; 3174; 3302;
   3430; 3558; 3664; 3792; 3872; 4160; 4240; 6112; 6160; 6470; 6608; 6784;
   6800; 6992; 7088; 7232; 7248; 42528; 43216; 43264; 43472; 43504; 43600;
   44016; 65296; 66720; 68912; 69734; 69872; 69942; 70096; 70384; 70736;
   70864; 71248; 71360; 71472; 71904; 72016; 72784; 73040; 73120; 92768;
   92864; 93008; 120782; 120792; 120802; 120812; 120822; 123200; 123632;
   125264; 130032]%N.

(** [Py_UNICODE_TODECIMAL] *)
Definition to_decimal (c : N) : option N :=
  (λ z, c - z)%N <$>
  head (filter (λ z, (z ≤ c)%N ∧ (c < z + 10)%N) decimal_zeros).

(** [_PyUnicode_TransformDecimalAndSpaceToASCII]: outside ASCII a space
    becomes a blank and a decimal digit its ASCII digit; at any other
    character the text is cut after a question mark. *)
Fixpoint transform_decimal_and_space (t : str) : str :=
  match t with
  | [] => []
  | c :: t' =>
    if (c <? 128)%N then c :: transform_decimal_and_space t'
    else if isspace c then 32%N :: transform_decimal_and_space t'
    else match to_decimal c with
         | Some d => (48 + d)%N :: transform_decimal_and_space t'
         | None => [63%N]
         end
  end.

Definition is_digit (c : N) : bool := (48 <=? c)%N && (c <=? 57)%N.

(** The digits of a decimal literal, where one underscore may stand between
    two digits; [prev] tells that the last character was an underscore.
    The result is the values of the digits and the text after them. *)
Fixpoint scan_digits (prev : bool) (acc : list Z) (t : str)
    : option (list Z * str) :=
  match t with
  | c :: t' =>
    if is_digit c then scan_digits false (acc ++ [Z.of_N (c - 48)]) t'
    else if (c =? 95)%N then
      if prev then None else scan_digits true acc t'
    else if prev then None else Some (acc, t)
  | [] => if prev then None else Some (acc, [])
  end.

(** [PyLong_FromString] in base 10 (the limit of 4300 digits is the
    default of [sys.set_int_max_str_digits]). *)
Definition long_from_string (t : str) : option Z :=
  let t := lstrip_with is_ascii_space t in
  let '(sign, t) :=
    match t with
    | 43%N :: t' => (1%Z, t')
    | 45%N :: t' => ((-1)%Z, t')
    | _ => (1%Z, t)
    end in
  match t with
  | 95%N :: _ => None
  | _ =>
    '(digits, rest) ← scan_digits false [] t;
    if bool_decide (digits = []) then None
    else if 4300 <? length digits then None
    else if bool_decide (lstrip_with is_ascii_space rest = []) then
      Some (sign * foldl (λ n d, 10 * n + d) 0 digits)%Z
    else None
  end.

(** [int(t)] for a text; [None] is [ValueError]. *)
Definition py_int (t : str) : option Z :=
  long_from_string (transform_decimal_and_space t).

(** How far the loop of [import_obs] got: the store with the rows added so
    far, and the store as of the last [commit]. *)
Inductive outcome :=
| Running (s committed : store)
| Raised (e : exn) (committed : store).

(** [row.get(key, default)]: [None] is the value [None] of a name beyond
    the row. *)
Definition row_get (row : gmap str (option str)) (key : str) (dflt : str)
    : option str :=
  default (Some dflt) (row !! key).

(** The body of the loop of [import_obs]. *)
Definition import_row (b who : str) (s committed : store)
    (row : gmap str (option str)) : outcome :=
  match row_get row (py "listing_id") [] with
  | None => Raised AttributeError committed
  | Some listing_text =>
    let listing_text := strip listing_text in
    match row_get row (py "field") [] with
    | None => Raised AttributeError committed
    | Some field_name =>
      let field_name := strip field_name in
      match row_get row (py "filled") (py "0") with
      | None => Raised TypeError committed
      | Some t =>
        match py_int t with
        | None => Raised ValueError committed
        | Some z =>
          let fl := negb (z =? 0)%Z in
          if bool_decide (listing_text = []) || bool_decide (field_name = [])
          then Running s committed
          else
            let '(lst, s, committed) :=
              match listing_by_text listing_text b s with
              | Some lst => (lst, s, committed)
              | None =>
                let '(lst, s) := add_Listing b listing_text s in (lst, s, s)
              end in
            let '(fld, s, committed) :=
              match field_by_canonical field_name s with
              | Some fld => (fld, s, committed)
              | None =>
                let '(fld, s) := add_Field field_name s in (fld, s, s)
              end in
            Running
              (add_Observation (l_id lst) (f_id fld) fl field_name who s).2
              committed
        end
      end
    end
  end.

Fixpoint import_rows (b who : str) (s committed : store)
    (rows : list (gmap str (option str))) : outcome :=
  match rows with
  | [] => Running s committed
  | row :: rows' =>
    match import_row b who s committed row with
    | Running s committed => import_rows b who s committed rows'
    | Raised e committed => Raised e committed
    end
  end.

(** The handler of a POST to [/import/observations]; [file] is the decoded
    text of the uploaded file, [None] when no file came with the form.  A
    request that raises leaves the store as of its last [commit]. *)
Definition import_obs (file form_batch form_analyst : option str)
    (s : store) : response * store :=
  let b := default (py "default") form_batch in
  let who := default (py "import_user") form_analyst in
  match file with
  | None => (Response 400 (Text (py "no file")), s)
  | Some text =>
    let '(rows, e) := DictReader text in
    match import_rows b who s s rows with
    | Raised e committed => (Unhandled e, committed)
    | Running s committed =>
      match e with
      | Some e => (Unhandled e, committed)
      | None => (Response 200 (Text (py "imported")), s)
      end
    end
  end.

(** The (listing text, field canonical, filled) triples of the
    observations of a store. *)
Definition triples (s : store) : list (str * str * bool) :=
  o ← observations s;
  l ← filter (λ l, listing_id o = l_id l) (listings s);
  f ← filter (λ f, field_id o = f_id f) (fields s);
  [(listing_id_text l, canonical f, filled o)].

(** ** The stores of the application *)

(** The observations of a store with the listing and the field each
    refers to: the join of [export_observations]. *)
Definition export_join (s : store) : list (Observation * Listing * Field) :=
  o ← observations s;
  l ← filter (λ l, listing_id o = l_id l) (listings s);
  f ← filter (λ f, field_id o = f_id f) (fields s);
  [(o, l, f)].


Definition triple_of (r : Observation * Listing * Field)
    : str * str * bool :=
  (listing_id_text r.1.2, canonical r.2, filled r.1.1).

(** Keys are unique and every observation refers to a listing and a field
    of the store. *)
Definition integrity (s : store) : Prop :=
  NoDup (l_id <$> listings s) ∧ NoDup (f_id <$> fields s) ∧
  Forall (λ o, listing_id o ∈ (l_id <$> listings s) ∧
               field_id o ∈ (f_id <$> fields s)) (observations s).

(** A text that trimming leaves as it is and that is not empty. *)
Definition trimmed (t : str) : Prop := strip t = t ∧ t ≠ [].

(** The listing texts and the canonical field names are trimmed. *)
Definition texts_trimmed (s : store) : Prop :=
  Forall (λ l, trimmed (listing_id_text l)) (listings s) ∧
  Forall (λ f, trimmed (canonical f)) (fields s).

(** The stores the application can be in: it starts empty, and the
    handlers that write are the only way to change it. *)
Inductive reachable : store → Prop :=
| reach_empty clock : reachable (empty_store clock)
| reach_add_listing s b data :
    reachable s → reachable (add_listing b data s).2
| reach_bulk_mark_empty s fid who :
    reachable s → reachable (bulk_mark_empty fid who s).2
| reach_import_obs s file b who :
    reachable s → reachable (import_obs file b who s).2
| reach_find_or_create_field s name :
    reachable s → reachable (find_or_create_field name s).2.

(** ** Sample data *)

(** A clock whose readings differ in the microsecond. *)
Definition clock0 : nat → datetime :=
  λ n, {| year := 2024; month := 5; day := 17; hour := 9; minute := 30;
          second := 0; microsecond := N.of_nat n |}.

Definition demo_store : store :=
  let s0 := empty_store clock0 in
  let s1 := (add_listing (py "spring")
               {| req_listing_id := Some (py " MLS-1001 ");
                  req_observations :=
                    [ {| field_text := Some (py "Garage Type");
                         entry_filled := Some (JBool true) |};
                      {| field_text := Some (py "  ");
                         entry_filled := Some (JBool true) |};
                      {| field_text := Some (py "Pool");
                         entry_filled := None |} ];
                  req_analyst := Some (py "ana") |} s0).2 in
  let s2 := (add_listing (py "autumn")
               {| req_listing_id := Some (py "MLS-2002");
                  req_observations :=
                    [ {| field_text := Some (py "Pool");
                         entry_filled := Some (JInt 1) |} ];
                  req_analyst := None |} s1).2 in
  (bulk_mark_empty 1 None s2).2.

Definition demo_request : listing_request :=
  {| req_listing_id := Some (py "MLS-3003 ");
     req_observations :=
       [ {| field_text := Some (py "Roof"); entry_filled := Some (JBool true) |};
         {| field_text := None; entry_filled := Some (JBool true) |};
         {| field_text := Some (py " "); entry_filled := None |};
         {| field_text := Some (py "Pool"); entry_filled := Some JNull |} ];
     req_analyst := Some (py "ana") |}.

Definition blank_request : listing_request :=
  {| req_listing_id := Some (py "   ");
     req_observations :=
       [ {| field_text := Some (py "Roof"); entry_filled := Some (JBool true) |} ];
     req_analyst := None |}.

(** Ten listings of the batch [default], each observed for the fields [A]
    and [B]: [A] is filled in the first four listings and empty in the other
    six, [B] is filled in the first five and empty in the other five. *)
Definition boundary_request (k : nat) : listing_request :=
  {| req_listing_id := Some (py "L" ++ decimal k);
     req_observations :=
       [ {| field_text := Some (py "A");
            entry_filled := Some (JBool (k <? 4)) |};
         {| field_text := Some (py "B");
            entry_filled := Some (JBool (k <? 5)) |} ];
     req_analyst := None |}.

Definition boundary_store : store :=
  foldl (λ s k, (add_listing (py "default") (boundary_request k) s).2)
    (empty_store clock0) (seq 0 10).

(** One listing whose request names the field [Pool] twice, first as
    filled and then as empty. *)
Definition duplicate_store : store :=
  (add_listing (py "default")
     {| req_listing_id := Some (py "MLS-7");
        req_observations :=
          [ {| field_text := Some (py "Pool");
               entry_filled := Some (JBool true) |};
            {| field_text := Some (py "Pool");
               entry_filled := Some (JBool false) |} ];
        req_analyst := None |} (empty_store clock0)).2.

(** The line terminator of the CSV writer. *)
Definition crlf : str := [13; 10]%N.

(** Three uploads: the filled column of the second data row is [yes]; the
    filled column of the row is empty; the listing id of the first row and
    the field of the second are blank. *)

Definition csv_filled_yes : str :=
  py "listing_id,field,filled" ++ crlf ++
  py "MLS-1,Garage Type,1" ++ crlf ++
  py "MLS-2,Pool,yes" ++ crlf.

Definition csv_filled_empty : str :=
  py "listing_id,field,filled" ++ crlf ++
  py "MLS-1,Garage Type," ++ crlf.

Definition csv_blank_rows : str :=
  py "listing_id,field,filled" ++ crlf ++
  py " ,Garage Type,1" ++ crlf ++
  py "MLS-1,,0" ++ crlf.

(** Texts with the characters a literal cannot hold: line feed, carriage
    return, the quote and the file separator (U+001C). *)
Definition LF : str := [10%N].
Definition CR : str := [13%N].
Definition DQ : str := [34%N].
Definition FS : str := [28%N].


(** ** The writes of the handlers *)

(** One row added the way the handlers add rows: a listing with a trimmed
    text; a field with a trimmed name that no field of the store has; an
    observation of a listing and a field of the store, whose text is the
    canonical name of the field. *)
Inductive write : store → store → Prop :=
| write_Listing b t s :
    trimmed t → write s (add_Listing b t s).2
| write_Field c s :
    trimmed c → field_by_canonical c s = None → write s (add_Field c s).2
| write_Observation lst fld fl who s :
    lst ∈ listings s → fld ∈ fields s →
    write s (add_Observation (l_id lst) (f_id fld) fl (canonical fld) who s).2.

(** Every table of [s'] starts with the rows of the table of [s]. *)
Definition extends (s s' : store) : Prop :=
  listings s `prefix_of` listings s' ∧ fields s `prefix_of` fields s' ∧
  observations s `prefix_of` observations s'.

(** The text of an observation is the canonical name of its field. *)
Definition names_field (s : store) (o : Observation) : Prop :=
  ∃ f, field_by_id (field_id o) s = Some f ∧ canonical f = raw_text o.

(** ** The rows of an uploaded file *)

(** What [import_obs] records for a row with listing text [lt], field text
    [fc] and the integer [z] in the filled column: nothing when a text is
    blank, else the trimmed texts and whether [z] is not zero. *)
Definition imported_triple (e : str * str * Z) : option (str * str * bool) :=
  if decide (strip e.1.1 = [] ∨ strip e.1.2 = []) then None
  else Some (strip e.1.1, strip e.1.2, negb (e.2 =? 0)%Z).

(** The row [row] of an uploaded file holds the texts and the integer of
    [e] in the columns [listing_id], [field] and [filled]; a file without a
    [filled] column holds 0 there. *)
Definition row_holds (row : gmap str (option str)) (e : str * str * Z)
    : Prop :=
  row_get row (py "listing_id") [] = Some e.1.1 ∧
  row_get row (py "field") [] = Some e.1.2 ∧
  row_get row (py "filled") (py "0") ≫= py_int = Some e.2.

(** The listing and the field of [e] are in the store, for batch [b]. *)
Definition present (b : str) (s : store) (e : str * str * Z) : Prop :=
  imported_triple e = None ∨
  (listing_by_text (strip e.1.1) b s ≠ None ∧
   field_by_canonical (strip e.1.2) s ≠ None).

(** An upload of three rows, the second with a blank listing id, and what
    its rows hold. *)
Definition csv_three_rows : str :=
  py "listing_id,field,filled" ++ [13; 10]%N ++
  py "MLS-1001, Pool ,1" ++ [13; 10]%N ++
  py " ,Roof,0" ++ [13; 10]%N ++
  py "MLS-9,Roof,0" ++ [13; 10]%N.

Definition three_entries : list (str * str * Z) :=
  [(py "MLS-1001", py " Pool ", 1%Z); (py " ", py "Roof", 0%Z);
   (py "MLS-9", py "Roof", 0%Z)].

(** ** The grid of the exported sheet *)

(** The column number a column name stands for: the letters are the digits
    1 to 26 of a numeral in base 26. *)
Definition letters_to_idx (letters : str) : nat :=
  foldl (λ idx c, 26 * idx + (N.to_nat c - 64)) 0 letters.

(** The size [export_google_sheet_symbols] gives the new worksheet. *)
Definition num_rows (rows : list (list str)) : nat :=
  100 `max` (length rows + 10).

Definition num_cols (header_row : list str) : nat := length header_row.

(** ** Field suggestions *)

(** [lower(t)] of SQLite: the capital letters of ASCII become small. *)
Definition sql_lower (t : str) : str :=
  (λ c, if (65 <=? c)%N && (c <=? 90)%N then (c + 32)%N else c) <$> t.

(** A text as the [LIKE] operator of SQLite reads it: up to its first
    NUL. *)
Fixpoint until_nul (t : str) : str :=
  match t with
  | [] => []
  | c :: t' => if (c =? 0)%N then [] else c :: until_nul t'
  end.

(** [text LIKE pattern] of SQLite, on texts in lower case (where its
    disregard of the case of ASCII letters makes no difference): [%]
    stands for any run of characters, [_] for any one character, every
    other character for itself; there is no escape character. *)
Fixpoint like (pattern : str) : str → bool :=
  match pattern with
  | [] => λ t, bool_decide (t = [])
  | c :: pattern' =>
    if (c =? 37)%N then
      fix any (t : str) : bool :=
        like pattern' t || match t with [] => false | _ :: t' => any t' end
    else if (c =? 95)%N then
      λ t, match t with [] => false | _ :: t' => like pattern' t' end
    else
      λ t, match t with
           | [] => false
           | d :: t' => (d =? c)%N && like pattern' t'
           end
  end.

(** The number of bytes of a text in UTF-8. *)
Definition utf8_length (t : str) : N :=
  foldr (λ c n, (if c <? 128 then 1 else if c <? 2048 then 2
                 else if c <? 65536 then 3 else 4) + n)%N 0%N t.

(** [column.ilike(pattern)] for one row, as SQLAlchemy writes it for
    SQLite: [lower(column) LIKE lower(pattern)].  SQLite refuses a pattern
    of more than 50000 bytes; [None] is that error. *)
Definition ilike (text pattern : str) : option bool :=
  if (50000 <? utf8_length pattern)%N then None
  else Some (like (until_nul (sql_lower pattern))
               (until_nul (sql_lower text))).

(** What a client of [/api/fields] receives: the JSON array of the keys
    and names of the fields found, or the failure of the query. *)
Inductive suggestions :=
| Suggestions (items : list (Z * str))
| QueryError.

(** [{'id': f.id, 'canonical': f.canonical}] *)
Definition suggestion (f : Field) : Z * str := (f_id f, canonical f).

(** The handler of [/api/fields]; [q] is [None] when the request has no
    such argument.  The pattern is tried on the rows of the table one
    after the other, so a pattern that is too long fails the query only
    when the table has a row. *)
Definition api_fields (q : option str) (s : store) : suggestions :=
  let q := strip (default [] q) in
  match q with
  | [] =>
    Suggestions
      (suggestion <$>
       take 50 (merge_sort (λ x y, dt_leb (f_created_at y) (f_created_at x))
                  (fields s)))
  | _ =>
    let pattern := py "%" ++ q ++ py "%" in
    match mapM (λ f, ilike (canonical f) pattern) (fields s) with
    | None => QueryError
    | Some _ =>
      Suggestions
        (suggestion <$>
         take 20 (filter (λ f, ilike (canonical f) pattern = Some true)
                    (fields s)))
    end
  end.

(** [q] occurs in [t]. *)
Definition occurs_in (q t : str) : Prop := ∃ pre post, t = pre ++ q ++ post.

(** ** The quick-entry page *)

(** The script of the page works on JavaScript strings, taken here as the
    lists of their UTF-16 code units. *)

(** [s.replace(/c/g, r)] for a character [c] *)
Definition replace_all (c : N) (r : str) (s : str) : str :=
  x ← s; if (x =? c)%N then r else [x].

(** [escapeHtml] of the quick-entry page *)
Definition escapeHtml (s : str) : str :=
  replace_all 62 (py "&gt;")
    (replace_all 60 (py "&lt;")
       (replace_all 34 (py "&quot;")
          (replace_all 38 (py "&amp;") s))).

(** The text that stands for a character in escaped HTML. *)
Definition escape_char (c : N) : str :=
  if (c =? 38)%N then py "&amp;"
  else if (c =? 34)%N then py "&quot;"
  else if (c =? 60)%N then py "&lt;"
  else if (c =? 62)%N then py "&gt;"
  else [c].
(** * Properties *)

(** ** Queries: the first row of a filtered table *)

Lemma head_filter_app {A} (P : A → Prop) `{∀ x, Decision (P x)} l1 l2 :
  head (filter P (l1 ++ l2)) =
  match head (filter P l1) with
  | Some x => Some x
  | None => head (filter P l2)
  end.
Proof.
  rewrite filter_app. destruct (filter P l1); reflexivity.
Qed.

Lemma head_filter_None {A} (P : A → Prop) `{∀ x, Decision (P x)} l :
  head (filter P l) = None ↔ ∀ x, x ∈ l → ¬ P x.
Proof.
  rewrite head_None. split.
  - intros E x Hx HP.
    assert (x ∈ filter P l) as Hin by (apply list_elem_of_filter; done).
    rewrite E in Hin. by apply elem_of_nil in Hin.
  - intros Hn. induction l as [|a l IH]; [done|].
    rewrite filter_cons. destruct (decide (P a)) as [Ha|Ha].
    + exfalso. apply (Hn a); [left | done].
    + apply IH. intros x Hx. apply Hn. by right.
Qed.

Lemma head_filter_Some {A} (P : A → Prop) `{∀ x, Decision (P x)} l x :
  head (filter P l) = Some x →
  ∃ l1 l2, l = l1 ++ x :: l2 ∧ P x ∧ ∀ y, y ∈ l1 → ¬ P y.
Proof.
  induction l as [|a l IH]; [done|].
  rewrite filter_cons. destruct (decide (P a)) as [Ha|Ha]; simpl.
  - intros [= ->]. exists [], l. split; [done|]. split; [done|].
    intros y Hy. by apply elem_of_nil in Hy.
  - intros E. destruct (IH E) as (l1 & l2 & -> & Hx & Hl1).
    exists (a :: l1), l2. split; [done|]. split; [done|].
    intros y Hy. apply elem_of_cons in Hy as [->|Hy]; [done|by apply Hl1].
Qed.

(** ** Keys *)

Lemma next_id_fresh (ids : list Z) : ∀ i, i ∈ ids → (i < next_id ids)%Z.
Proof.
  unfold next_id. induction ids as [|a ids IH]; intros i Hi.
  - by apply elem_of_nil in Hi.
  - simpl. apply elem_of_cons in Hi as [->|Hi]; [lia|].
    specialize (IH i Hi). lia.
Qed.

Lemma next_id_not_elem (ids : list Z) : next_id ids ∉ ids.
Proof. intros Hin. apply next_id_fresh in Hin. lia. Qed.

(** ** Field registry: resolving a name twice *)

(** C5. For every name that is not blank after trimming, the first
    resolution returns a field of the resulting store whose canonical text
    is the trimmed name: either a field the store already had, and then the
    store is left as it is, or, when no field of the store has that
    canonical text, a new field under a fresh key, appended to the field
    table and nothing else changed.  A second resolution in the resulting
    store finds that same field, hence the same id, and creates nothing. *)
Theorem find_or_create_field_twice (name : str) (s : store) :
  strip name ≠ [] →
  ∃ f s1,
    find_or_create_field name s = (Some f, s1) ∧
    canonical f = strip name ∧
    f ∈ fields s1 ∧
    listings s1 = listings s ∧ observations s1 = observations s ∧
    ((f ∈ fields s ∧ s1 = s) ∨
     ((∀ g, g ∈ fields s → canonical g ≠ strip name) ∧
      fields s1 = fields s ++ [f] ∧
      f_id f ∉ f_id <$> fields s)) ∧
    field_by_canonical (strip name) s1 = Some f ∧
    find_or_create_field name s1 = (Some f, s1) ∧
    f_id <$> (find_or_create_field name s1).1 =
      f_id <$> (find_or_create_field name s).1.
Proof.
  intros Hne. unfold find_or_create_field.
  destruct (strip name) as [|c n] eqn:En; [done|].
  destruct (field_by_canonical (c :: n) s) as [f|] eqn:Ef.
  - exists f, s. rewrite Ef.
    unfold field_by_canonical in Ef.
    apply head_filter_Some in Ef as Hf.
    destruct Hf as (pre & post & Hfs & Hcan & _).
    assert (f ∈ fields s) as Hin.
    { rewrite Hfs. apply elem_of_app. right. left. }
    repeat split; try done. by left.
  - unfold field_by_canonical in Ef.
    pose proof (proj1 (head_filter_None _ _) Ef) as Hnone.
    cbn [add_Field]. eexists _, _. split; [reflexivity|].
    cbn [canonical fields listings observations f_id].
    assert (field_by_canonical (c :: n)
              {| listings := listings s;
                 fields := fields s ++
                   [{| f_id := next_id (f_id <$> fields s);
                       canonical := c :: n;
                       f_created_at := utcnow s (reads s) |}];
                 observations := observations s;
                 utcnow := utcnow s; reads := S (reads s) |} =
            Some {| f_id := next_id (f_id <$> fields s);
                    canonical := c :: n;
                    f_created_at := utcnow s (reads s) |}) as Hfound.
    { unfold field_by_canonical. cbn [fields].
      rewrite head_filter_app, Ef, filter_cons.
      cbn [canonical]. by rewrite decide_True. }
    rewrite Hfound.
    split; [done|]. split; [apply elem_of_app; right; left|].
    split; [done|]. split; [done|]. split; [|done].
    right. split; [exact Hnone|]. split; [done|]. apply next_id_not_elem.
Qed.

Lemma find_or_create_field_twice_witness :
  strip (py " Garage Type ") ≠ [] ∧
  ∃ f s1,
    find_or_create_field (py " Garage Type ")
      (empty_store (λ _, Build_datetime 2024 1 1 0 0 0 0)) = (Some f, s1) ∧
    canonical f = strip (py " Garage Type ") ∧
    f ∈ fields s1 ∧
    listings s1 =
      listings (empty_store (λ _, Build_datetime 2024 1 1 0 0 0 0)) ∧
    observations s1 =
      observations (empty_store (λ _, Build_datetime 2024 1 1 0 0 0 0)) ∧
    ((f ∈ fields (empty_store (λ _, Build_datetime 2024 1 1 0 0 0 0)) ∧
      s1 = empty_store (λ _, Build_datetime 2024 1 1 0 0 0 0)) ∨
     ((∀ g, g ∈ fields (empty_store (λ _, Build_datetime 2024 1 1 0 0 0 0)) →
            canonical g ≠ strip (py " Garage Type ")) ∧
      fields s1 =
        fields (empty_store (λ _, Build_datetime 2024 1 1 0 0 0 0)) ++ [f] ∧
      f_id f ∉
        f_id <$> fields (empty_store (λ _, Build_datetime 2024 1 1 0 0 0 0))))
    ∧
    field_by_canonical (strip (py " Garage Type ")) s1 = Some f ∧
    find_or_create_field (py " Garage Type ") s1 = (Some f, s1) ∧
    f_id <$> (find_or_create_field (py " Garage Type ") s1).1 =
      f_id <$> (find_or_create_field (py " Garage Type ")
                  (empty_store (λ _, Build_datetime 2024 1 1 0 0 0 0))).1.
Proof.
  split; [by vm_compute|].
  apply find_or_create_field_twice. by vm_compute.
Defined.

(** ** Observation recorder: adding a listing *)

Lemma add_listing_entry_spec lst who s e :
  let s' := add_listing_entry lst who s e in
  listings s' = listings s ∧
  ∃ new, observations s' = observations s ++ new ∧
         length new = (if decide (blank_entry e) then 0 else 1) ∧
         Forall (λ o, listing_id o = l_id lst) new.
Proof.
  unfold add_listing_entry.
  destruct (decide (blank_entry e)) as [Hb|Hb]; unfold blank_entry in Hb.
  - rewrite Hb. simpl. split; [done|]. exists []. by rewrite app_nil_r.
  - destruct (strip (default [] (field_text e))) as [|c raw]; [done|].
    destruct (field_by_canonical (c :: raw) s) as [f|]; simpl;
      (split; [done|]); eexists [_]; (split; [done|]);
      (split; [done|]); by repeat constructor.
Qed.

Lemma add_listing_loop_spec lst who entries : ∀ s,
  let s' := foldl (add_listing_entry lst who) s entries in
  listings s' = listings s ∧
  ∃ new, observations s' = observations s ++ new ∧
         length new = length entries - length (filter blank_entry entries) ∧
         Forall (λ o, listing_id o = l_id lst) new.
Proof.
  induction entries as [|e entries IH]; intros s; simpl.
  - split; [done|]. exists []. by rewrite app_nil_r.
  - destruct (add_listing_entry_spec lst who s e) as (Hl & new1 & Ho & Hn & Hf).
    destruct (IH (add_listing_entry lst who s e)) as (Hl' & new2 & Ho' & Hn' & Hf').
    split; [congruence|]. exists (new1 ++ new2).
    split; [by rewrite Ho', Ho, app_assoc|].
    split; [|by apply Forall_app].
    rewrite length_app, Hn, Hn', filter_cons.
    pose proof (length_filter blank_entry entries).
    destruct (decide (blank_entry e)); simpl; lia.
Qed.

(** C2. A call with a listing id that is not blank after trimming and a
    list of entries answers 200 with the key of one new listing, appended to
    the listing table under a key no earlier listing has; it appends as many
    observations as there are entries minus the entries whose field text is
    blank, and every one of them references the new listing. *)
Theorem add_listing_creates (b : str) (data : listing_request) (s : store) :
  strip (default [] (req_listing_id data)) ≠ [] →
  ∃ lst new s',
    add_listing b data s = (Response 200 (JsonListing (l_id lst)), s') ∧
    listings s' = listings s ++ [lst] ∧
    (∀ l, l ∈ listings s → l_id l ≠ l_id lst) ∧
    observations s' = observations s ++ new ∧
    length new = length (req_observations data)
                 - length (filter blank_entry (req_observations data)) ∧
    Forall (λ o, listing_id o = l_id lst) new.
Proof.
  intros Hne. unfold add_listing.
  destruct (strip (default [] (req_listing_id data))) as [|c t] eqn:E; [done|].
  simpl.
  set (lst := {| l_id := next_id (l_id <$> listings s) |}).
  set (s1 := {| listings := listings s ++ [lst] |}).
  destruct (add_listing_loop_spec lst (default (py "unknown") (req_analyst data))
              (req_observations data) s1) as (Hl & new & Ho & Hn & Hf).
  exists lst, new, (foldl (add_listing_entry lst (default (py "unknown") (req_analyst data)))
                     s1 (req_observations data)).
  split; [done|]. split; [done|]. split; [|done].
  intros l Hl' Heq.
  assert (l_id l ∈ l_id <$> listings s) as Hin by (by apply list_elem_of_fmap_2).
  apply next_id_fresh in Hin. simpl in Heq. lia.
Qed.

Lemma add_listing_creates_witness :
  strip (default [] (req_listing_id demo_request)) ≠ [] ∧
  ∃ lst new s',
    add_listing (py "spring") demo_request demo_store =
      (Response 200 (JsonListing (l_id lst)), s') ∧
    listings s' = listings demo_store ++ [lst] ∧
    (∀ l, l ∈ listings demo_store → l_id l ≠ l_id lst) ∧
    observations s' = observations demo_store ++ new ∧
    length new = length (req_observations demo_request)
                 - length (filter blank_entry (req_observations demo_request)) ∧
    Forall (λ o, listing_id o = l_id lst) new.
Proof.
  split; [by vm_compute|].
  apply (add_listing_creates (py "spring") demo_request demo_store).
  by vm_compute.
Defined.

Example add_listing_demo_counts :
  length (observations (add_listing (py "spring") demo_request demo_store).2)
  = length (observations demo_store) + 2 ∧
  length (filter blank_entry (req_observations demo_request)) = 2.
Proof. by vm_compute. Qed.

(** C8. A request whose listing id is blank after trimming (or absent) is
    answered with status 400 and the JSON error body, and the store is
    left as it was: no listing and no observation is created. *)
Theorem add_listing_blank_id (b : str) (data : listing_request) (s : store) :
  strip (default [] (req_listing_id data)) = [] →
  add_listing b data s =
    (Response 400 (JsonError (py "listing_id required")), s).
Proof.
  intros E. unfold add_listing. by rewrite E.
Qed.

Lemma add_listing_blank_id_witness :
  strip (default [] (req_listing_id blank_request)) = [] ∧
  add_listing (py "spring") blank_request demo_store =
    (Response 400 (JsonError (py "listing_id required")), demo_store).
Proof.
  split; [by vm_compute|].
  apply (add_listing_blank_id (py "spring") blank_request demo_store).
  by vm_compute.
Defined.

(** ** Observation recorder: marking a field empty in bulk *)

Lemma first_observation_app lid fid s new :
  first_observation lid fid
    {| listings := listings s; fields := fields s;
       observations := observations s ++ new;
       utcnow := utcnow s; reads := S (reads s) |} =
  match first_observation lid fid s with
  | Some o => Some o
  | None => head (filter (λ o, listing_id o = lid ∧ field_id o = fid) new)
  end.
Proof. unfold first_observation. simpl. apply head_filter_app. Qed.

Lemma first_observation_prefix lid fid s s' new :
  observations s' = observations s ++ new →
  first_observation lid fid s' = None → first_observation lid fid s = None.
Proof.
  unfold first_observation. intros ->. rewrite head_filter_app.
  by destruct (head (filter _ (observations s))).
Qed.

Lemma first_observation_extend lid fid s s' new :
  observations s' = observations s ++ new →
  first_observation lid fid s ≠ None → first_observation lid fid s' ≠ None.
Proof.
  intros Ho Hs Hs'. by apply Hs, (first_observation_prefix _ _ _ _ _ Ho).
Qed.

(** What one run of the loop does, from any running count and store and
    over any list of listings. *)
Lemma bulk_mark_empty_loop_spec fld who ls : ∀ count s,
  ∃ new,
    let '(count', s') := foldl (bulk_mark_empty_step fld who) (count, s) ls in
    listings s' = listings s ∧ fields s' = fields s ∧
    observations s' = observations s ++ new ∧
    count' = count + length new ∧
    Forall (λ o, filled o = false ∧ field_id o = f_id fld ∧
                 raw_text o = canonical fld ∧ analyst o = who ∧
                 (∃ l, l ∈ ls ∧ listing_id o = l_id l) ∧
                 first_observation (listing_id o) (f_id fld) s = None) new ∧
    ∀ l, l ∈ ls → first_observation (l_id l) (f_id fld) s' ≠ None.
Proof.
  induction ls as [|l ls IH]; intros count s.
  - exists []. simpl. rewrite app_nil_r.
    repeat split; [lia | constructor |].
    intros l Hl. by apply elem_of_nil in Hl.
  - simpl.
    destruct (first_observation (l_id l) (f_id fld) s) as [o|] eqn:Eo.
    + destruct (IH count s) as [new Hnew]. exists new.
      destruct (foldl _ (count, s) ls) as [count' s'].
      destruct Hnew as (Hl & Hf & Ho & Hc & Hall & Hcov).
      repeat split; try done.
      * eapply Forall_impl; [exact Hall|]. simpl.
        intros x (? & ? & ? & ? & (l' & Hl' & ?) & ?).
        repeat split; try done. exists l'. split; [by right | done].
      * intros l' Hl'. apply elem_of_cons in Hl' as [->|Hl']; [|by apply Hcov].
        apply (first_observation_extend _ _ s _ new Ho). by rewrite Eo.
    + set (o := (add_Observation (l_id l) (f_id fld) false (canonical fld) who s).1).
      set (s1 := (add_Observation (l_id l) (f_id fld) false (canonical fld) who s).2).
      destruct (IH (S count) s1) as [new Hnew]. exists (o :: new).
      change (let '(count', s') :=
                foldl (bulk_mark_empty_step fld who) (S count, s1) ls in
              listings s' = listings s ∧ fields s' = fields s ∧
              observations s' = observations s ++ o :: new ∧
              count' = count + length (o :: new) ∧
              Forall (λ o, filled o = false ∧ field_id o = f_id fld ∧
                           raw_text o = canonical fld ∧ analyst o = who ∧
                           (∃ l0, l0 ∈ l :: ls ∧ listing_id o = l_id l0) ∧
                           first_observation (listing_id o) (f_id fld) s = None)
                (o :: new) ∧
              ∀ l0, l0 ∈ l :: ls →
                    first_observation (l_id l0) (f_id fld) s' ≠ None).
      destruct (foldl _ (S count, s1) ls) as [count' s'].
      destruct Hnew as (Hl & Hf & Ho & Hc & Hall & Hcov).
      assert (observations s' = observations s ++ o :: new) as Ho'.
      { rewrite Ho. simpl. by rewrite <- app_assoc. }
      repeat split; try done.
      * simpl. lia.
      * constructor.
        -- simpl. repeat split; try done. exists l. split; [left | done].
        -- eapply Forall_impl; [exact Hall|]. simpl.
           intros x (? & ? & ? & ? & (l' & Hl' & ?) & Hx).
           repeat split; try done.
           ++ exists l'. split; [by right | done].
           ++ by apply (first_observation_prefix _ _ s s1 [o]).
      * intros l' Hl'. apply elem_of_cons in Hl' as [->|Hl']; [|by apply Hcov].
        apply (first_observation_extend _ _ s1 _ new Ho).
        unfold s1, first_observation. simpl.
        rewrite head_filter_app. unfold first_observation in Eo. rewrite Eo.
        rewrite filter_cons. simpl. by rewrite decide_True.
Qed.

(** A run over listings that all have an observation for the field
    changes nothing and counts nothing. *)
Lemma bulk_mark_empty_loop_covered fld who ls : ∀ count s,
  (∀ l, l ∈ ls → first_observation (l_id l) (f_id fld) s ≠ None) →
  foldl (bulk_mark_empty_step fld who) (count, s) ls = (count, s).
Proof.
  induction ls as [|l ls IH]; intros count s Hcov; [done|].
  simpl. destruct (first_observation (l_id l) (f_id fld) s) eqn:Eo.
  - apply IH. intros l' Hl'. apply Hcov. by right.
  - exfalso. apply (Hcov l); [left | done].
Qed.

Lemma field_by_id_Some fid s fld :
  field_by_id fid s = Some fld → f_id fld = fid ∧ fld ∈ fields s.
Proof.
  unfold field_by_id. intros H.
  apply head_filter_Some in H as (l1 & l2 & E & Hf & _).
  split; [done|]. rewrite E. apply elem_of_app. right. left.
Qed.

Lemma bulk_mark_empty_store fid who s :
  (bulk_mark_empty fid who s).2 =
  match field_by_id fid s with
  | Some fld => (bulk_mark_empty_loop fld (default (py "bulk_user") who) s).2
  | None => s
  end.
Proof.
  unfold bulk_mark_empty. destruct (field_by_id fid s); [|done].
  by destruct (bulk_mark_empty_loop _ _ s).
Qed.

(** C6. From any store and for any field id, a run appends observations
    that are all empty ([filled = false]) for that field, each for a
    listing of the store whose pair with the field had no observation
    before the run; when the field exists every listing has an observation
    for it afterwards.  A second run on the resulting store leaves the
    store as it is, and its loop counts zero created observations. *)
Theorem bulk_mark_empty_twice (fid : Z) (who who' : option str) (s : store) :
  let s1 := (bulk_mark_empty fid who s).2 in
  (∃ new,
     observations s1 = observations s ++ new ∧
     Forall (λ o, filled o = false ∧ field_id o = fid ∧
                  (∃ l, l ∈ listings s ∧ listing_id o = l_id l) ∧
                  first_observation (listing_id o) fid s = None) new) ∧
  (∀ fld, field_by_id fid s = Some fld →
     (∀ l, l ∈ listings s → first_observation (l_id l) fid s1 ≠ None) ∧
     bulk_mark_empty_loop fld (default (py "bulk_user") who') s1 = (0, s1)) ∧
  (bulk_mark_empty fid who' s1).2 = s1.
Proof.
  intros s1. pose proof (bulk_mark_empty_store fid who s) as Hs1.
  fold s1 in Hs1. clearbody s1.
  destruct (field_by_id fid s) as [fld|] eqn:Ef.
  - apply field_by_id_Some in Ef as Hfld. destruct Hfld as [Hid Hin].
    unfold bulk_mark_empty_loop in Hs1.
    destruct (bulk_mark_empty_loop_spec fld (default (py "bulk_user") who)
                (listings s) 0 s) as [new Hnew].
    destruct (foldl _ (0, s) (listings s)) as [count s1'].
    simpl in Hs1. subst s1'.
    destruct Hnew as (Hl & Hf & Ho & Hc & Hall & Hcov).
    assert (∀ fld', f_id fld' = fid → ∀ w,
              bulk_mark_empty_loop fld' w s1 = (0, s1)) as Hloop.
    { intros fld' Hid' w. unfold bulk_mark_empty_loop.
      apply bulk_mark_empty_loop_covered. rewrite Hl, Hid', <- Hid. done. }
    split; [|split].
    + exists new. split; [done|].
      eapply Forall_impl; [exact Hall|]. simpl.
      intros o (? & ? & _ & _ & ? & ?). by rewrite <- Hid.
    + intros fld' [= <-]. split; [rewrite <- Hid; exact Hcov | by apply Hloop].
    + rewrite bulk_mark_empty_store.
      destruct (field_by_id fid s1) as [fld'|] eqn:Ef'; [|done].
      apply field_by_id_Some in Ef' as [Hid' _].
      by rewrite (Hloop fld' Hid').
  - subst s1. split; [|split]; [|done|].
    + exists []. rewrite app_nil_r. split; [done | constructor].
    + rewrite bulk_mark_empty_store. by rewrite Ef.
Qed.

(** The tables after a run. *)
Lemma bulk_mark_empty_tables (fid : Z) (who : option str) (s : store) :
  let s1 := (bulk_mark_empty fid who s).2 in
  listings s1 = listings s ∧ fields s1 = fields s ∧
  ∃ new, observations s1 = observations s ++ new.
Proof.
  intros s1. subst s1. rewrite bulk_mark_empty_store.
  destruct (field_by_id fid s) as [fld|] eqn:Ef.
  - unfold bulk_mark_empty_loop.
    destruct (bulk_mark_empty_loop_spec fld (default (py "bulk_user") who)
                (listings s) 0 s) as [new Hnew].
    destruct (foldl _ (0, s) (listings s)) as [count s1].
    destruct Hnew as (Hl & Hf & Ho & _). simpl. eauto.
  - split; [done|]. split; [done|]. exists []. by rewrite app_nil_r.
Qed.

(** C9. A run only appends observations: the listing table and the field
    table are the tables it started from, and the observation table it
    leaves starts with the observation table it found, row for row. *)
Theorem bulk_mark_empty_appends (fid : Z) (who : option str) (s : store) :
  let s1 := (bulk_mark_empty fid who s).2 in
  listings s1 = listings s ∧ fields s1 = fields s ∧
  ∃ new, observations s1 = observations s ++ new.
Proof. apply bulk_mark_empty_tables. Qed.

(** ** Aggregator *)

Lemma sum_list_indicators {A} (p : A → bool) (l : list A) :
  sum_list ((λ r, if p r then 1 else 0) <$> l)
  + sum_list ((λ r, if p r then 0 else 1) <$> l) = length l.
Proof.
  induction l as [|a l IH]; [done|]. csimpl. destruct (p a); simpl; lia.
Qed.

Lemma filter_all {A} (P : A → Prop) `{!∀ x, Decision (P x)} (l : list A) :
  (∀ x, x ∈ l → P x) → filter P l = l.
Proof.
  induction l as [|a l IH]; intros Hall; [done|].
  rewrite filter_cons_True by (apply Hall; left).
  f_equal. apply IH. intros x Hx. apply Hall. by right.
Qed.

Lemma filter_none {A} (P : A → Prop) `{!∀ x, Decision (P x)} (l : list A) :
  (∀ x, x ∈ l → ¬ P x) → filter P l = [].
Proof.
  induction l as [|a l IH]; intros Hall; [done|].
  rewrite filter_cons_False by (apply Hall; left).
  apply IH. intros x Hx. apply Hall. by right.
Qed.

(** Filtering the rows of a join on a property of the outer row filters
    the outer table. *)
Lemma filter_bind {A B} (P : B → Prop) (Q : A → Prop)
    `{!∀ y, Decision (P y), !∀ x, Decision (Q x)} (F : A → list B) l :
  (∀ x y, y ∈ F x → (P y ↔ Q x)) →
  filter P (l ≫= F) = filter Q l ≫= F.
Proof.
  intros HPQ. induction l as [|a l IH]; [done|].
  rewrite bind_cons, filter_app, IH, filter_cons.
  destruct (decide (Q a)) as [Ha|Ha].
  - rewrite bind_cons. f_equal. apply filter_all.
    intros y Hy. by apply (HPQ a y Hy).
  - rewrite filter_none; [done|].
    intros y Hy HP. by apply Ha, (HPQ a y Hy).
Qed.

Lemma bind_filter_nil {A B} (P : A → Prop) `{!∀ x, Decision (P x)}
    (G : A → list B) l :
  (∀ x, ¬ P x → G x = []) → filter P l ≫= G = l ≫= G.
Proof.
  intros Hnil. induction l as [|a l IH]; [done|].
  rewrite filter_cons, bind_cons. destruct (decide (P a)) as [Ha|Ha].
  - by rewrite bind_cons, IH.
  - by rewrite (Hnil a Ha), IH.
Qed.

Lemma length_bind_indicator {A B} (P : A → Prop) `{!∀ x, Decision (P x)}
    (G : A → list B) l :
  (∀ x, length (G x) = if decide (P x) then 1 else 0) →
  length (l ≫= G) = length (filter P l).
Proof.
  intros HG. induction l as [|a l IH]; [done|].
  rewrite bind_cons, length_app, HG, IH, filter_cons.
  by destruct (decide (P a)).
Qed.

Lemma length_bind_singleton {A B} (g : A → B) (l : list A) :
  length (l ≫= λ x, [g x]) = length l.
Proof. induction l as [|a l IH]; [done|]. rewrite bind_cons. simpl. by rewrite IH. Qed.

(** A predicate that pins a unique key selects at most one row. *)
Lemma unique_key_filter {A} (key : A → Z) (P : A → Prop)
    `{!∀ x, Decision (P x)} (l : list A) :
  NoDup (key <$> l) →
  (∀ x y, P x → P y → key x = key y) →
  length (filter P l) = if decide (Exists P l) then 1 else 0.
Proof.
  intros Hnd Hkey. induction l as [|a l IH]; [done|].
  rewrite fmap_cons in Hnd. apply NoDup_cons in Hnd as [Ha Hnd].
  specialize (IH Hnd). rewrite filter_cons.
  destruct (decide (P a)) as [HPa|HPa].
  - rewrite decide_True by (by left). simpl. f_equal.
    rewrite IH. rewrite decide_False; [done|].
    intros Hex. apply Exists_exists in Hex as (x & Hx & HPx).
    apply Ha. rewrite (Hkey a x HPa HPx). by apply list_elem_of_fmap_2.
  - rewrite IH. apply decide_ext. split.
    + intros Hex. by right.
    + intros Hex. by apply Exists_cons in Hex as [?|?].
Qed.

(** Under unique listing keys an observation joins with exactly one
    listing of the batch, or with none. *)
Lemma join_listing_length b s o :
  NoDup (l_id <$> listings s) →
  length (filter (λ l, listing_id o = l_id l ∧ batch l = b) (listings s)) =
  if decide (observation_in_batch b s o) then 1 else 0.
Proof.
  intros Hnd. unfold observation_in_batch.
  apply (unique_key_filter l_id); [done|].
  intros x y [Hx _] [Hy _]. congruence.
Qed.

Lemma summary_join_field b s r : r ∈ summary_join b s → r.1.1 ∈ fields s.
Proof.
  unfold summary_join. intros Hr.
  apply list_elem_of_bind in Hr as (f & Hr & Hf).
  apply list_elem_of_bind in Hr as (o & Hr & Ho).
  apply list_elem_of_bind in Hr as (l & Hr & Hl).
  apply list_elem_of_singleton in Hr as ->. done.
Qed.

(** The joined rows of one group are as many as the observations of the
    group's field whose listing is in the batch. *)
Lemma summary_group_length b s k :
  NoDup (l_id <$> listings s) → NoDup (f_id <$> fields s) →
  k ∈ (λ r, f_id r.1.1) <$> summary_join b s →
  length (filter (λ r, f_id r.1.1 = k) (summary_join b s)) =
  length (filter (λ o, field_id o = k ∧ observation_in_batch b s o)
            (observations s)).
Proof.
  intros Hl Hf Hk.
  apply list_elem_of_fmap in Hk as (r & -> & Hr).
  apply summary_join_field in Hr. set (k := f_id r.1.1).
  unfold summary_join.
  rewrite (filter_bind _ (λ f, f_id f = k)).
  2:{ intros f y Hy.
      apply list_elem_of_bind in Hy as (o & Hy & _).
      apply list_elem_of_bind in Hy as (l & Hy & _).
      by apply list_elem_of_singleton in Hy as ->. }
  assert (length (filter (λ f, f_id f = k) (fields s)) = 1) as Hone.
  { rewrite (unique_key_filter f_id); [|done|congruence].
    apply decide_True, Exists_exists. by exists r.1.1. }
  destruct (filter (λ f, f_id f = k) (fields s)) as [|f [|? ?]] eqn:Ef;
    try done.
  assert (f_id f = k) as Hfk.
  { assert (f ∈ filter (λ f, f_id f = k) (fields s)) as Hin
      by (rewrite Ef; left).
    by apply list_elem_of_filter in Hin as [? _]. }
  rewrite bind_singleton.
  rewrite (length_bind_indicator (observation_in_batch b s)).
  2:{ intros o. rewrite length_bind_singleton. by apply join_listing_length. }
  rewrite list_filter_filter. f_equal. apply list_filter_iff.
  intros o. rewrite Hfk. split; intros [? ?]; split; congruence.
Qed.

Lemma summary_join_restrict b s :
  summary_join b (restrict_to_batch b s) = summary_join b s.
Proof.
  unfold summary_join, restrict_to_batch. simpl.
  apply list_bind_ext; [|done]. intros f.
  assert (filter (λ o, f_id f = field_id o)
            (filter (observation_in_batch b s) (observations s)) =
          filter (observation_in_batch b s)
            (filter (λ o, f_id f = field_id o) (observations s))) as ->.
  { rewrite !list_filter_filter. apply list_filter_iff. intros o. tauto. }
  apply bind_filter_nil. intros o Ho.
  rewrite filter_none; [done|].
  intros l Hl HP. apply Ho. apply Exists_exists. by exists l.
Qed.

Lemma summary_row_counts (b : str) (s : store) (r : summary_row) :
  NoDup (l_id <$> listings s) →
  NoDup (f_id <$> fields s) →
  r ∈ summary_rows b s →
  sr_filled r + sr_empty r = sr_sample r ∧
  sr_sample r =
    length (filter (λ o, field_id o = sr_field_id r ∧
                         observation_in_batch b s o) (observations s)).
Proof.
  intros Hl Hf Hr. unfold summary_rows in Hr.
  rewrite merge_sort_Permutation in Hr.
  apply list_elem_of_fmap in Hr as (k & -> & Hk). simpl. split.
  - apply sum_list_indicators.
  - rewrite elem_of_remove_dups in Hk. by apply summary_group_length.
Qed.

(** C1. In a store whose listing keys and field keys are unique (they are
    primary keys), every row of the summary of a batch has
    [filled + empty = sample], and its sample count is the number of
    observations of the row's field whose listing belongs to the batch.
    Observations whose listing is outside the batch contribute to no row:
    the summary is the summary of the store without them. *)
Theorem batch_summary_counts (b : str) (s : store) (r : summary_row) :
  NoDup (l_id <$> listings s) →
  NoDup (f_id <$> fields s) →
  r ∈ summary_rows b s →
  sr_filled r + sr_empty r = sr_sample r ∧
  sr_sample r =
    length (filter (λ o, field_id o = sr_field_id r ∧
                         observation_in_batch b s o) (observations s)) ∧
  summary_rows b (restrict_to_batch b s) = summary_rows b s.
Proof.
  intros Hl Hf Hr.
  destruct (summary_row_counts b s r Hl Hf Hr) as [Hsum Hcount].
  split; [done|]. split; [done|].
  unfold summary_rows. by rewrite summary_join_restrict.
Qed.


Lemma batch_summary_counts_witness :
  let r := {| sr_field_id := 2; sr_canonical := py "Pool";
              sr_filled := 0; sr_empty := 1; sr_sample := 1 |} in
  r ∈ summary_rows (py "spring") demo_store ∧
  sr_filled r + sr_empty r = sr_sample r ∧
  sr_sample r =
    length (filter (λ o, field_id o = sr_field_id r ∧
                         observation_in_batch (py "spring") demo_store o)
              (observations demo_store)) ∧
  summary_rows (py "spring") (restrict_to_batch (py "spring") demo_store) =
    summary_rows (py "spring") demo_store.
Proof.
  intros r.
  assert (r ∈ summary_rows (py "spring") demo_store) as Hr
    by (vm_compute; right; left).
  split; [exact Hr|].
  apply (batch_summary_counts (py "spring") demo_store r); [| |exact Hr].
  - apply (bool_decide_unpack _). vm_compute. exact I.
  - apply (bool_decide_unpack _). vm_compute. exact I.
Defined.
(** ** Matrix exporter *)

Example col_idx_to_letter_examples :
  col_idx_to_letter <$> [1; 26; 27; 52; 53; 702; 703] =
  py <$> ["A"; "Z"; "AA"; "AZ"; "BA"; "ZZ"; "AAA"]%string.
Proof. reflexivity. Qed.

(** The loop of [col_idx_to_letter] ends within [idx] rounds: more rounds
    give the same letters. *)
Lemma col_idx_to_letter_loop_rounds r1 : ∀ r2 idx letters,
  idx ≤ r1 → idx ≤ r2 →
  col_idx_to_letter_loop r1 idx letters =
  col_idx_to_letter_loop r2 idx letters.
Proof.
  induction r1 as [|r1 IH]; intros r2 idx letters H1 H2.
  - assert (idx = 0) as -> by lia. by destruct r2.
  - destruct r2 as [|r2].
    + by assert (idx = 0) as -> by lia.
    + cbn [col_idx_to_letter_loop]. destruct (Nat.ltb_spec 0 idx); [|done].
      assert ((idx - 1) `div` 26 ≤ idx - 1) as Hdiv
        by (apply Nat.Div0.div_le_upper_bound; lia).
      apply IH; lia.
Qed.

(** Literals are compared by their code points. *)
Ltac literal_chars :=
  repeat match goal with
         | |- context [py ?s] =>
           let v := eval vm_compute in (py s) in change (py s) with v
         end.

Ltac same_text :=
  literal_chars; unfold quoted; cbn [app];
  repeat (progress (rewrite <- ?app_assoc; cbn [app])); reflexivity.

(** The four formulas the exporter writes are the texts the source
    builds. *)
Lemma filled_formula_render fc lc r :
  formula_text (filled_expr fc lc r) =
  filled_formula (list_range (col_idx_to_letter fc) (col_idx_to_letter lc) r).
Proof.
  unfold formula_text, filled_formula, list_range, filled_expr.
  cbn [render]. same_text.
Qed.

Lemma empty_formula_render fc lc r :
  formula_text (empty_expr fc lc r) =
  empty_formula (list_range (col_idx_to_letter fc) (col_idx_to_letter lc) r).
Proof.
  unfold formula_text, empty_formula, list_range, empty_expr.
  cbn [render]. same_text.
Qed.

Lemma pct_formula_render fc ec r :
  formula_text (pct_expr fc ec r) =
  pct_formula (col_idx_to_letter fc) (col_idx_to_letter ec) r.
Proof.
  unfold formula_text, pct_formula, pct_expr.
  cbn [render]. change (decimal 0) with (py "0"). same_text.
Qed.

Lemma remove_formula_render fc ec r :
  formula_text (remove_expr fc ec r) =
  remove_formula (col_idx_to_letter fc) (col_idx_to_letter ec) r.
Proof.
  unfold formula_text, remove_formula, remove_expr.
  cbn [render]. change (decimal 6) with (py "6").
  change (decimal 10) with (py "10"). same_text.
Qed.

(** *** The worksheet after the writes *)

Lemma write_formulas_at n ws i r c :
  write_formulas n ws i r c =
  if decide (r = 2 + i ∧ n + 2 ≤ c ≤ n + 5)
  then write_formulas n blank_worksheet i r c
  else ws r c.
Proof.
  unfold write_formulas, update_acell.
  repeat match goal with
         | |- context [?a =? ?b] => destruct (Nat.eqb_spec a b)
         end; cbn [andb]; case_decide; try done; lia.
Qed.

Lemma write_formulas_foldl n ixs : ∀ ws r c,
  foldl (write_formulas n) ws ixs r c =
  if decide (2 ≤ r ∧ r - 2 ∈ ixs ∧ n + 2 ≤ c ≤ n + 5)
  then write_formulas n blank_worksheet (r - 2) r c
  else ws r c.
Proof.
  induction ixs as [|a ixs IH]; intros ws r c.
  - simpl. rewrite decide_False; [done|]. intros (_ & H & _).
    by apply elem_of_nil in H.
  - cbn [foldl]. rewrite IH, (write_formulas_at n ws a).
    destruct (decide (2 ≤ r ∧ r - 2 ∈ ixs ∧ n + 2 ≤ c ≤ n + 5))
      as [(Hr & Hin & Hc)|H1];
    destruct (decide (2 ≤ r ∧ r - 2 ∈ a :: ixs ∧ n + 2 ≤ c ≤ n + 5))
      as [(Hr' & Hin' & Hc')|H2];
    destruct (decide (r = 2 + a ∧ n + 2 ≤ c ≤ n + 5)) as [[Hra Hc'']|H3];
    try done.
    + exfalso. apply H2. split; [done|]. split; [by right|done].
    + exfalso. apply H2. split; [done|]. split; [by right|done].
    + subst r. by replace (2 + a - 2) with a by lia.
    + exfalso. apply elem_of_cons in Hin' as [Ha|Hin'].
      * apply H3. split; [lia|done].
      * by apply H1.
    + exfalso. apply H2. split; [lia|]. split; [|done].
      subst r. replace (2 + a - 2) with a by lia. left.
Qed.

Lemma Forall2_seq_lookup {A} (P : nat → A → Prop) (l : list A) : ∀ a,
  (∀ j t, l !! j = Some t → P (a + j) t) → Forall2 P (seq a (length l)) l.
Proof.
  induction l as [|x l IH]; intros a HP; [constructor|].
  simpl. constructor.
  - replace a with (a + 0) at 1 by lia. by apply HP.
  - apply IH. intros j t Hj. replace (S a + j) with (a + S j) by lia.
    by apply HP.
Qed.

Lemma eval_countif_unfold d ws col1 row1 col2 row2 criterion :
  eval (S d) ws (ECountIf col1 row1 col2 row2 criterion) =
  (vs ← mapM (λ rc, eval d ws (ECell rc.2 rc.1))
          (r ← seq row1 (S row2 - row1);
           c ← seq col1 (S col2 - col1); [(r, c)]);
   Some (VNum (inject_Z (Z.of_nat (length (filter (shows criterion) vs)))))).
Proof. reflexivity. Qed.

Lemma eval_cell_unfold d ws col row :
  eval (S d) ws (ECell col row) =
  match ws row col with
  | None => Some VBlank
  | Some (Raw t) => Some (VText t)
  | Some (Entered e') => eval d ws e'
  end.
Proof. reflexivity. Qed.

Lemma eval_if_unfold d ws c t e :
  eval (S d) ws (EIf c t e) =
  (x ← eval d ws c;
   match to_bool x with
   | Some true => eval d ws t
   | Some false => eval d ws e
   | None => Some VError
   end).
Proof. reflexivity. Qed.

Lemma eval_and_unfold d ws a b :
  eval (S d) ws (EAnd a b) =
  (x ← eval d ws a; y ← eval d ws b;
   Some match to_bool x, to_bool y with
        | Some x, Some y => VBool (x && y)
        | _, _ => VError
        end).
Proof. reflexivity. Qed.

Lemma eval_ge_unfold d ws a b :
  eval (S d) ws (EGe a b) =
  (x ← eval d ws a; y ← eval d ws b;
   Some (arith (λ x y, VBool (Qle_bool y x)) x y)).
Proof. reflexivity. Qed.

Lemma eval_add_unfold d ws a b :
  eval (S d) ws (EAdd a b) =
  (x ← eval d ws a; y ← eval d ws b;
   Some (arith (λ x y, VNum (x + y)) x y)).
Proof. reflexivity. Qed.

Lemma Qle_bool_inject_Z (a b : Z) :
  Qle_bool (inject_Z a) (inject_Z b) = (a <=? b)%Z.
Proof. unfold Qle_bool. simpl. by rewrite !Z.mul_1_r. Qed.

Lemma Qle_bool_inject_Z_plus (a b c : Z) :
  Qle_bool (inject_Z a) (inject_Z b + inject_Z c) = (a <=? b + c)%Z.
Proof. unfold Qle_bool. simpl. by rewrite !Z.mul_1_r. Qed.

Section export.
Variables (b : str) (s : store).

Let ls := build_listing_order b s.
Let fs := fields_by_canonical s.
Let m := obs_map (observations s).
Let n := length ls.

(** The worksheet the handler leaves. *)
Let ws : worksheet :=
  foldl (write_formulas n)
    (update 2 1 (matrix_row m ls <$> fs)
       (update 1 1 [header_row ls] blank_worksheet))
    (seq 0 (length (matrix_row m ls <$> fs))).

(** The listing columns of a field's row hold the row's glyphs. *)
Lemma worksheet_symbol i fld j t :
  fs !! i = Some fld →
  row_symbols m ls fld !! j = Some t →
  ws (2 + i) (2 + j) = Some (Raw t).
Proof.
  intros Hi Hj. unfold ws. rewrite write_formulas_foldl.
  assert (j < n) as Hlt.
  { apply lookup_lt_Some in Hj. unfold row_symbols in Hj.
    by rewrite length_fmap in Hj. }
  rewrite decide_False by lia.
  unfold update at 1. simpl.
  replace (i - 0) with i by lia.
  rewrite list_lookup_fmap, Hi. simpl. by rewrite Hj.
Qed.

Lemma worksheet_formula i fld c :
  fs !! i = Some fld → n + 2 ≤ c ≤ n + 5 →
  ws (2 + i) c = write_formulas n blank_worksheet i (2 + i) c.
Proof.
  intros Hi Hc. unfold ws. rewrite write_formulas_foldl.
  replace (2 + i - 2) with i by lia.
  rewrite decide_True; [done|]. split; [lia|]. split; [|done].
  apply elem_of_seq. rewrite length_fmap.
  apply lookup_lt_Some in Hi. lia.
Qed.

Lemma eval_symbol_cell i fld j t d :
  fs !! i = Some fld →
  row_symbols m ls fld !! j = Some t →
  eval (S d) ws (ECell (2 + j) (2 + i)) = Some (VText t).
Proof.
  intros Hi Hj. cbn [eval]. by rewrite (worksheet_symbol i fld j t).
Qed.

Lemma count_shows g (symbols : list str) :
  length (filter (shows g) (VText <$> symbols)) = count_symbol g symbols.
Proof.
  unfold count_symbol. induction symbols as [|t symbols IH]; [done|].
  rewrite fmap_cons, !filter_cons. simpl.
  destruct (decide (t = g)) as [->|Hne].
  - rewrite bool_decide_eq_true_2 by done. simpl. by rewrite IH.
  - by rewrite bool_decide_eq_false_2 by done.
Qed.

(** [COUNTIF] over the listing columns of a field's row counts the
    glyphs of the row. *)
Lemma eval_countif i fld g d :
  fs !! i = Some fld →
  eval (S (S d)) ws (ECountIf 2 (2 + i) (1 + n) (2 + i) g) =
  Some (VNum (inject_Z (Z.of_nat (count_symbol g (row_symbols m ls fld))))).
Proof.
  intros Hi. rewrite eval_countif_unfold.
  replace (S (2 + i) - (2 + i)) with 1 by lia.
  replace (S (1 + n) - 2) with n by lia.
  assert (mapM (λ rc, eval (S d) ws (ECell rc.2 rc.1))
            (r ← seq (2 + i) 1; c ← seq 2 n; [(r, c)]) =
          Some (VText <$> row_symbols m ls fld)) as ->.
  { apply mapM_Some. cbn [seq]. rewrite bind_singleton.
    assert (∀ l : list nat,
               (l ≫= λ c, [(2 + i, c)]) = (λ c, (2 + i, c)) <$> l) as ->.
    { intros l. induction l as [|x l IH]; [done|].
      rewrite bind_cons, IH. done. }
    apply Forall2_fmap. 
    replace n with (length (row_symbols m ls fld))
      by (unfold row_symbols; by rewrite length_fmap).
    apply Forall2_seq_lookup. intros j t Hj. simpl.
    by apply (eval_symbol_cell i fld j t). }
  simpl. by rewrite count_shows.
Qed.

Lemma formula_cells i :
  write_formulas n blank_worksheet i (2 + i) (n + 5) =
    Some (Entered (remove_expr (n + 2) (n + 3) (2 + i))) ∧
  write_formulas n blank_worksheet i (2 + i) (n + 3) =
    Some (Entered (empty_expr 2 (1 + n) (2 + i))) ∧
  write_formulas n blank_worksheet i (2 + i) (n + 2) =
    Some (Entered (filled_expr 2 (1 + n) (2 + i))).
Proof.
  unfold write_formulas, update_acell.
  replace (1 + n + 1) with (n + 2) by lia.
  replace (1 + n + 2) with (n + 3) by lia.
  replace (1 + n + 3) with (n + 4) by lia.
  replace (1 + n + 4) with (n + 5) by lia.
  repeat match goal with
         | |- context [?a =? ?b] => destruct (Nat.eqb_spec a b)
         end; cbn [andb]; try lia; done.
Qed.

(** The value of the removal cell of a field's row, from the counts of
    the glyphs of the row. *)
Lemma eval_remove_cell i fld d :
  fs !! i = Some fld →
  eval (8 + d) ws (ECell (n + 5) (2 + i)) =
  Some (VText
    (if (6 <=? count_symbol symbol_empty (row_symbols m ls fld)) &&
        (10 <=? count_symbol symbol_filled (row_symbols m ls fld)
                + count_symbol symbol_empty (row_symbols m ls fld))
     then py "YES" else py "NO")).
Proof.
  intros Hi.
  destruct (formula_cells i) as (Hrem & Hemp & Hfil).
  change (8 + d) with (S (S (S (S (S (S (S (S d)))))))).
  rewrite eval_cell_unfold, (worksheet_formula i fld) by (done || lia).
  rewrite Hrem. unfold remove_expr.
  rewrite eval_if_unfold, eval_and_unfold, !eval_ge_unfold, eval_add_unfold.
  rewrite !eval_cell_unfold.
  rewrite !(worksheet_formula i fld) by (done || lia).
  rewrite Hemp, Hfil. unfold empty_expr, filled_expr.
  rewrite !(eval_countif i fld) by done.
  cbn [eval mbind option_bind arith to_number to_bool].
  rewrite Qle_bool_inject_Z, Qle_bool_inject_Z_plus.
  set (e := count_symbol symbol_empty _).
  set (f := count_symbol symbol_filled _).
  replace (Z.of_nat 6 <=? Z.of_nat e)%Z with (6 <=? e)
    by (destruct (Nat.leb_spec 6 e),
                 (Z.leb_spec (Z.of_nat 6) (Z.of_nat e)); lia).
  replace (Z.of_nat 10 <=? Z.of_nat f + Z.of_nat e)%Z with (10 <=? f + e)
    by (destruct (Nat.leb_spec 10 (f + e)),
                 (Z.leb_spec (Z.of_nat 10) (Z.of_nat f + Z.of_nat e)); lia).
  by destruct (6 <=? e), (10 <=? f + e).
Qed.
End export.

(** The handler's answer and worksheet when the export goes through. *)
Lemma export_google_sheet_symbols_ok sheet_id b s :
  default [] sheet_id ≠ [] →
  build_listing_order (default (py "default") b) s ≠ [] →
  fields_by_canonical s ≠ [] →
  let ls := build_listing_order (default (py "default") b) s in
  let rows := matrix_row (obs_map (observations s)) ls <$>
              fields_by_canonical s in
  ∃ msg,
    export_google_sheet_symbols sheet_id b s =
    (Response 200 (Text msg),
     Some (foldl (write_formulas (length ls))
             (update 2 1 rows (update 1 1 [header_row ls] blank_worksheet))
             (seq 0 (length rows)))).
Proof.
  intros Hid Hls Hfs. cbv zeta. unfold export_google_sheet_symbols.
  destruct sheet_id as [[|c sheet_id]|]; try done.
  remember (build_listing_order (default (py "default") b) s) as ls eqn:Els.
  destruct ls as [|l0 ls']; [done|].
  remember (fields_by_canonical s) as fs eqn:Efs.
  destruct fs as [|f0 fs']; [done|].
  cbv beta iota zeta. eexists. reflexivity.
Qed.

(** C3. When the export goes through (a sheet id is given, the batch has
    listings, and [fld] is the field of row [i] of the matrix), the
    worksheet holds the glyphs of the field's row in the listing columns of
    row [2 + i] and the removal formula in the last summary column; the
    value of that cell is YES exactly when the number of empty glyphs of the
    row is at least 6 and the number of filled and empty glyphs together is
    at least 10, and NO otherwise: YES for 6 empty and 4 filled, NO for 5
    and 5. *)
Theorem remove_candidate_rule (sheet_id b : option str) (s : store)
    (i : nat) (fld : Field) (depth : nat) :
  default [] sheet_id ≠ [] →
  build_listing_order (default (py "default") b) s ≠ [] →
  fields_by_canonical s !! i = Some fld →
  8 ≤ depth →
  let ls := build_listing_order (default (py "default") b) s in
  let symbols := row_symbols (obs_map (observations s)) ls fld in
  let filledCount := count_symbol symbol_filled symbols in
  let emptyCount := count_symbol symbol_empty symbols in
  let remove_cell := ECell (length ls + 5) (2 + i) in
  ∃ msg ws,
    export_google_sheet_symbols sheet_id b s =
      (Response 200 (Text msg), Some ws) ∧
    (∀ j t, symbols !! j = Some t → ws (2 + i) (2 + j) = Some (Raw t)) ∧
    ws (2 + i) (length ls + 5) =
      Some (Entered (remove_expr (length ls + 2) (length ls + 3) (2 + i))) ∧
    eval depth ws remove_cell =
      Some (VText (if (6 <=? emptyCount) && (10 <=? filledCount + emptyCount)
                   then py "YES" else py "NO")) ∧
    (eval depth ws remove_cell = Some (VText (py "YES")) ↔
     6 ≤ emptyCount ∧ 10 ≤ filledCount + emptyCount) ∧
    (emptyCount = 6 → filledCount = 4 →
     eval depth ws remove_cell = Some (VText (py "YES"))) ∧
    (emptyCount = 5 → filledCount = 5 →
     eval depth ws remove_cell = Some (VText (py "NO"))).
Proof.
  intros Hid Hls Hi Hdepth ls symbols filledCount emptyCount remove_cell.
  destruct (export_google_sheet_symbols_ok sheet_id b s Hid Hls) as [msg ->].
  { intros E. by rewrite E in Hi. }
  eexists _, _. split; [reflexivity|]. fold ls.
  assert (eval depth
            (foldl (write_formulas (length ls))
               (update 2 1
                  (matrix_row (obs_map (observations s)) ls <$>
                   fields_by_canonical s)
                  (update 1 1 [header_row ls] blank_worksheet))
               (seq 0 (length (matrix_row (obs_map (observations s)) ls <$>
                               fields_by_canonical s)))) remove_cell =
          Some (VText (if (6 <=? emptyCount) &&
                          (10 <=? filledCount + emptyCount)
                       then py "YES" else py "NO"))) as Heval.
  { replace depth with (8 + (depth - 8)) by lia.
    by apply eval_remove_cell. }
  split; [|split; [|split; [|split; [|split]]]].
  - intros j t Hj. by apply (worksheet_symbol _ s i fld j t).
  - unfold ls. rewrite (worksheet_formula _ s i fld) by (done || lia).
    apply formula_cells.
  - exact Heval.
  - rewrite Heval.
    destruct (Nat.leb_spec 6 emptyCount),
             (Nat.leb_spec 10 (filledCount + emptyCount)); simpl;
      split; try done; try lia.
  - intros He Hf. by rewrite Heval, He, Hf.
  - intros He Hf. by rewrite Heval, He, Hf.
Qed.

Lemma remove_candidate_rule_witness :
  let ls := build_listing_order (py "default") boundary_store in
  ∃ fld,
    fields_by_canonical boundary_store !! 0 = Some fld ∧
    let symbols := row_symbols (obs_map (observations boundary_store)) ls fld in
    let filledCount := count_symbol symbol_filled symbols in
    let emptyCount := count_symbol symbol_empty symbols in
    let remove_cell := ECell (length ls + 5) 2 in
    ∃ msg ws,
      export_google_sheet_symbols (Some (py "sheet")) None boundary_store =
        (Response 200 (Text msg), Some ws) ∧
      (∀ j t, symbols !! j = Some t → ws 2 (2 + j) = Some (Raw t)) ∧
      ws 2 (length ls + 5) =
        Some (Entered (remove_expr (length ls + 2) (length ls + 3) 2)) ∧
      eval 8 ws remove_cell =
        Some (VText (if (6 <=? emptyCount) && (10 <=? filledCount + emptyCount)
                     then py "YES" else py "NO")) ∧
      (eval 8 ws remove_cell = Some (VText (py "YES")) ↔
       6 ≤ emptyCount ∧ 10 ≤ filledCount + emptyCount) ∧
      (emptyCount = 6 → filledCount = 4 →
       eval 8 ws remove_cell = Some (VText (py "YES"))) ∧
      (emptyCount = 5 → filledCount = 5 →
       eval 8 ws remove_cell = Some (VText (py "NO"))).
Proof.
  intros ls. eexists. split; [by vm_compute|].
  apply (remove_candidate_rule (Some (py "sheet")) None boundary_store 0 _ 8).
  - by vm_compute.
  - by vm_compute.
  - by vm_compute.
  - lia.
Defined.

(** The two boundary cases: in the worksheet exported from
    [boundary_store], the row of [A] has 4 filled and 6 empty glyphs and is
    marked YES, the row of [B] has 5 and 5 and is marked NO. *)
Example remove_candidate_boundary :
  let ls := build_listing_order (py "default") boundary_store in
  let m := obs_map (observations boundary_store) in
  match export_google_sheet_symbols (Some (py "sheet")) None boundary_store,
        fields_by_canonical boundary_store with
  | (_, Some ws), [a; b] =>
    canonical a = py "A" ∧ canonical b = py "B" ∧
    count_symbol symbol_filled (row_symbols m ls a) = 4 ∧
    count_symbol symbol_empty (row_symbols m ls a) = 6 ∧
    eval 8 ws (ECell 15 2) = Some (VText (py "YES")) ∧
    count_symbol symbol_filled (row_symbols m ls b) = 5 ∧
    count_symbol symbol_empty (row_symbols m ls b) = 5 ∧
    eval 8 ws (ECell 15 3) = Some (VText (py "NO"))
  | _, _ => False
  end.
Proof. vm_compute. repeat split. Qed.

(** ** The observation of a pair *)

Lemma obs_map_snoc obs o :
  obs_map (obs ++ [o]) = <[(field_id o, listing_id o) := o]> (obs_map obs).
Proof. unfold obs_map. by rewrite foldl_app. Qed.

(** The observation map holds, for a pair, the last observation of the
    pair in the table. *)
Lemma obs_map_lookup obs fid lid :
  obs_map obs !! (fid, lid) =
  last (filter (λ o, listing_id o = lid ∧ field_id o = fid) obs).
Proof.
  induction obs as [|o obs IH] using rev_ind; [done|].
  rewrite obs_map_snoc, filter_app, filter_cons, filter_nil.
  destruct (decide (listing_id o = lid ∧ field_id o = fid)) as [[<- <-]|Hne].
  - by rewrite lookup_insert_eq, last_snoc.
  - rewrite lookup_insert_ne, app_nil_r; [done|].
    intros [= ? ?]. by apply Hne.
Qed.

Lemma last_filter_Some {A} (P : A → Prop) `{!∀ x, Decision (P x)} l x :
  last (filter P l) = Some x →
  ∃ l1 l2, l = l1 ++ x :: l2 ∧ P x ∧ Forall (λ y, ¬ P y) l2.
Proof.
  rewrite <- head_reverse, <- filter_reverse. intros Hhd.
  apply head_filter_Some in Hhd as (l1 & l2 & E & Hx & Hl1).
  exists (reverse l2), (reverse l1). split; [|split; [done|]].
  - rewrite <- (reverse_involutive l), E, reverse_app, reverse_cons.
    by rewrite <- app_assoc.
  - apply Forall_forall. intros y Hy. apply Hl1.
    by rewrite elem_of_reverse in Hy.
Qed.

Lemma obs_map_cell_symbol obs fld l :
  cell_symbol (obs_map obs) fld l =
  match last (filter (λ o, listing_id o = l_id l ∧ field_id o = f_id fld) obs)
  with
  | Some o => symbol_of o
  | None => symbol_unobserved
  end.
Proof. unfold cell_symbol. by rewrite obs_map_lookup. Qed.

(** The lookups of a pair, in general.  For a listing and a field, either
    no observation of the pair exists, and then the field-detail status is
    [unchecked], the bulk run adds an observation and the matrix cell shows
    the unobserved glyph; or the pair has a first observation [o1] and a
    last observation [o2] in query order, and then the field-detail row and
    the existence check of the bulk run use [o1], the first, while the
    matrix cell shows [o2], the last. *)
Lemma pair_lookup_order (s : store) (fld : Field) (l : Listing)
    (who : str) (count : nat) :
  let lid := l_id l in
  let fid := f_id fld in
  let obs := observations s in
  (Forall (λ o, ¬ pair_match lid fid o) obs ∧
   dr_status (field_detail_row fid s l) = st_unchecked ∧
   (bulk_mark_empty_step fld who (count, s) l).1 = S count ∧
   cell_symbol (obs_map obs) fld l = symbol_unobserved)
  ∨
  (∃ o1 o2,
     first_match lid fid obs o1 ∧ last_match lid fid obs o2 ∧
     field_detail_row fid s l =
       {| dr_listing_id_text := listing_id_text l;
          dr_status := if filled o1 then st_filled else st_empty;
          dr_obs_id := Some (o_id o1) |} ∧
     bulk_mark_empty_step fld who (count, s) l = (count, s) ∧
     cell_symbol (obs_map obs) fld l = symbol_of o2).
Proof.
  intros lid fid obs.
  unfold field_detail_row, bulk_mark_empty_step.
  rewrite obs_map_cell_symbol. fold lid fid obs.
  destruct (first_observation lid fid s) as [o1|] eqn:E1.
  - right. unfold first_observation in E1.
    apply head_filter_Some in E1 as Hfirst.
    destruct Hfirst as (pre & post & Eobs & Ho1 & Hpre).
    destruct (last (filter (λ o, listing_id o = lid ∧ field_id o = fid) obs))
      as [o2|] eqn:E2.
    + apply last_filter_Some in E2 as (pre' & post' & Eobs' & Ho2 & Hpost').
      exists o1, o2. split; [|split; [|done]].
      * exists pre, post. split; [done|]. split; [done|].
        by apply Forall_forall.
      * by exists pre', post'.
    + exfalso. apply last_None in E2.
      assert (o1 ∈ filter (λ o, listing_id o = lid ∧ field_id o = fid) obs)
        as Hin.
      { apply list_elem_of_filter. split; [done|]. unfold obs.
        rewrite Eobs. apply elem_of_app. right. left. }
      rewrite E2 in Hin. by apply elem_of_nil in Hin.
  - left. unfold first_observation in E1.
    pose proof (proj1 (head_filter_None _ _) E1) as Hnone.
    split; [by apply Forall_forall|]. split; [done|]. split; [done|].
    rewrite filter_none; [done|]. exact Hnone.
Qed.

(** C7. The matrix does not select the first match.  [duplicate_store]
    is the store after one request whose entries name the field [Pool]
    twice, first as filled and then as empty, so its only listing and its
    only field have two observations.  The page of the field shows the
    listing as filled, with the key of the first observation, and the bulk
    marking finds an observation and adds none: both use the first match.
    The exported sheet shows the cross of the second observation in the cell
    of the pair. *)
Theorem duplicate_pair_lookups_disagree :
  ∃ fld l o1 o2 msg ws,
    fields duplicate_store = [fld] ∧ listings duplicate_store = [l] ∧
    observations duplicate_store = [o1; o2] ∧
    pair_match (l_id l) (f_id fld) o1 ∧ pair_match (l_id l) (f_id fld) o2 ∧
    filled o1 = true ∧ filled o2 = false ∧
    first_match (l_id l) (f_id fld) (observations duplicate_store) o1 ∧
    field_detail (f_id fld) duplicate_store =
      Response 200
        (FieldPage fld
           [{| dr_listing_id_text := listing_id_text l;
               dr_status := st_filled;
               dr_obs_id := Some (o_id o1) |}]) ∧
    bulk_mark_empty (f_id fld) None duplicate_store =
      (Response 302 (RedirectTo (f_id fld)), duplicate_store) ∧
    export_google_sheet_symbols (Some (py "sheet")) None duplicate_store =
      (Response 200 (Text msg), Some ws) ∧
    ws 2 1 = Some (Raw (canonical fld)) ∧
    ws 2 2 = Some (Raw symbol_empty) ∧
    symbol_of o1 = symbol_filled ∧
    symbol_empty ≠ symbol_filled.
Proof.
  destruct (export_google_sheet_symbols_ok (Some (py "sheet")) None
              duplicate_store) as [msg Hexp]; [by vm_compute..|].
  eexists _, _, _, _, msg, _.
  split; [by vm_compute|]. split; [by vm_compute|]. split; [by vm_compute|].
  split; [by vm_compute|]. split; [by vm_compute|]. split; [by vm_compute|].
  split; [by vm_compute|].
  split.
  { eexists [], [_]. split; [by vm_compute|]. split; [by vm_compute|].
    constructor. }
  split; [by vm_compute|]. split; [by vm_compute|].
  split; [exact Hexp|].
  split; [by vm_compute|]. split; [by vm_compute|]. by vm_compute.
Qed.

(** ** CSV: what the reader makes of what the writer wrote *)























(** ** CSV: the exported file read back *)

Lemma fmap_bind {A B C} (g : B → C) (F : A → list B) (l : list A) :
  g <$> (l ≫= F) = l ≫= (λ x, g <$> F x).
Proof.
  induction l as [|x l IH]; [done|]. by rewrite !bind_cons, fmap_app, IH.
Qed.


Lemma triples_join s :
  triples s =
  triple_of <$> export_join s.
Proof.
  unfold triples, export_join. rewrite fmap_bind.
  apply list_bind_ext; [|done]. intros o. rewrite fmap_bind.
  apply list_bind_ext; [|done]. intros l. rewrite fmap_bind.
  by apply list_bind_ext.
Qed.




(** ** Stores: keys, references and triples under the three inserts *)

Lemma NoDup_snoc_next_id (ids : list Z) :
  NoDup ids → NoDup (ids ++ [next_id ids]).
Proof.
  intros Hnd. apply NoDup_app. split; [done|]. split.
  - intros x Hx Hx'. apply list_elem_of_singleton in Hx' as ->.
    by apply next_id_not_elem in Hx.
  - apply NoDup_singleton.
Qed.

Lemma filter_unique_key {A} (key : A → Z) (l : list A) (x : A) :
  NoDup (key <$> l) → x ∈ l → filter (λ y, key x = key y) l = [x].
Proof.
  induction l as [|a l IH]; intros Hnd Hx; [by apply elem_of_nil in Hx|].
  rewrite fmap_cons in Hnd. apply NoDup_cons in Hnd as [Ha Hnd].
  rewrite filter_cons. apply elem_of_cons in Hx as [->|Hx].
  - rewrite decide_True by done. f_equal. apply filter_none.
    intros y Hy Hk. apply Ha. rewrite Hk. by apply list_elem_of_fmap_2.
  - rewrite decide_False.
    + by apply IH.
    + intros Hk. apply Ha. rewrite <- Hk. by apply list_elem_of_fmap_2.
Qed.

Lemma integrity_empty clock : integrity (empty_store clock).
Proof. repeat split; constructor. Qed.

Lemma integrity_add_Listing b t s :
  integrity s → integrity (add_Listing b t s).2.
Proof.
  intros (Hl & Hf & Ho). unfold integrity. simpl.
  rewrite fmap_app. simpl. split; [by apply NoDup_snoc_next_id|].
  split; [done|]. eapply Forall_impl; [exact Ho|]. simpl.
  intros o [? ?]. split; [|done]. apply elem_of_app. by left.
Qed.

Lemma integrity_add_Field c s :
  integrity s → integrity (add_Field c s).2.
Proof.
  intros (Hl & Hf & Ho). unfold integrity. simpl.
  rewrite fmap_app. simpl. split; [done|].
  split; [by apply NoDup_snoc_next_id|].
  eapply Forall_impl; [exact Ho|]. simpl.
  intros o [? ?]. split; [done|]. apply elem_of_app. by left.
Qed.

Lemma integrity_add_Observation lst fld fl raw who s :
  integrity s → lst ∈ listings s → fld ∈ fields s →
  integrity (add_Observation (l_id lst) (f_id fld) fl raw who s).2.
Proof.
  intros (Hl & Hf & Ho) Hlst Hfld. unfold integrity. simpl.
  split; [done|]. split; [done|]. apply Forall_app. split; [done|].
  constructor; [|constructor]. simpl.
  split; by apply list_elem_of_fmap_2.
Qed.

Lemma export_join_add_Listing b t s :
  integrity s → export_join (add_Listing b t s).2 = export_join s.
Proof.
  intros (Hl & Hf & Ho). unfold export_join. simpl.
  apply Forall_bind_ext. eapply Forall_impl; [exact Ho|]. simpl.
  intros o [Hin _]. rewrite filter_app, filter_cons, filter_nil. simpl.
  rewrite decide_False; [by rewrite app_nil_r|].
  intros E. rewrite E in Hin. by apply next_id_not_elem in Hin.
Qed.

Lemma export_join_add_Field c s :
  integrity s → export_join (add_Field c s).2 = export_join s.
Proof.
  intros (Hl & Hf & Ho). unfold export_join. simpl.
  apply Forall_bind_ext. eapply Forall_impl; [exact Ho|]. simpl.
  intros o [_ Hin]. apply list_bind_ext; [|done]. intros l.
  rewrite filter_app, filter_cons, filter_nil. simpl.
  rewrite decide_False; [by rewrite app_nil_r|].
  intros E. rewrite E in Hin. by apply next_id_not_elem in Hin.
Qed.

Lemma export_join_add_Observation lst fld fl raw who s :
  integrity s → lst ∈ listings s → fld ∈ fields s →
  export_join (add_Observation (l_id lst) (f_id fld) fl raw who s).2 =
  export_join s ++
  [((add_Observation (l_id lst) (f_id fld) fl raw who s).1, lst, fld)].
Proof.
  intros (Hl & Hf & Ho) Hlst Hfld. unfold export_join. simpl.
  rewrite bind_app. f_equal. rewrite bind_singleton. simpl.
  rewrite (filter_unique_key l_id) by done. rewrite bind_singleton.
  rewrite (filter_unique_key f_id) by done. by rewrite bind_singleton.
Qed.

(** ** Import: one row and many *)

Lemma listing_by_text_Some t b s lst :
  listing_by_text t b s = Some lst →
  lst ∈ listings s ∧ listing_id_text lst = t ∧ batch lst = b.
Proof.
  unfold listing_by_text. intros H.
  apply head_filter_Some in H as (l1 & l2 & E & [? ?] & _).
  split; [|done]. rewrite E. apply elem_of_app. right. left.
Qed.

Lemma field_by_canonical_Some name s fld :
  field_by_canonical name s = Some fld →
  fld ∈ fields s ∧ canonical fld = name.
Proof.
  unfold field_by_canonical. intros H.
  apply head_filter_Some in H as (l1 & l2 & E & ? & _).
  split; [|done]. rewrite E. apply elem_of_app. right. left.
Qed.




(** ** Trimming *)

Lemma lstrip_with_suffix p t : ∃ w, t = w ++ lstrip_with p t.
Proof.
  induction t as [|c t [w IH]]; [by exists []|]. simpl.
  destruct (p c).
  - exists (c :: w). simpl. by f_equal.
  - by exists [].
Qed.

Lemma lstrip_with_head p t c t' :
  lstrip_with p t = c :: t' → p c = false.
Proof.
  induction t as [|a t IH]; [done|]. simpl.
  destruct (p a) eqn:E; [done|]. by intros [= <- _].
Qed.

Lemma lstrip_with_fixed p t :
  match t with c :: _ => p c = false | [] => True end →
  lstrip_with p t = t.
Proof. destruct t as [|c t]; [done|]. simpl. by intros ->. Qed.

Lemma strip_idemp t : strip (strip t) = strip t.
Proof.
  unfold strip, rstrip, lstrip.
  set (u := lstrip_with isspace t).
  set (v := lstrip_with isspace (reverse u)).
  assert (lstrip_with isspace (reverse v) = reverse v) as ->.
  { destruct (lstrip_with_suffix isspace (reverse u)) as [w Hw].
    fold v in Hw. apply (f_equal reverse) in Hw.
    rewrite reverse_involutive, reverse_app in Hw.
    apply lstrip_with_fixed.
    destruct (reverse v) as [|a rv] eqn:Erv; [done|].
    simpl in Hw. unfold u in Hw. by apply lstrip_with_head in Hw. }
  rewrite reverse_involutive.
  assert (lstrip_with isspace v = v) as ->; [|done].
  apply lstrip_with_fixed. destruct v as [|a v'] eqn:Ev; [done|].
  by apply (lstrip_with_head isspace (reverse u) a v').
Qed.

Lemma strip_trimmed t : strip t ≠ [] → trimmed (strip t).
Proof. intros Hne. split; [apply strip_idemp | done]. Qed.

(** ** The texts of a reachable store are trimmed *)

Lemma texts_trimmed_add_Listing b t s :
  trimmed t → texts_trimmed s → texts_trimmed (add_Listing b t s).2.
Proof.
  intros Ht [Hl Hf]. split; [|done]. simpl.
  apply Forall_app. split; [done|]. constructor; [done|constructor].
Qed.

Lemma texts_trimmed_add_Field c s :
  trimmed c → texts_trimmed s → texts_trimmed (add_Field c s).2.
Proof.
  intros Hc [Hl Hf]. split; [done|]. simpl.
  apply Forall_app. split; [done|]. constructor; [done|constructor].
Qed.

Lemma texts_trimmed_add_Observation lid fid fl raw who s :
  texts_trimmed s → texts_trimmed (add_Observation lid fid fl raw who s).2.
Proof. by intros [Hl Hf]. Qed.

Lemma texts_trimmed_add_listing_entry lst who s e :
  texts_trimmed s → texts_trimmed (add_listing_entry lst who s e).
Proof.
  intros Hs. unfold add_listing_entry.
  destruct (strip (default [] (field_text e))) as [|ch raw] eqn:E; [done|].
  assert (trimmed (ch :: raw)) as Hraw.
  { rewrite <- E. apply strip_trimmed. by rewrite E. }
  destruct (field_by_canonical (ch :: raw) s) as [f|].
  - by apply texts_trimmed_add_Observation.
  - by apply texts_trimmed_add_Observation, texts_trimmed_add_Field.
Qed.

Lemma texts_trimmed_add_listing b data s :
  texts_trimmed s → texts_trimmed (add_listing b data s).2.
Proof.
  intros Hs. unfold add_listing.
  destruct (strip (default [] (req_listing_id data))) as [|ch t] eqn:E;
    [done|].
  assert (trimmed (ch :: t)) as Ht.
  { rewrite <- E. apply strip_trimmed. by rewrite E. }
  cbn [add_Listing snd].
  pose proof (texts_trimmed_add_Listing b (ch :: t) s Ht Hs) as Hs1.
  cbn [add_Listing snd] in Hs1. revert Hs1.
  generalize ({| listings := listings s ++
                   [{| l_id := next_id (l_id <$> listings s); batch := b;
                       listing_id_text := ch :: t;
                       l_created_at := utcnow s (reads s) |}];
                 fields := fields s; observations := observations s;
                 utcnow := utcnow s; reads := S (reads s) |}).
  induction (req_observations data) as [|e es IH]; intros s1 Hs1; [done|].
  simpl. apply IH. by apply texts_trimmed_add_listing_entry.
Qed.

Lemma texts_trimmed_bulk_mark_empty fid who s :
  texts_trimmed s → texts_trimmed (bulk_mark_empty fid who s).2.
Proof.
  intros [Hl Hf].
  destruct (bulk_mark_empty_tables fid who s) as (El & Ef & _).
  split; [by rewrite El | by rewrite Ef].
Qed.

Lemma texts_trimmed_find_or_create_field name s :
  texts_trimmed s → texts_trimmed (find_or_create_field name s).2.
Proof.
  intros Hs. unfold find_or_create_field.
  destruct (strip name) as [|ch t] eqn:E; [done|].
  destruct (field_by_canonical (ch :: t) s); [done|].
  apply texts_trimmed_add_Field; [|done].
  rewrite <- E. apply strip_trimmed. by rewrite E.
Qed.

Lemma texts_trimmed_import_row b who s c row :
  texts_trimmed s → texts_trimmed c →
  match import_row b who s c row with
  | Running s' c' => texts_trimmed s' ∧ texts_trimmed c'
  | Raised _ c' => texts_trimmed c'
  end.
Proof.
  intros Hs Hc. unfold import_row.
  destruct (row_get row (py "listing_id") []) as [lt|]; [|done].
  destruct (row_get row (py "field") []) as [fc|]; [|done].
  destruct (row_get row (py "filled") (py "0")) as [t|]; [|done].
  destruct (py_int t) as [z|]; [|done].
  destruct (decide (strip lt = [])) as [E1|E1];
    [by rewrite bool_decide_eq_true_2|].
  destruct (decide (strip fc = [])) as [E2|E2];
    [by rewrite (bool_decide_eq_true_2 (strip fc = [])), orb_true_r|].
  rewrite !bool_decide_eq_false_2 by done. cbn [orb].
  assert (∃ lst s1 c1,
             match listing_by_text (strip lt) b s with
             | Some lst => (lst, s, c)
             | None =>
               let '(lst, s) := add_Listing b (strip lt) s in (lst, s, s)
             end = (lst, s1, c1) ∧ texts_trimmed s1 ∧ texts_trimmed c1)
    as (lst & s1 & c1 & -> & Hs1 & Hc1).
  { destruct (listing_by_text (strip lt) b s) as [lst|].
    - by exists lst, s, c.
    - eexists _, _, _. split; [reflexivity|].
      split; (apply texts_trimmed_add_Listing;
              [by apply strip_trimmed|done]). }
  cbv beta iota.
  assert (∃ fld s2 c2,
             match field_by_canonical (strip fc) s1 with
             | Some fld => (fld, s1, c1)
             | None => let '(fld, s) := add_Field (strip fc) s1 in (fld, s, s)
             end = (fld, s2, c2) ∧ texts_trimmed s2 ∧ texts_trimmed c2)
    as (fld & s2 & c2 & -> & Hs2 & Hc2).
  { destruct (field_by_canonical (strip fc) s1) as [fld|].
    - by exists fld, s1, c1.
    - eexists _, _, _. split; [reflexivity|].
      split; (apply texts_trimmed_add_Field;
              [by apply strip_trimmed|done]). }
  cbv beta iota. split; [|done]. by apply texts_trimmed_add_Observation.
Qed.

Lemma texts_trimmed_import_rows b who rows : ∀ s c,
  texts_trimmed s → texts_trimmed c →
  match import_rows b who s c rows with
  | Running s' c' => texts_trimmed s' ∧ texts_trimmed c'
  | Raised _ c' => texts_trimmed c'
  end.
Proof.
  induction rows as [|row rows IH]; intros s c Hs Hc; [done|].
  cbn [import_rows].
  pose proof (texts_trimmed_import_row b who s c row Hs Hc) as Hrow.
  destruct (import_row b who s c row) as [s1 c1|e c1]; [|done].
  destruct Hrow as [Hs1 Hc1]. by apply IH.
Qed.

Lemma texts_trimmed_import_obs file b who s :
  texts_trimmed s → texts_trimmed (import_obs file b who s).2.
Proof.
  intros Hs. unfold import_obs. destruct file as [text|]; [|done].
  destruct (DictReader text) as [rows e].
  pose proof (texts_trimmed_import_rows (default (py "default") b)
                (default (py "import_user") who) rows s s Hs Hs) as Hrows.
  destruct (import_rows _ _ s s rows) as [s1 c1|e1 c1]; [|done].
  destruct Hrows as [Hs1 Hc1]. by destruct e.
Qed.

(** Every store the application can be in has trimmed, non-blank listing
    texts and canonical field names. *)
Lemma reachable_texts_trimmed s : reachable s → texts_trimmed s.
Proof.
  induction 1.
  - split; constructor.
  - by apply texts_trimmed_add_listing.
  - by apply texts_trimmed_bulk_mark_empty.
  - by apply texts_trimmed_import_obs.
  - by apply texts_trimmed_find_or_create_field.
Qed.

(** ** CSV: export, then import *)


Lemma reachable_demo_store : reachable demo_store.
Proof.
  unfold demo_store.
  apply reach_bulk_mark_empty, reach_add_listing, reach_add_listing,
    reach_empty.
Qed.


(** The triples of [demo_store], and of the store its exported file is
    imported into. *)
Example export_import_demo :
  triples demo_store =
    [(py "MLS-1001", py "Garage Type", true);
     (py "MLS-1001", py "Pool", false);
     (py "MLS-2002", py "Pool", true);
     (py "MLS-2002", py "Garage Type", false)] ∧
  triples (import_obs (Some (export_text demo_store)) None None
             (empty_store clock0)).2 = triples demo_store.
Proof. by vm_compute. Qed.

(** ** CSV: a filled column that is not an integer *)

Lemma import_row_not_integer b who s c row lt fc t :
  row_get row (py "listing_id") [] = Some lt →
  row_get row (py "field") [] = Some fc →
  row_get row (py "filled") (py "0") = Some t →
  py_int t = None →
  import_row b who s c row = Raised ValueError c.
Proof. intros Hl Hf Ht Hz. unfold import_row. by rewrite Hl, Hf, Ht, Hz. Qed.

(** C10. There are uploads with a row whose filled column is not a decimal
    integer literal ([yes], or nothing) on which the import raises
    [ValueError] out of the handler: the client gets no response built by
    the handler, and only what was committed before the row stays (here the
    listing and the field of the first row, but not its observation).  An
    upload whose rows have a blank listing id or a blank field, and an
    integer in the filled column, is accepted and its rows are skipped. *)
Theorem import_obs_filled_not_integer (s : store) (b who : option str) :
  py_int (py "yes") = None ∧ py_int [] = None ∧
  (∃ committed,
     import_obs (Some csv_filled_yes) b who (empty_store clock0) =
       (Unhandled ValueError, committed) ∧
     listing_id_text <$> listings committed = [py "MLS-1"] ∧
     canonical <$> fields committed = [py "Garage Type"] ∧
     observations committed = []) ∧
  import_obs (Some csv_filled_empty) b who s = (Unhandled ValueError, s) ∧
  import_obs (Some csv_blank_rows) b who s =
    (Response 200 (Text (py "imported")), s).
Proof.
  split; [by vm_compute|]. split; [by vm_compute|]. split; [|split].
  - eexists. split; [by vm_compute|]. by vm_compute.
  - by vm_compute.
  - by vm_compute.
Qed.

(** ** The library functions of the model on sample inputs

    The values below are the ones CPython 3.11 gives for the same
    inputs. *)

Example strip_examples :
  strip (FS ++ py " a " ++ [133; 160; 32]%N) = py "a" ∧
  strip ([0%N] ++ py " a" ++ [0%N]) = [0%N] ++ py " a" ++ [0%N] ∧
  strip (py "  ") = [].
Proof. by vm_compute. Qed.

Example py_int_examples :
  py_int <$>
    [py "1"; FS ++ py "1"; py " 1 "; py "1_0"; py "+1"; py "-0"; [1633%N];
     py "yes"; []; py "0x1"; py "1" ++ [8195%N]; [133%N] ++ py "1";
     py "1.0"; py "__1"; py "1_"; py "00"; py "1__0"; py "1" ++ [0%N];
     py "1" ++ [233%N]; [1633; 1634]%N; [1635; 28]%N; py "-12"; py "- 1"]
  = [Some 1; None; Some 1; Some 10; Some 1; Some 0; Some 1;
     None; None; None; Some 1; Some 1;
     None; None; None; Some 0; None; None;
     None; Some 12; None; Some (-12); None]%Z.
Proof. by vm_compute. Qed.

Example writerow_examples :
  writerow [py "a b"; py " lead"; py "x,y"; py "q" ++ DQ ++ py "r";
            py "l" ++ LF ++ py "m"; py "c" ++ CR ++ py "d"; []; py "e"] =
    py "a b, lead," ++ DQ ++ py "x,y" ++ DQ ++ py "," ++
    DQ ++ py "q" ++ DQ ++ DQ ++ py "r" ++ DQ ++ py "," ++
    DQ ++ py "l" ++ LF ++ py "m" ++ DQ ++ py "," ++
    DQ ++ py "c" ++ CR ++ py "d" ++ DQ ++ py ",,e" ++ crlf ∧
  writerow [[]] = DQ ++ DQ ++ crlf ∧
  writerow [] = crlf ∧
  writerow [[]; []] = py "," ++ crlf.
Proof. by vm_compute. Qed.

Example csv_reader_examples :
  csv_reader (DQ ++ py "a" ++ DQ ++ py "b,c" ++ DQ ++ py "d" ++ DQ ++ LF ++
              LF ++ py "," ++ LF ++ DQ ++ py "x" ++ DQ ++ py " " ++ LF) =
    ([[py "ab"; py "c" ++ DQ ++ py "d" ++ DQ]; []; [[]; []]; [py "x "]],
     None) ∧
  csv_reader (py "a," ++ DQ ++ py "b" ++ crlf ++ py "c") =
    ([[py "a"; py "b" ++ crlf ++ py "c"]], None) ∧
  csv_reader (py "a" ++ crlf ++ CR ++ py "b") =
    ([[py "a"]], Some CsvError) ∧
  csv_reader (py "a" ++ CR ++ py "b" ++ LF) = ([], Some CsvError) ∧
  csv_reader (py "a,b" ++ LF ++ DQ ++ py "c" ++ LF ++ py "d" ++ DQ) =
    ([[py "a"; py "b"]; [py "c" ++ LF ++ py "d"]], None) ∧
  csv_reader (py "a," ++ DQ) = ([[py "a"; []]], None) ∧
  csv_reader (py "x" ++ LF ++ CR) = ([[py "x"]; []], None) ∧
  csv_reader [] = ([], None).
Proof. by vm_compute. Qed.

Example isoformat_examples :
  isoformat {| year := 5; month := 1; day := 2; hour := 3; minute := 4;
               second := 5; microsecond := 0 |} = py "0005-01-02T03:04:05" ∧
  isoformat {| year := 2024; month := 11; day := 2; hour := 3; minute := 4;
               second := 5; microsecond := 60 |} =
    py "2024-11-02T03:04:05.000060".
Proof. by vm_compute. Qed.

(** ** The keys and references of a reachable store *)

Lemma integrity_add_listing_entry lst who s e :
  integrity s → lst ∈ listings s →
  integrity (add_listing_entry lst who s e) ∧
  lst ∈ listings (add_listing_entry lst who s e).
Proof.
  intros Hs Hlst. unfold add_listing_entry.
  destruct (strip (default [] (field_text e))) as [|ch raw]; [done|].
  destruct (field_by_canonical (ch :: raw) s) as [f|] eqn:Ef.
  - apply field_by_canonical_Some in Ef as [Hf _].
    split; [by apply integrity_add_Observation|done].
  - split; [|done].
    apply (integrity_add_Observation lst (add_Field (ch :: raw) s).1);
      [by apply integrity_add_Field|done|].
    simpl. apply elem_of_app. right. left.
Qed.

Lemma integrity_add_listing b data s :
  integrity s → integrity (add_listing b data s).2.
Proof.
  intros Hs. unfold add_listing.
  destruct (strip (default [] (req_listing_id data))) as [|ch t]; [done|].
  pose proof (integrity_add_Listing b (ch :: t) s Hs) as Hs1.
  assert ((add_Listing b (ch :: t) s).1 ∈
          listings (add_Listing b (ch :: t) s).2) as Hin.
  { simpl. apply elem_of_app. right. left. }
  cbn [add_Listing fst snd] in *. revert Hs1 Hin.
  generalize ({| listings := listings s ++
                   [{| l_id := next_id (l_id <$> listings s); batch := b;
                       listing_id_text := ch :: t;
                       l_created_at := utcnow s (reads s) |}];
                 fields := fields s; observations := observations s;
                 utcnow := utcnow s; reads := S (reads s) |}).
  induction (req_observations data) as [|e es IH]; intros s1 Hs1 Hin; [done|].
  simpl.
  destruct (integrity_add_listing_entry _
              (default (py "unknown") (req_analyst data)) s1 e Hs1 Hin)
    as [Hs2 Hin2].
  by apply IH.
Qed.

Lemma integrity_bulk_mark_empty_loop fld who ls : ∀ count s,
  integrity s → fld ∈ fields s → (∀ l, l ∈ ls → l ∈ listings s) →
  integrity (foldl (bulk_mark_empty_step fld who) (count, s) ls).2.
Proof.
  induction ls as [|l ls IH]; intros count s Hs Hfld Hls; [done|].
  simpl. destruct (first_observation (l_id l) (f_id fld) s).
  - apply IH; [done|done|]. intros l' Hl'. apply Hls. by right.
  - apply IH.
    + apply integrity_add_Observation; [done| |done]. apply Hls. left.
    + done.
    + intros l' Hl'. simpl. apply Hls. by right.
Qed.

Lemma integrity_bulk_mark_empty fid who s :
  integrity s → integrity (bulk_mark_empty fid who s).2.
Proof.
  intros Hs. rewrite bulk_mark_empty_store.
  destruct (field_by_id fid s) as [fld|] eqn:Ef; [|done].
  apply field_by_id_Some in Ef as [_ Hfld].
  by apply integrity_bulk_mark_empty_loop.
Qed.

Lemma integrity_find_or_create_field name s :
  integrity s → integrity (find_or_create_field name s).2.
Proof.
  intros Hs. unfold find_or_create_field.
  destruct (strip name) as [|ch t]; [done|].
  destruct (field_by_canonical (ch :: t) s); [done|].
  by apply integrity_add_Field.
Qed.

Lemma integrity_import_row b who s c row :
  integrity s → integrity c →
  match import_row b who s c row with
  | Running s' c' => integrity s' ∧ integrity c'
  | Raised _ c' => integrity c'
  end.
Proof.
  intros Hs Hc. unfold import_row.
  destruct (row_get row (py "listing_id") []) as [lt|]; [|done].
  destruct (row_get row (py "field") []) as [fc|]; [|done].
  destruct (row_get row (py "filled") (py "0")) as [t|]; [|done].
  destruct (py_int t) as [z|]; [|done].
  destruct (bool_decide (strip lt = []) || bool_decide (strip fc = []));
    [done|].
  assert (∃ lst s1 c1,
             match listing_by_text (strip lt) b s with
             | Some lst => (lst, s, c)
             | None =>
               let '(lst, s) := add_Listing b (strip lt) s in (lst, s, s)
             end = (lst, s1, c1) ∧
             integrity s1 ∧ integrity c1 ∧ lst ∈ listings s1)
    as (lst & s1 & c1 & -> & Hs1 & Hc1 & Hin).
  { destruct (listing_by_text (strip lt) b s) as [lst|] eqn:El.
    - apply listing_by_text_Some in El as [Hin _]. by exists lst, s, c.
    - eexists _, _, _. split; [reflexivity|].
      split; [by apply integrity_add_Listing|].
      split; [by apply integrity_add_Listing|].
      simpl. apply elem_of_app. right. left. }
  cbv beta iota.
  assert (∃ fld s2 c2,
             match field_by_canonical (strip fc) s1 with
             | Some fld => (fld, s1, c1)
             | None => let '(fld, s) := add_Field (strip fc) s1 in (fld, s, s)
             end = (fld, s2, c2) ∧
             integrity s2 ∧ integrity c2 ∧ listings s2 = listings s1 ∧
             fld ∈ fields s2)
    as (fld & s2 & c2 & -> & Hs2 & Hc2 & Hls & Hinf).
  { destruct (field_by_canonical (strip fc) s1) as [fld|] eqn:Efld.
    - apply field_by_canonical_Some in Efld as [Hinf _].
      by exists fld, s1, c1.
    - eexists _, _, _. split; [reflexivity|].
      split; [by apply integrity_add_Field|].
      split; [by apply integrity_add_Field|].
      split; [done|]. simpl. apply elem_of_app. right. left. }
  cbv beta iota. split; [|done].
  apply integrity_add_Observation; [done| |done]. by rewrite Hls.
Qed.

Lemma integrity_import_rows b who rows : ∀ s c,
  integrity s → integrity c →
  match import_rows b who s c rows with
  | Running s' c' => integrity s' ∧ integrity c'
  | Raised _ c' => integrity c'
  end.
Proof.
  induction rows as [|row rows IH]; intros s c Hs Hc; [done|].
  cbn [import_rows].
  pose proof (integrity_import_row b who s c row Hs Hc) as Hrow.
  destruct (import_row b who s c row) as [s1 c1|e c1]; [|done].
  destruct Hrow as [Hs1 Hc1]. by apply IH.
Qed.

Lemma integrity_import_obs file b who s :
  integrity s → integrity (import_obs file b who s).2.
Proof.
  intros Hs. unfold import_obs. destruct file as [text|]; [|done].
  destruct (DictReader text) as [rows e].
  pose proof (integrity_import_rows (default (py "default") b)
                (default (py "import_user") who) rows s s Hs Hs) as Hrows.
  destruct (import_rows _ _ s s rows) as [s1 c1|e1 c1]; [|done].
  destruct Hrows as [Hs1 Hc1]. by destruct e.
Qed.

(** In every store the application can be in, listing keys and field keys
    are unique and every observation refers to a listing and a field of the
    store. *)
Lemma reachable_integrity s : reachable s → integrity s.
Proof.
  induction 1.
  - apply integrity_empty.
  - by apply integrity_add_listing.
  - by apply integrity_bulk_mark_empty.
  - by apply integrity_import_obs.
  - by apply integrity_find_or_create_field.
Qed.

(** The summary of a batch, in any store the application can be in: the
    counts of every row add up and the sample count is the number of
    observations of the row's field in the batch. *)
Corollary summary_row_counts_reachable (b : str) (s : store)
    (r : summary_row) :
  reachable s → r ∈ summary_rows b s →
  sr_filled r + sr_empty r = sr_sample r ∧
  sr_sample r =
    length (filter (λ o, field_id o = sr_field_id r ∧
                         observation_in_batch b s o) (observations s)).
Proof.
  intros Hreach Hr. apply reachable_integrity in Hreach as (Hl & Hf & _).
  by apply summary_row_counts.
Qed.

(** ** The writes of the handlers *)

Lemma write_Observation_text lst fld fl raw who s :
  lst ∈ listings s → fld ∈ fields s → raw = canonical fld →
  write s (add_Observation (l_id lst) (f_id fld) fl raw who s).2.
Proof. intros Hl Hf ->. by constructor. Qed.

Lemma write_listings s s' :
  rtc write s s' → ∀ l, l ∈ listings s → l ∈ listings s'.
Proof.
  induction 1 as [|s s1 s' Hw _ IH]; [done|]. intros l Hl. apply IH.
  destruct Hw; simpl; [|done..]. apply elem_of_app. by left.
Qed.

Lemma write_add_listing_entry lst who s e :
  lst ∈ listings s → rtc write s (add_listing_entry lst who s e).
Proof.
  intros Hlst. unfold add_listing_entry.
  destruct (strip (default [] (field_text e))) as [|ch raw] eqn:Eraw;
    [done|].
  destruct (field_by_canonical (ch :: raw) s) as [f|] eqn:Ef.
  - apply field_by_canonical_Some in Ef as [Hf Hc].
    apply rtc_once. by apply write_Observation_text.
  - eapply rtc_l.
    + apply (write_Field (ch :: raw)); [|done].
      rewrite <- Eraw. apply strip_trimmed. by rewrite Eraw.
    + apply rtc_once. apply write_Observation_text; [done| |done].
      simpl. apply elem_of_app. right. left.
Qed.

Lemma write_add_listing b data s : rtc write s (add_listing b data s).2.
Proof.
  unfold add_listing.
  destruct (strip (default [] (req_listing_id data))) as [|ch t] eqn:Et;
    [done|].
  eapply rtc_l.
  { apply (write_Listing b (ch :: t)). rewrite <- Et. apply strip_trimmed.
    by rewrite Et. }
  assert ((add_Listing b (ch :: t) s).1 ∈
          listings (add_Listing b (ch :: t) s).2) as Hin.
  { simpl. apply elem_of_app. right. left. }
  cbn [add_Listing fst snd] in *. revert Hin.
  generalize ({| listings := listings s ++
                   [{| l_id := next_id (l_id <$> listings s); batch := b;
                       listing_id_text := ch :: t;
                       l_created_at := utcnow s (reads s) |}];
                 fields := fields s; observations := observations s;
                 utcnow := utcnow s; reads := S (reads s) |}).
  induction (req_observations data) as [|e es IH]; intros s1 Hin; [done|].
  simpl.
  pose proof (write_add_listing_entry _
                (default (py "unknown") (req_analyst data)) s1 e Hin) as Hw.
  etrans; [exact Hw|]. apply IH. by eapply write_listings.
Qed.

Lemma write_bulk_mark_empty_loop fld who ls : ∀ count s,
  fld ∈ fields s → (∀ l, l ∈ ls → l ∈ listings s) →
  rtc write s (foldl (bulk_mark_empty_step fld who) (count, s) ls).2.
Proof.
  induction ls as [|l ls IH]; intros count s Hfld Hls; [done|].
  simpl. destruct (first_observation (l_id l) (f_id fld) s).
  - apply IH; [done|]. intros l' Hl'. apply Hls. by right.
  - eapply rtc_l.
    + apply (write_Observation l fld false who); [|done]. apply Hls. left.
    + apply IH; [done|]. intros l' Hl'. simpl. apply Hls. by right.
Qed.

Lemma write_bulk_mark_empty fid who s :
  rtc write s (bulk_mark_empty fid who s).2.
Proof.
  rewrite bulk_mark_empty_store.
  destruct (field_by_id fid s) as [fld|] eqn:Ef; [|done].
  apply field_by_id_Some in Ef as [_ Hfld].
  by apply write_bulk_mark_empty_loop.
Qed.

Lemma write_find_or_create_field name s :
  rtc write s (find_or_create_field name s).2.
Proof.
  unfold find_or_create_field.
  destruct (strip name) as [|ch t] eqn:Et; [done|].
  destruct (field_by_canonical (ch :: t) s) eqn:Ef; [done|].
  apply rtc_once. apply (write_Field (ch :: t)); [|done].
  rewrite <- Et. apply strip_trimmed. by rewrite Et.
Qed.

Lemma write_import_row b who s0 s c row :
  rtc write s0 s → rtc write s0 c →
  match import_row b who s c row with
  | Running s' c' => rtc write s s' ∧ rtc write s0 c'
  | Raised _ c' => c' = c
  end.
Proof.
  intros Hs Hc. unfold import_row.
  destruct (row_get row (py "listing_id") []) as [lt|]; [|done].
  destruct (row_get row (py "field") []) as [fc|]; [|done].
  destruct (row_get row (py "filled") (py "0")) as [t|]; [|done].
  destruct (py_int t) as [z|]; [|done].
  destruct (bool_decide (strip lt = [])) eqn:Elt; [done|].
  destruct (bool_decide (strip fc = [])) eqn:Efc; [done|].
  apply bool_decide_eq_false in Elt, Efc. cbn [orb].
  assert (∃ lst s1 c1,
             match listing_by_text (strip lt) b s with
             | Some lst => (lst, s, c)
             | None =>
               let '(lst, s) := add_Listing b (strip lt) s in (lst, s, s)
             end = (lst, s1, c1) ∧
             rtc write s s1 ∧ rtc write s0 c1 ∧ lst ∈ listings s1)
    as (lst & s1 & c1 & -> & Hs1 & Hc1 & Hin).
  { destruct (listing_by_text (strip lt) b s) as [lst|] eqn:El.
    - apply listing_by_text_Some in El as [Hin _]. by exists lst, s, c.
    - assert (write s (add_Listing b (strip lt) s).2) as Hw.
      { constructor. by apply strip_trimmed. }
      eexists _, _, _. split; [reflexivity|].
      split; [by apply rtc_once|].
      split; [eapply rtc_r; [exact Hs|exact Hw]|].
      simpl. apply elem_of_app. right. left. }
  cbv beta iota.
  assert (∃ fld s2 c2,
             match field_by_canonical (strip fc) s1 with
             | Some fld => (fld, s1, c1)
             | None => let '(fld, s) := add_Field (strip fc) s1 in (fld, s, s)
             end = (fld, s2, c2) ∧
             rtc write s1 s2 ∧ rtc write s0 c2 ∧ listings s2 = listings s1 ∧
             fld ∈ fields s2 ∧ canonical fld = strip fc)
    as (fld & s2 & c2 & -> & Hs2 & Hc2 & Hls & Hinf & Hcan).
  { destruct (field_by_canonical (strip fc) s1) as [fld|] eqn:Efld.
    - apply field_by_canonical_Some in Efld as [Hinf Hcan].
      by exists fld, s1, c1.
    - assert (write s1 (add_Field (strip fc) s1).2) as Hw.
      { constructor; [by apply strip_trimmed|done]. }
      eexists _, _, _. split; [reflexivity|].
      split; [by apply rtc_once|].
      split; [eapply rtc_r; [|exact Hw]; etrans; [exact Hs|exact Hs1]|].
      split; [done|]. split; [|done]. simpl. apply elem_of_app. right. left. }
  cbv beta iota. split; [|done].
  etrans; [exact Hs1|]. etrans; [exact Hs2|]. apply rtc_once.
  apply write_Observation_text; [by rewrite Hls|done|done].
Qed.

Lemma write_import_rows b who s0 rows : ∀ s c,
  rtc write s0 s → rtc write s0 c →
  match import_rows b who s c rows with
  | Running s' c' => rtc write s0 s' ∧ rtc write s0 c'
  | Raised _ c' => rtc write s0 c'
  end.
Proof.
  induction rows as [|row rows IH]; intros s c Hs Hc; [done|].
  cbn [import_rows].
  pose proof (write_import_row b who s0 s c row Hs Hc) as Hrow.
  destruct (import_row b who s c row) as [s1 c1|e c1]; [|by subst].
  destruct Hrow as [Hs1 Hc1]. apply IH; [etrans; [exact Hs|exact Hs1]|done].
Qed.

Lemma write_import_obs file b who s :
  rtc write s (import_obs file b who s).2.
Proof.
  unfold import_obs. destruct file as [text|]; [|done].
  destruct (DictReader text) as [rows e].
  pose proof (write_import_rows (default (py "default") b)
                (default (py "import_user") who) s rows s s
                (rtc_refl _ _) (rtc_refl _ _)) as Hrows.
  destruct (import_rows _ _ s s rows) as [s1 c1|e1 c1]; [|done].
  destruct Hrows as [Hs1 Hc1]. by destruct e.
Qed.

(** Every store the application can be in is the empty store followed by
    writes. *)
Lemma reachable_writes s :
  reachable s → ∃ clock, rtc write (empty_store clock) s.
Proof.
  induction 1 as [clock|s b data _ [clock IH]|s fid who _ [clock IH]
                 |s file b who _ [clock IH]|s name _ [clock IH]].
  - by exists clock.
  - exists clock. etrans; [exact IH|]. apply write_add_listing.
  - exists clock. etrans; [exact IH|]. apply write_bulk_mark_empty.
  - exists clock. etrans; [exact IH|]. apply write_import_obs.
  - exists clock. etrans; [exact IH|]. apply write_find_or_create_field.
Qed.

(** ** What every write keeps *)

Lemma extends_refl s : extends s s.
Proof. by repeat split. Qed.

Lemma extends_trans s1 s2 s3 : extends s1 s2 → extends s2 s3 → extends s1 s3.
Proof.
  intros (Hl & Hf & Ho) (Hl' & Hf' & Ho').
  repeat split; by etrans.
Qed.

Lemma write_extends s s' : rtc write s s' → extends s s'.
Proof.
  induction 1 as [|s s1 s' Hw _ IH]; [apply extends_refl|].
  eapply extends_trans; [|exact IH].
  destruct Hw; repeat split; simpl; try done; by apply prefix_app_r.
Qed.

Lemma write_integrity s s' : rtc write s s' → integrity s → integrity s'.
Proof.
  induction 1 as [|s s1 s' Hw _ IH]; [done|]. intros Hs. apply IH.
  destruct Hw.
  - by apply integrity_add_Listing.
  - by apply integrity_add_Field.
  - by apply integrity_add_Observation.
Qed.

Lemma field_by_id_unique s f :
  NoDup (f_id <$> fields s) → f ∈ fields s → field_by_id (f_id f) s = Some f.
Proof.
  intros Hnd Hf. unfold field_by_id.
  rewrite (list_filter_iff _ (λ y, f_id f = f_id y)) by done.
  by rewrite (filter_unique_key f_id).
Qed.

Lemma names_field_add_Field c s o :
  names_field s o → names_field (add_Field c s).2 o.
Proof.
  intros (f & Hf & Hc). exists f. split; [|done].
  unfold field_by_id in *. simpl. rewrite head_filter_app. by rewrite Hf.
Qed.

Lemma write_names s s' :
  rtc write s s' → integrity s →
  NoDup (canonical <$> fields s) → Forall (names_field s) (observations s) →
  NoDup (canonical <$> fields s') ∧ Forall (names_field s') (observations s').
Proof.
  induction 1 as [|s s1 s' Hw Hrtc IH]; [done|]. intros Hs Hnd Hobs.
  assert (integrity s1) as Hs1 by (apply (write_integrity s); [by apply rtc_once|done]).
  apply IH; [done|..]; destruct Hw as [b t s|c s Ht Hnone|lst fld fl who s Hl Hf];
    simpl; try done.
  - rewrite fmap_app. simpl. apply NoDup_app. split; [done|].
    split; [|apply NoDup_singleton].
    intros x Hx ->%list_elem_of_singleton.
    apply list_elem_of_fmap in Hx as (f & Hc & Hin).
    unfold field_by_canonical in Hnone. rewrite head_filter_None in Hnone.
    by apply (Hnone f).
  - eapply Forall_impl; [exact Hobs|]. intros o. apply names_field_add_Field.
  - apply Forall_app. split; [done|]. apply Forall_singleton.
    exists fld. split; [|done]. simpl.
    destruct Hs as (_ & Hndf & _). by apply (field_by_id_unique s).
Qed.

Lemma reachable_names s :
  reachable s →
  NoDup (canonical <$> fields s) ∧ Forall (names_field s) (observations s).
Proof.
  intros [clock Hw]%reachable_writes.
  apply (write_names _ _ Hw); [apply integrity_empty|constructor|constructor].
Qed.

(** X1. In every store the application can be in, the keys of the listings
    and of the fields are unique, and every observation refers to a listing
    and to a field of the store. *)
Theorem reachable_keys_and_references (s : store) :
  reachable s →
  NoDup (l_id <$> listings s) ∧ NoDup (f_id <$> fields s) ∧
  Forall (λ o, (∃ l, l ∈ listings s ∧ l_id l = listing_id o) ∧
               (∃ f, f ∈ fields s ∧ f_id f = field_id o)) (observations s).
Proof.
  intros (Hl & Hf & Ho)%reachable_integrity. split; [done|]. split; [done|].
  eapply Forall_impl; [exact Ho|]. intros o [Hlo Hfo].
  apply list_elem_of_fmap in Hlo as (l & ? & ?).
  apply list_elem_of_fmap in Hfo as (f & ? & ?). split; eauto.
Qed.

Lemma reachable_keys_and_references_witness :
  reachable demo_store ∧
  NoDup (l_id <$> listings demo_store) ∧
  NoDup (f_id <$> fields demo_store) ∧
  Forall (λ o, (∃ l, l ∈ listings demo_store ∧ l_id l = listing_id o) ∧
               (∃ f, f ∈ fields demo_store ∧ f_id f = field_id o))
    (observations demo_store).
Proof.
  split; [apply reachable_demo_store|].
  apply (reachable_keys_and_references demo_store), reachable_demo_store.
Defined.

(** X2. In every store the application can be in, the text of every
    listing and the canonical name of every field are not empty and have no
    white space at either end. *)
Theorem reachable_texts_stripped (s : store) :
  reachable s →
  Forall (λ l, strip (listing_id_text l) = listing_id_text l ∧
               listing_id_text l ≠ []) (listings s) ∧
  Forall (λ f, strip (canonical f) = canonical f ∧ canonical f ≠ [])
    (fields s).
Proof. intros Hs. by apply reachable_texts_trimmed. Qed.

Lemma reachable_texts_stripped_witness :
  reachable demo_store ∧
  Forall (λ l, strip (listing_id_text l) = listing_id_text l ∧
               listing_id_text l ≠ []) (listings demo_store) ∧
  Forall (λ f, strip (canonical f) = canonical f ∧ canonical f ≠ [])
    (fields demo_store).
Proof.
  split; [apply reachable_demo_store|].
  apply (reachable_texts_stripped demo_store), reachable_demo_store.
Defined.

(** X3. The handlers never store two fields with the same canonical name:
    in every store the application can be in, the canonical names are
    pairwise distinct (the column is declared unique). *)
Theorem reachable_canonical_unique (s : store) :
  reachable s → NoDup (canonical <$> fields s).
Proof. intros Hs. by apply reachable_names. Qed.

Lemma reachable_canonical_unique_witness :
  reachable demo_store ∧ NoDup (canonical <$> fields demo_store).
Proof.
  split; [apply reachable_demo_store|].
  apply (reachable_canonical_unique demo_store), reachable_demo_store.
Defined.

(** X4. In every store the application can be in, the text recorded with
    an observation is the canonical name of the field the observation
    refers to. *)
Theorem reachable_raw_text_canonical (s : store) (o : Observation) :
  reachable s → o ∈ observations s →
  ∃ f, field_by_id (field_id o) s = Some f ∧ canonical f = raw_text o.
Proof.
  intros [_ Hobs]%reachable_names Ho.
  rewrite Forall_forall in Hobs. by apply Hobs.
Qed.

Lemma reachable_raw_text_canonical_witness :
  reachable demo_store ∧
  ∃ o, head (observations demo_store) = Some o ∧
       ∃ f, field_by_id (field_id o) demo_store = Some f ∧
            canonical f = raw_text o.
Proof.
  split; [apply reachable_demo_store|].
  eexists. split; [reflexivity|].
  apply (reachable_raw_text_canonical demo_store);
    [apply reachable_demo_store|]. vm_compute. left.
Defined.

(** X5. No handler deletes or changes a row: after each of the handlers
    that write, every table starts with the rows it had before. *)
Theorem handlers_append_only (s : store) :
  (∀ b data, extends s (add_listing b data s).2) ∧
  (∀ fid who, extends s (bulk_mark_empty fid who s).2) ∧
  (∀ file b who, extends s (import_obs file b who s).2) ∧
  (∀ name, extends s (find_or_create_field name s).2).
Proof.
  split; [|split; [|split]]; intros; apply write_extends.
  - apply write_add_listing.
  - apply write_bulk_mark_empty.
  - apply write_import_obs.
  - apply write_find_or_create_field.
Qed.

(** ** The observations a request adds *)

Lemma add_listing_entry_observation lst who s e :
  ∃ new,
    observations (add_listing_entry lst who s e) = observations s ++ new ∧
    (λ o, (listing_id o, raw_text o, filled o, analyst o)) <$> new =
    if decide (blank_entry e) then []
    else [(l_id lst, strip (default [] (field_text e)),
           truthy (default (JBool false) (entry_filled e)), who)].
Proof.
  unfold add_listing_entry. destruct (decide (blank_entry e)) as [Hb|Hb].
  - unfold blank_entry in Hb. rewrite Hb. exists []. by rewrite app_nil_r.
  - unfold blank_entry in Hb.
    destruct (strip (default [] (field_text e))) as [|ch raw]; [done|].
    destruct (field_by_canonical (ch :: raw) s); simpl;
      (eexists [_]; split; [reflexivity|done]).
Qed.

Lemma add_listing_loop_observations lst who entries : ∀ s,
  ∃ new,
    observations (foldl (add_listing_entry lst who) s entries) =
      observations s ++ new ∧
    (λ o, (listing_id o, raw_text o, filled o, analyst o)) <$> new =
    (λ e, (l_id lst, strip (default [] (field_text e)),
           truthy (default (JBool false) (entry_filled e)), who)) <$>
      filter (λ e, ¬ blank_entry e) entries.
Proof.
  induction entries as [|e es IH]; intros s.
  - exists []. by rewrite app_nil_r.
  - simpl.
    destruct (add_listing_entry_observation lst who s e) as (n1 & Ho1 & Hn1).
    destruct (IH (add_listing_entry lst who s e)) as (n2 & Ho2 & Hn2).
    exists (n1 ++ n2). split.
    + by rewrite Ho2, Ho1, app_assoc.
    + rewrite fmap_app, Hn1, Hn2, filter_cons.
      by destruct (decide (blank_entry e)); destruct (decide (¬ blank_entry e)).
Qed.

(** X6. A request with a listing id adds one observation for each entry
    whose field text is not blank, in the order of the entries: the
    observation is of the new listing, its text is the trimmed field text,
    its flag is the truth value of the entry's [filled] (false when absent)
    and its analyst is the request's (``unknown'' when absent). *)
Theorem add_listing_observations (b : str) (data : listing_request)
    (s : store) :
  strip (default [] (req_listing_id data)) ≠ [] →
  ∃ lst new,
    (add_listing b data s).1 = Response 200 (JsonListing (l_id lst)) ∧
    observations (add_listing b data s).2 = observations s ++ new ∧
    (λ o, (listing_id o, raw_text o, filled o, analyst o)) <$> new =
    (λ e, (l_id lst, strip (default [] (field_text e)),
           truthy (default (JBool false) (entry_filled e)),
           default (py "unknown") (req_analyst data))) <$>
      filter (λ e, ¬ blank_entry e) (req_observations data).
Proof.
  intros Hne. unfold add_listing.
  destruct (strip (default [] (req_listing_id data))) as [|ch t]; [done|].
  destruct (add_Listing b (ch :: t) s) as [lst s1] eqn:Eadd.
  destruct (add_listing_loop_observations lst
              (default (py "unknown") (req_analyst data))
              (req_observations data) s1) as (new & Ho & Hn).
  exists lst, new. split; [done|]. split; [|done].
  simpl. rewrite Ho. by injection Eadd as _ <-.
Qed.

Lemma add_listing_observations_witness :
  strip (default [] (req_listing_id demo_request)) ≠ [] ∧
  ∃ lst new,
    (add_listing (py "spring") demo_request demo_store).1 =
      Response 200 (JsonListing (l_id lst)) ∧
    observations (add_listing (py "spring") demo_request demo_store).2 =
      observations demo_store ++ new ∧
    (λ o, (listing_id o, raw_text o, filled o, analyst o)) <$> new =
    (λ e, (l_id lst, strip (default [] (field_text e)),
           truthy (default (JBool false) (entry_filled e)),
           default (py "unknown") (req_analyst demo_request))) <$>
      filter (λ e, ¬ blank_entry e) (req_observations demo_request).
Proof.
  split; [by vm_compute|].
  apply (add_listing_observations (py "spring") demo_request demo_store).
  by vm_compute.
Defined.

(** X7. The add-listing handler never looks for an existing listing: the
    same request sent twice leaves two listings with the same batch and the
    same text under different keys. *)
Theorem add_listing_twice_two_listings (b : str) (data : listing_request)
    (s : store) :
  strip (default [] (req_listing_id data)) ≠ [] →
  ∃ l1 l2,
    listings (add_listing b data (add_listing b data s).2).2 =
      listings s ++ [l1; l2] ∧
    l_id l1 ≠ l_id l2 ∧
    batch l1 = b ∧ batch l2 = b ∧
    listing_id_text l1 = strip (default [] (req_listing_id data)) ∧
    listing_id_text l2 = strip (default [] (req_listing_id data)).
Proof.
  intros Hne.
  assert (∀ s0, listings (add_listing b data s0).2 =
                listings s0 ++ [(add_Listing b
                  (strip (default [] (req_listing_id data))) s0).1]) as Hadd.
  { intros s0. unfold add_listing.
    destruct (strip (default [] (req_listing_id data))) as [|ch t]; [done|].
    destruct (add_Listing b (ch :: t) s0) as [lst s1] eqn:Eadd. simpl.
    destruct (add_listing_loop_spec lst
                (default (py "unknown") (req_analyst data))
                (req_observations data) s1) as [-> _].
    unfold add_Listing in Eadd. by injection Eadd as <- <-. }
  eexists _, _. split.
  { rewrite Hadd, Hadd, <- app_assoc. reflexivity. }
  split; [|done]. cbn [add_Listing fst l_id]. rewrite Hadd.
  intros Heq.
  pose proof (next_id_not_elem
    (l_id <$> listings s ++
      [(add_Listing b (strip (default [] (req_listing_id data))) s).1]))
    as Hfresh.
  apply Hfresh. rewrite <- Heq, fmap_app. apply elem_of_app. right.
  simpl. left.
Qed.

Lemma add_listing_twice_two_listings_witness :
  strip (default [] (req_listing_id demo_request)) ≠ [] ∧
  ∃ l1 l2,
    listings (add_listing (py "spring") demo_request
                (add_listing (py "spring") demo_request demo_store).2).2 =
      listings demo_store ++ [l1; l2] ∧
    l_id l1 ≠ l_id l2 ∧
    batch l1 = py "spring" ∧ batch l2 = py "spring" ∧
    listing_id_text l1 = strip (default [] (req_listing_id demo_request)) ∧
    listing_id_text l2 = strip (default [] (req_listing_id demo_request)).
Proof.
  split; [by vm_compute|].
  apply (add_listing_twice_two_listings (py "spring") demo_request demo_store).
  by vm_compute.
Defined.

(** ** Marking a field empty, and the page of a field *)

Lemma filter_ext_elem {A} (P Q : A → Prop)
    `{!∀ x, Decision (P x), !∀ x, Decision (Q x)} (l : list A) :
  (∀ x, x ∈ l → (P x ↔ Q x)) → filter P l = filter Q l.
Proof.
  induction l as [|a l IH]; intros Hiff; [done|].
  rewrite !filter_cons.
  rewrite IH by (intros x Hx; apply Hiff; by right).
  destruct (decide (P a)) as [Hp|Hp], (decide (Q a)) as [Hq|Hq]; try done.
  - exfalso. apply Hq, (Hiff a); [left|done].
  - exfalso. apply Hp, (Hiff a); [left|done].
Qed.

Lemma bulk_mark_empty_step_eq fld who count s l :
  bulk_mark_empty_step fld who (count, s) l =
  match first_observation (l_id l) (f_id fld) s with
  | Some _ => (count, s)
  | None =>
    (S count,
     (add_Observation (l_id l) (f_id fld) false (canonical fld) who s).2)
  end.
Proof. reflexivity. Qed.

Lemma bulk_mark_empty_loop_new fld who ls : ∀ count s,
  NoDup (l_id <$> ls) →
  ∃ new,
    observations (foldl (bulk_mark_empty_step fld who) (count, s) ls).2 =
      observations s ++ new ∧
    (λ o, (listing_id o, field_id o, filled o, raw_text o, analyst o)) <$> new
    = (λ l, (l_id l, f_id fld, false, canonical fld, who)) <$>
      filter (λ l, first_observation (l_id l) (f_id fld) s = None) ls.
Proof.
  induction ls as [|l ls IH]; intros count s Hnd.
  - exists []. by rewrite app_nil_r.
  - rewrite fmap_cons in Hnd. apply NoDup_cons in Hnd as [Hnotin Hnd].
    cbn [foldl]. rewrite bulk_mark_empty_step_eq, filter_cons.
    destruct (first_observation (l_id l) (f_id fld) s) as [o|] eqn:Eo.
    + destruct (IH count s Hnd) as (new & Ho & Hn). exists new.
      split; [done|]. by rewrite decide_False.
    + set (o := (add_Observation (l_id l) (f_id fld) false (canonical fld)
                   who s).1).
      set (s1 := (add_Observation (l_id l) (f_id fld) false (canonical fld)
                    who s).2).
      destruct (IH (S count) s1 Hnd) as (new & Ho & Hn). exists (o :: new).
      split.
      { rewrite Ho. unfold s1. simpl. by rewrite <- app_assoc. }
      rewrite decide_True by done. rewrite !fmap_cons, Hn. f_equal. f_equal.
      apply filter_ext_elem. intros l' Hl'.
      unfold s1. cbn [add_Observation snd].
      rewrite first_observation_app.
      destruct (first_observation (l_id l') (f_id fld) s); [done|].
      rewrite filter_cons, decide_False; [done|].
      simpl. intros [Heq _]. apply Hnotin. rewrite Heq.
      apply list_elem_of_fmap. by exists l'.
Qed.

(** X8. Marking a field empty adds one observation for each listing that
    has none for the field, in the order of the listing table: the
    observation is empty, carries the canonical name of the field and the
    analyst of the form (``bulk_user'' when absent). *)
Theorem bulk_mark_empty_new_observations (fid : Z) (who : option str)
    (s : store) (fld : Field) :
  field_by_id fid s = Some fld →
  NoDup (l_id <$> listings s) →
  ∃ new,
    observations (bulk_mark_empty fid who s).2 = observations s ++ new ∧
    (λ o, (listing_id o, field_id o, filled o, raw_text o, analyst o)) <$> new
    = (λ l, (l_id l, fid, false, canonical fld,
             default (py "bulk_user") who)) <$>
      filter (λ l, first_observation (l_id l) fid s = None) (listings s).
Proof.
  intros Hfld Hnd. rewrite bulk_mark_empty_store, Hfld.
  apply field_by_id_Some in Hfld as [<- _].
  by apply bulk_mark_empty_loop_new.
Qed.

Lemma bulk_mark_empty_new_observations_witness :
  let s := (add_listing (py "spring") demo_request demo_store).2 in
  ∃ fld,
    field_by_id 1 s = Some fld ∧
    NoDup (l_id <$> listings s) ∧
    ∃ new,
      observations (bulk_mark_empty 1 None s).2 = observations s ++ new ∧
      (λ o, (listing_id o, field_id o, filled o, raw_text o, analyst o))
        <$> new
      = (λ l, (l_id l, 1%Z, false, canonical fld,
               default (py "bulk_user") None)) <$>
        filter (λ l, first_observation (l_id l) 1 s = None) (listings s).
Proof.
  intros s. eexists. split; [reflexivity|].
  assert (NoDup (l_id <$> listings s)) as Hnd.
  { apply (bool_decide_unpack _). by vm_compute. }
  split; [exact Hnd|].
  by apply (bulk_mark_empty_new_observations 1 None s).
Defined.

Lemma lex_compare_antisym a : ∀ b,
  lex_compare b a = CompOpp (lex_compare a b).
Proof.
  induction a as [|x a IH]; intros [|y b]; simpl; try done.
  rewrite (N.compare_antisym x y).
  destruct (x ?= y)%N; simpl; [apply IH|done|done].
Qed.

#[global] Instance dt_leb_total : Total (λ a b : datetime, dt_leb a b).
Proof.
  intros a b. unfold dt_leb.
  rewrite (lex_compare_antisym (dt_fields a) (dt_fields b)).
  destruct (lex_compare (dt_fields a) (dt_fields b)); simpl; auto.
Qed.

#[global] Instance newest_first_total :
  Total (λ a b : Listing, dt_leb (l_created_at b) (l_created_at a)).
Proof.
  intros a b. destruct (dt_leb_total (l_created_at b) (l_created_at a)); auto.
Qed.

#[global] Instance oldest_first_total :
  Total (λ a b : Listing, dt_leb (l_created_at a) (l_created_at b)).
Proof. intros a b. apply dt_leb_total. Qed.

(** X9. After a field is marked empty its page shows no listing as
    unchecked: a listing that had an observation for the field keeps its
    row, and every other listing of the store is shown as empty. *)
Theorem bulk_mark_empty_then_field_detail (fid : Z) (who : option str)
    (s : store) (fld : Field) :
  field_by_id fid s = Some fld →
  let s1 := (bulk_mark_empty fid who s).2 in
  ∃ rows,
    field_detail fid s1 = Response 200 (FieldPage fld rows) ∧
    length rows = length (listings s) ∧
    Forall (λ r, dr_status r = st_filled ∨ dr_status r = st_empty) rows ∧
    ∀ l, l ∈ listings s →
      match first_observation (l_id l) fid s with
      | Some _ => field_detail_row fid s1 l = field_detail_row fid s l
      | None => dr_status (field_detail_row fid s1 l) = st_empty
      end.
Proof.
  intros Hfld s1. unfold s1. rewrite bulk_mark_empty_store, Hfld.
  pose proof Hfld as [Hfid _]%field_by_id_Some.
  unfold bulk_mark_empty_loop.
  destruct (bulk_mark_empty_loop_spec fld (default (py "bulk_user") who)
              (listings s) 0 s) as [new Hnew].
  destruct (foldl _ (0, s) (listings s)) as [count' s'].
  destruct Hnew as (Hl & Hf & Ho & _ & Hall & Hcov). cbn [snd].
  assert (∀ l, l ∈ listings s →
            match first_observation (l_id l) fid s with
            | Some _ => field_detail_row fid s' l = field_detail_row fid s l
            | None => dr_status (field_detail_row fid s' l) = st_empty
            end) as Hrows.
  { intros l Hin. unfold field_detail_row.
    assert (first_observation (l_id l) fid s' =
            match first_observation (l_id l) fid s with
            | Some o => Some o
            | None => head (filter (λ o, listing_id o = l_id l ∧
                                         field_id o = fid) new)
            end) as ->.
    { unfold first_observation. rewrite Ho. apply head_filter_app. }
    destruct (first_observation (l_id l) fid s) as [o|] eqn:Eo; [done|].
    cbn [dr_status].
    destruct (head (filter _ new)) as [o|] eqn:En.
    - apply head_filter_Some in En as (n1 & n2 & -> & _ & _).
      apply Forall_app in Hall as [_ Hall].
      apply Forall_cons in Hall as [(Hfl & _) _]. simpl. by rewrite Hfl.
    - exfalso. apply (Hcov l Hin). rewrite Hfid.
      unfold first_observation. rewrite Ho, head_filter_app.
      unfold first_observation in Eo. by rewrite Eo. }
  unfold field_detail.
  assert (field_by_id fid s' = Some fld) as ->.
  { unfold field_by_id. by rewrite Hf. }
  eexists. split; [reflexivity|].
  rewrite length_fmap, merge_sort_Permutation, Hl. split; [done|].
  split; [|done].
  apply Forall_fmap, Forall_forall. intros l Hin.
  try rewrite merge_sort_Permutation in Hin. try rewrite Hl in Hin.
  specialize (Hrows l Hin).
  change (dr_status (field_detail_row fid s' l) = st_filled ∨
          dr_status (field_detail_row fid s' l) = st_empty).
  destruct (first_observation (l_id l) fid s) as [o|] eqn:Eo; [|by right].
  rewrite Hrows. unfold field_detail_row. rewrite Eo. simpl.
  destruct (filled o); auto.
Qed.

Lemma bulk_mark_empty_then_field_detail_witness :
  let s := (add_listing (py "spring") demo_request demo_store).2 in
  ∃ fld,
    field_by_id 1 s = Some fld ∧
    let s1 := (bulk_mark_empty 1 None s).2 in
    ∃ rows,
      field_detail 1 s1 = Response 200 (FieldPage fld rows) ∧
      length rows = length (listings s) ∧
      Forall (λ r, dr_status r = st_filled ∨ dr_status r = st_empty) rows ∧
      ∀ l, l ∈ listings s →
        match first_observation (l_id l) 1 s with
        | Some _ => field_detail_row 1 s1 l = field_detail_row 1 s l
        | None => dr_status (field_detail_row 1 s1 l) = st_empty
        end.
Proof.
  intros s. eexists. split; [reflexivity|].
  by apply (bulk_mark_empty_then_field_detail 1 None s).
Defined.


(** X11. The page of a field shows every listing of the store once, the
    newest first; a listing is shown as unchecked exactly when no
    observation is of that listing and that field. *)
Theorem field_detail_rows (fid : Z) (s : store) (fld : Field) :
  field_by_id fid s = Some fld →
  ∃ ls,
    field_detail fid s =
      Response 200 (FieldPage fld (field_detail_row fid s <$> ls)) ∧
    ls ≡ₚ listings s ∧
    Sorted (λ a b, dt_leb (l_created_at b) (l_created_at a)) ls ∧
    ∀ l, dr_status (field_detail_row fid s l) = st_unchecked ↔
         Forall (λ o, ¬ (listing_id o = l_id l ∧ field_id o = fid))
           (observations s).
Proof.
  intros Hfld. unfold field_detail. rewrite Hfld.
  eexists. split; [reflexivity|].
  split; [apply merge_sort_Permutation|].
  split; [apply (Sorted_merge_sort _)|].
  intros l. unfold field_detail_row. cbn [dr_status].
  destruct (first_observation (l_id l) fid s) as [o|] eqn:Eo; simpl.
  - apply head_filter_Some in Eo as (pre & post & Hobs & Ho & _).
    split; [by destruct (filled o)|]. intros Hall. exfalso.
    rewrite Forall_forall in Hall. apply (Hall o); [|done].
    rewrite Hobs. apply elem_of_app. right. left.
  - split; [intros _|done]. apply Forall_forall.
    unfold first_observation in Eo. by rewrite head_filter_None in Eo.
Qed.

Lemma field_detail_rows_witness :
  ∃ fld,
    field_by_id 2 demo_store = Some fld ∧
    ∃ ls,
      field_detail 2 demo_store =
        Response 200 (FieldPage fld (field_detail_row 2 demo_store <$> ls)) ∧
      ls ≡ₚ listings demo_store ∧
      Sorted (λ a b, dt_leb (l_created_at b) (l_created_at a)) ls ∧
      ∀ l, dr_status (field_detail_row 2 demo_store l) = st_unchecked ↔
           Forall (λ o, ¬ (listing_id o = l_id l ∧ field_id o = 2%Z))
             (observations demo_store).
Proof.
  eexists. split; [reflexivity|].
  by apply (field_detail_rows 2 demo_store).
Defined.

(** ** The rows of a summary *)

Lemma summary_join_elem b s f o l :
  (f, o, l) ∈ summary_join b s ↔
  f ∈ fields s ∧ o ∈ observations s ∧ f_id f = field_id o ∧
  l ∈ listings s ∧ listing_id o = l_id l ∧ batch l = b.
Proof.
  unfold summary_join. rewrite list_elem_of_bind. split.
  - intros (f' & Hin & Hf).
    apply list_elem_of_bind in Hin as (o' & Hin & Ho).
    apply list_elem_of_filter in Ho as [Hfo Ho].
    apply list_elem_of_bind in Hin as (l' & Hin & Hl).
    apply list_elem_of_filter in Hl as [[Hol Hb] Hl].
    apply list_elem_of_singleton in Hin. by injection Hin as -> -> ->.
  - intros (Hf & Ho & Hfo & Hl & Hol & Hb). exists f. split; [|done].
    apply list_elem_of_bind. exists o. split; [|by apply list_elem_of_filter].
    apply list_elem_of_bind. exists l. split; [left|].
    by apply list_elem_of_filter.
Qed.

Lemma summary_group_ids (F : Z → list (Field * Observation * Listing))
    (keys : list Z) :
  sr_field_id <$> ((λ k, summary_group k (F k)) <$> keys) = keys.
Proof. induction keys as [|k keys IH]; [done|]. csimpl. by rewrite IH. Qed.

#[global] Instance sample_order_total :
  Total (λ x y : summary_row, sr_sample y <=? sr_sample x).
Proof.
  intros x y. destruct (decide (sr_sample y ≤ sr_sample x)).
  - left. apply Is_true_true, Nat.leb_le. done.
  - right. apply Is_true_true, Nat.leb_le. lia.
Qed.

Lemma summary_rows_ids b s :
  sr_field_id <$> summary_rows b s ≡ₚ
  remove_dups ((λ r, f_id r.1.1) <$> summary_join b s).
Proof.
  unfold summary_rows. rewrite merge_sort_Permutation.
  by rewrite (summary_group_ids
                (λ k, filter (λ r, f_id r.1.1 = k) (summary_join b s))).
Qed.

Lemma summary_rows_observed b s k :
  k ∈ sr_field_id <$> summary_rows b s ↔
  ∃ f o, f ∈ fields s ∧ f_id f = k ∧ o ∈ observations s ∧
         field_id o = k ∧ observation_in_batch b s o.
Proof.
  rewrite summary_rows_ids, elem_of_remove_dups, list_elem_of_fmap. split.
  - intros ([[f o] l] & -> & Hin).
    apply summary_join_elem in Hin as (Hf & Ho & Hfo & Hl & Hol & Hb).
    exists f, o. repeat split; try done.
    apply Exists_exists. by exists l.
  - intros (f & o & Hf & <- & Ho & Hfo & Hin).
    apply Exists_exists in Hin as (l & Hl & Hol & Hb).
    exists (f, o, l). split; [done|]. by apply summary_join_elem.
Qed.

Lemma summary_rows_row b s r :
  NoDup (f_id <$> fields s) →
  r ∈ summary_rows b s →
  1 ≤ sr_sample r ∧
  ∃ f, field_by_id (sr_field_id r) s = Some f ∧ sr_canonical r = canonical f.
Proof.
  intros Hnd Hr. unfold summary_rows in Hr.
  rewrite merge_sort_Permutation in Hr.
  apply list_elem_of_fmap in Hr as (k & -> & Hk).
  apply elem_of_remove_dups, list_elem_of_fmap in Hk
    as ([[f o] l] & -> & Hin).
  cbn [summary_group sr_sample sr_field_id sr_canonical fst].
  set (g := filter _ (summary_join b s)).
  assert ((f, o, l) ∈ g) as Hing.
  { unfold g. by apply list_elem_of_filter. }
  destruct g as [|[[f' o'] l'] g'] eqn:Eg.
  { by apply elem_of_nil in Hing. }
  split; [simpl; lia|]. exists f'. split; [|done].
  assert ((f', o', l') ∈ filter (λ r : Field * Observation * Listing,
                                   f_id r.1.1 = f_id f) (summary_join b s))
    as Hin'.
  { fold g. rewrite Eg. left. }
  apply list_elem_of_filter in Hin' as [Hid Hin'].
  simpl in Hid. rewrite <- Hid.
  apply field_by_id_unique; [done|].
  by apply summary_join_elem in Hin' as (? & _).
Qed.

(** X12. The summary of a batch has one row for each field that has an
    observation of a listing of the batch, and no other row: fields
    without such an observation are left out, every row counts at least one
    observation and carries the canonical name of its field.  The rows
    come with the largest sample first. *)
Theorem summary_rows_fields (b : str) (s : store) :
  NoDup (f_id <$> fields s) →
  NoDup (sr_field_id <$> summary_rows b s) ∧
  (∀ k, k ∈ sr_field_id <$> summary_rows b s ↔
        ∃ f o, f ∈ fields s ∧ f_id f = k ∧ o ∈ observations s ∧
               field_id o = k ∧ observation_in_batch b s o) ∧
  (∀ r, r ∈ summary_rows b s →
        1 ≤ sr_sample r ∧
        ∃ f, field_by_id (sr_field_id r) s = Some f ∧
             sr_canonical r = canonical f) ∧
  Sorted (λ x y, sr_sample y <=? sr_sample x) (summary_rows b s).
Proof.
  intros Hnd. split; [|split; [|split]].
  - rewrite summary_rows_ids. apply NoDup_remove_dups.
  - intros k. apply (summary_rows_observed b s k).
  - intros r Hr. by apply (summary_rows_row b s r).
  - apply (Sorted_merge_sort _).
Qed.

Lemma summary_rows_fields_witness :
  NoDup (f_id <$> fields demo_store) ∧
  NoDup (sr_field_id <$> summary_rows (py "spring") demo_store) ∧
  (∀ k, k ∈ sr_field_id <$> summary_rows (py "spring") demo_store ↔
        ∃ f o, f ∈ fields demo_store ∧ f_id f = k ∧
               o ∈ observations demo_store ∧
               field_id o = k ∧
               observation_in_batch (py "spring") demo_store o) ∧
  (∀ r, r ∈ summary_rows (py "spring") demo_store →
        1 ≤ sr_sample r ∧
        ∃ f, field_by_id (sr_field_id r) demo_store = Some f ∧
             sr_canonical r = canonical f) ∧
  Sorted (λ x y, sr_sample y <=? sr_sample x)
    (summary_rows (py "spring") demo_store).
Proof.
  assert (NoDup (f_id <$> fields demo_store)) as Hnd.
  { apply (bool_decide_unpack _). by vm_compute. }
  split; [exact Hnd|].
  by apply (summary_rows_fields (py "spring") demo_store).
Defined.

(** ** The rows of the exported file *)




(** ** Importing rows *)

Lemma import_row_blank b who s c row e :
  row_holds row e → imported_triple e = None →
  import_row b who s c row = Running s c.
Proof.
  intros (Hl & Hf & Ht) Hnone. unfold import_row. rewrite Hl, Hf.
  destruct (row_get row (py "filled") (py "0")) as [t|]; [|done].
  simpl in Ht. rewrite Ht. unfold imported_triple in Hnone.
  destruct (decide (strip e.1.1 = [] ∨ strip e.1.2 = [])) as [Hb|]; [|done].
  destruct Hb as [-> | ->]; [done|].
  by rewrite orb_true_r.
Qed.

Lemma import_row_adds b who s c row e tr :
  row_holds row e → imported_triple e = Some tr → integrity s →
  ∃ s' c' o l f,
    import_row b who s c row = Running s' c' ∧ integrity s' ∧
    export_join s' = export_join s ++ [(o, l, f)] ∧
    triple_of (o, l, f) = tr ∧ batch l = b ∧ analyst o = who ∧
    listings s' = listings s ++
      match listing_by_text (strip e.1.1) b s with
      | None => [l] | Some _ => [] end ∧
    fields s' = fields s ++
      match field_by_canonical (strip e.1.2) s with
      | None => [f] | Some _ => [] end.
Proof.
  intros (Hl & Hf & Ht) Htr Hs. unfold import_row. rewrite Hl, Hf.
  destruct (row_get row (py "filled") (py "0")) as [t|]; [|done].
  simpl in Ht. rewrite Ht. unfold imported_triple in Htr.
  destruct (decide (strip e.1.1 = [] ∨ strip e.1.2 = [])) as [|Hb]; [done|].
  injection Htr as <-.
  rewrite !bool_decide_eq_false_2 by (intros ?; apply Hb; auto). cbn [orb].
  assert (∃ lst s1 c1,
             match listing_by_text (strip e.1.1) b s with
             | Some lst => (lst, s, c)
             | None =>
               let '(lst, s) := add_Listing b (strip e.1.1) s in (lst, s, s)
             end = (lst, s1, c1) ∧
             integrity s1 ∧ export_join s1 = export_join s ∧
             lst ∈ listings s1 ∧ listing_id_text lst = strip e.1.1 ∧
             batch lst = b ∧ fields s1 = fields s ∧
             listings s1 = listings s ++
               match listing_by_text (strip e.1.1) b s with
               | None => [lst] | Some _ => [] end)
    as (lst & s1 & c1 & -> & Hs1 & Hj1 & Hin & Htext & Hbatch & Hfs & Hls1).
  { destruct (listing_by_text (strip e.1.1) b s) as [lst|] eqn:Elst.
    - apply listing_by_text_Some in Elst as (Hin & Htext & Hbatch).
      exists lst, s, c. by rewrite app_nil_r.
    - eexists _, _, _. split; [reflexivity|].
      split; [by apply integrity_add_Listing|].
      split; [by apply export_join_add_Listing|].
      split; [|done]. simpl. apply elem_of_app. right. left. }
  cbv beta iota.
  assert (field_by_canonical (strip e.1.2) s =
          field_by_canonical (strip e.1.2) s1) as ->.
  { unfold field_by_canonical. by rewrite Hfs. }
  assert (∃ fld s2 c2,
             match field_by_canonical (strip e.1.2) s1 with
             | Some fld => (fld, s1, c1)
             | None =>
               let '(fld, s) := add_Field (strip e.1.2) s1 in (fld, s, s)
             end = (fld, s2, c2) ∧
             integrity s2 ∧ export_join s2 = export_join s1 ∧
             listings s2 = listings s1 ∧
             fld ∈ fields s2 ∧ canonical fld = strip e.1.2 ∧
             fields s2 = fields s1 ++
               match field_by_canonical (strip e.1.2) s1 with
               | None => [fld] | Some _ => [] end)
    as (fld & s2 & c2 & -> & Hs2 & Hj2 & Hls & Hinf & Hcan & Hfs2).
  { destruct (field_by_canonical (strip e.1.2) s1) as [fld|] eqn:Efld.
    - apply field_by_canonical_Some in Efld as (Hinf & Hcan).
      exists fld, s1, c1. by rewrite app_nil_r.
    - eexists _, _, _. split; [reflexivity|].
      split; [by apply integrity_add_Field|].
      split; [by apply export_join_add_Field|].
      split; [done|]. split; [|done]. simpl. apply elem_of_app. right. left. }
  cbv beta iota. rewrite <- Hls in Hin.
  eexists _, _, _, lst, fld. split; [reflexivity|].
  split; [by apply (integrity_add_Observation lst fld)|].
  split; [rewrite <- Hj1, <- Hj2;
          by apply (export_join_add_Observation lst fld)|].
  split; [unfold triple_of; simpl; by rewrite Htext, Hcan|].
  split; [done|]. split; [done|]. simpl. by rewrite Hls, Hfs2, Hfs.
Qed.

Lemma present_extends b s s' e :
  listings s `prefix_of` listings s' → fields s `prefix_of` fields s' →
  present b s e → present b s' e.
Proof.
  intros [nl Hl] [nf Hf] [Hnone|[Hlst Hfld]]; [by left|]. right.
  unfold listing_by_text, field_by_canonical in *.
  rewrite Hl, Hf, !head_filter_app. split.
  - by destruct (head (filter _ (listings s))).
  - by destruct (head (filter _ (fields s))).
Qed.

(** What the loop of the import does over rows that can be read. *)
Lemma import_rows_entries b who rows entries :
  Forall2 row_holds rows entries → ∀ s c,
  integrity s →
  ∃ s' c' new_l new_f,
    import_rows b who s c rows = Running s' c' ∧ integrity s' ∧
    triple_of <$> export_join s' =
      (triple_of <$> export_join s) ++ omap imported_triple entries ∧
    listings s' = listings s ++ new_l ∧ fields s' = fields s ++ new_f ∧
    Forall (λ l, batch l = b) new_l ∧
    Forall (present b s') entries ∧
    (Forall (present b s) entries → new_l = [] ∧ new_f = []).
Proof.
  induction 1 as [|row e rows entries Hrow _ IH]; intros s c Hs.
  - exists s, c, [], []. rewrite !app_nil_r.
    do 5 (split; [done|]). split; [constructor|]. split; [constructor|done].
  - cbn [import_rows omap list_omap].
    destruct (imported_triple e) as [tr|] eqn:Etr.
    + destruct (import_row_adds b who s c row e tr Hrow Etr Hs)
        as (s1 & c1 & o & l & f & -> & Hs1 & Hj & Htr & Hb & _ & Hl1 & Hf1).
      assert (listing_id_text l = strip e.1.1 ∧ canonical f = strip e.1.2)
        as [Ht1 Ht2].
      { pose proof Etr as Etr'. unfold imported_triple in Etr'.
        destruct (decide _) in Etr'; [done|]. injection Etr' as Etr'.
        rewrite <- Etr' in Htr. unfold triple_of in Htr. simpl in Htr.
        by injection Htr. }
      destruct (IH s1 c1 Hs1)
        as (s' & c' & nl & nf & -> & Hs' & Hj' & Hl' & Hf' & Hbs & Hpr & Hst).
      eexists s', c', _, _. split; [done|]. split; [done|].
      split; [by rewrite Hj', Hj, fmap_app, <- app_assoc, <- Htr|].
      split; [by rewrite Hl', Hl1, <- app_assoc|].
      split; [by rewrite Hf', Hf1, <- app_assoc|].
      split.
      { apply Forall_app. split; [|done].
        destruct (listing_by_text (strip e.1.1) b s); [done|].
        by apply Forall_singleton. }
      split.
      { constructor; [|done].
        apply (present_extends b s1); [by exists nl|by exists nf|].
        right. unfold listing_by_text, field_by_canonical.
        rewrite Hl1, Hf1, !head_filter_app.
        unfold listing_by_text, field_by_canonical. split.
        - destruct (head (filter _ (listings s))) eqn:E1; [done|].
          by rewrite filter_cons, decide_True.
        - destruct (head (filter _ (fields s))) eqn:E2; [done|].
          by rewrite filter_cons, decide_True. }
      intros [Hpe Hprs]%Forall_cons.
      destruct Hpe as [Hnone|[Hlst Hfld]]; [by rewrite Hnone in Etr|].
      destruct (listing_by_text (strip e.1.1) b s) eqn:E1; [|done].
      destruct (field_by_canonical (strip e.1.2) s) eqn:E2; [|done].
      rewrite app_nil_r in Hl1, Hf1.
      destruct Hst as [-> ->]; [|done].
      eapply Forall_impl; [exact Hprs|]. intros e'.
      apply present_extends; [by rewrite Hl1|by rewrite Hf1].
    + rewrite (import_row_blank b who s c row e Hrow Etr).
      destruct (IH s c Hs)
        as (s' & c' & nl & nf & -> & Hs' & Hj' & Hl' & Hf' & Hbs & Hpr & Hst).
      exists s', c', nl, nf. do 6 (split; [done|]).
      split; [constructor; [by left|done]|].
      intros [_ Hprs]%Forall_cons. by apply Hst.
Qed.

Lemma import_obs_entries file rows entries b who s :
  integrity s →
  DictReader file = (rows, None) →
  Forall2 row_holds rows entries →
  ∃ s' new_l new_f,
    import_obs (Some file) b who s =
      (Response 200 (Text (py "imported")), s') ∧
    integrity s' ∧
    triples s' = triples s ++ omap imported_triple entries ∧
    listings s' = listings s ++ new_l ∧ fields s' = fields s ++ new_f ∧
    Forall (λ l, batch l = default (py "default") b) new_l ∧
    Forall (present (default (py "default") b) s') entries ∧
    (Forall (present (default (py "default") b) s) entries →
     new_l = [] ∧ new_f = []).
Proof.
  intros Hs Hfile Hrows. unfold import_obs. rewrite Hfile.
  destruct (import_rows_entries (default (py "default") b)
              (default (py "import_user") who) rows entries Hrows s s Hs)
    as (s' & c' & nl & nf & -> & Hs' & Hj & Hrest).
  exists s', nl, nf. split; [done|]. split; [done|].
  by rewrite !triples_join.
Qed.

(** X14. A file whose rows can all be read (each has a listing id and a
    field, and an integer in the filled column or no such column) is
    imported whole: every row with a non-blank listing id and field adds
    the triple of its trimmed texts and whether the integer is not zero,
    in the order of the rows; rows with a blank text add nothing; the
    listings the import creates are of the batch of the form (``default''
    when absent). *)
Theorem import_obs_rows (file : str) (rows : list (gmap str (option str)))
    (entries : list (str * str * Z)) (b who : option str) (s : store) :
  integrity s →
  DictReader file = (rows, None) →
  Forall2 row_holds rows entries →
  ∃ s' new_l new_f,
    import_obs (Some file) b who s =
      (Response 200 (Text (py "imported")), s') ∧
    triples s' = triples s ++ omap imported_triple entries ∧
    listings s' = listings s ++ new_l ∧ fields s' = fields s ++ new_f ∧
    Forall (λ l, batch l = default (py "default") b) new_l.
Proof.
  intros Hs Hfile Hrows.
  destruct (import_obs_entries file rows entries b who s Hs Hfile Hrows)
    as (s' & nl & nf & Himp & _ & Htr & Hl & Hf & Hb & _).
  by exists s', nl, nf.
Qed.

Lemma import_obs_rows_witness :
  integrity demo_store ∧
  ∃ rows,
    DictReader csv_three_rows = (rows, None) ∧
    Forall2 row_holds rows three_entries ∧
    ∃ s' new_l new_f,
      import_obs (Some csv_three_rows) (Some (py "spring")) None demo_store =
        (Response 200 (Text (py "imported")), s') ∧
      triples s' = triples demo_store ++ omap imported_triple three_entries ∧
      listings s' = listings demo_store ++ new_l ∧
      fields s' = fields demo_store ++ new_f ∧
      Forall (λ l, batch l = default (py "default") (Some (py "spring")))
        new_l.
Proof.
  assert (integrity demo_store) as Hs
    by apply reachable_integrity, reachable_demo_store.
  split; [exact Hs|].
  exists (DictReader csv_three_rows).1.
  assert (DictReader csv_three_rows = ((DictReader csv_three_rows).1, None))
    as Hfile by by vm_compute.
  assert (Forall2 row_holds (DictReader csv_three_rows).1 three_entries)
    as Hrows.
  { vm_compute DictReader. repeat constructor. }
  split; [exact Hfile|]. split; [exact Hrows|].
  exact (import_obs_rows csv_three_rows _ three_entries (Some (py "spring"))
           None demo_store Hs Hfile Hrows).
Defined.

(** X15. Importing the same readable file a second time creates no
    listing and no field, and records the observations of its rows once
    more. *)
Theorem import_obs_twice (file : str) (rows : list (gmap str (option str)))
    (entries : list (str * str * Z)) (b who : option str) (s : store) :
  integrity s →
  DictReader file = (rows, None) →
  Forall2 row_holds rows entries →
  let s1 := (import_obs (Some file) b who s).2 in
  let s2 := (import_obs (Some file) b who s1).2 in
  listings s2 = listings s1 ∧ fields s2 = fields s1 ∧
  triples s2 = triples s1 ++ omap imported_triple entries.
Proof.
  intros Hs Hfile Hrows.
  destruct (import_obs_entries file rows entries b who s Hs Hfile Hrows)
    as (s1 & nl & nf & -> & Hs1 & _ & _ & _ & _ & Hpr & _).
  cbn [snd].
  destruct (import_obs_entries file rows entries b who s1 Hs1 Hfile Hrows)
    as (s2 & nl2 & nf2 & -> & _ & Htr & Hl & Hf & _ & _ & Hst).
  cbn [snd]. destruct (Hst Hpr) as [-> ->].
  by rewrite Hl, Hf, !app_nil_r.
Qed.

Lemma import_obs_twice_witness :
  integrity demo_store ∧
  ∃ rows,
    DictReader csv_three_rows = (rows, None) ∧
    Forall2 row_holds rows three_entries ∧
    let s1 := (import_obs (Some csv_three_rows) None None demo_store).2 in
    let s2 := (import_obs (Some csv_three_rows) None None s1).2 in
    listings s2 = listings s1 ∧ fields s2 = fields s1 ∧
    triples s2 = triples s1 ++ omap imported_triple three_entries.
Proof.
  assert (integrity demo_store) as Hs
    by apply reachable_integrity, reachable_demo_store.
  split; [exact Hs|].
  exists (DictReader csv_three_rows).1.
  assert (DictReader csv_three_rows = ((DictReader csv_three_rows).1, None))
    as Hfile by by vm_compute.
  assert (Forall2 row_holds (DictReader csv_three_rows).1 three_entries)
    as Hrows.
  { vm_compute DictReader. repeat constructor. }
  split; [exact Hfile|]. split; [exact Hrows|].
  exact (import_obs_twice csv_three_rows _ three_entries None None
           demo_store Hs Hfile Hrows).
Defined.










(** ** Column names *)

Lemma col_idx_to_letter_loop_decode rounds : ∀ idx letters,
  idx ≤ rounds →
  letters_to_idx (col_idx_to_letter_loop rounds idx letters) =
  foldl (λ idx c, 26 * idx + (N.to_nat c - 64)) idx letters.
Proof.
  unfold letters_to_idx.
  induction rounds as [|k IH]; intros idx letters Hle.
  - assert (idx = 0) as -> by lia. done.
  - cbn [col_idx_to_letter_loop]. destruct (Nat.ltb_spec 0 idx) as [Hpos|Hz].
    + rewrite IH.
      * cbn [foldl]. f_equal.
        pose proof (Nat.div_mod (idx - 1) 26) as Hdm.
        pose proof (Nat.mod_upper_bound (idx - 1) 26) as Hub.
        rewrite Nat2N.id. lia.
      * assert ((idx - 1) `div` 26 ≤ idx - 1); [|lia].
        apply Nat.Div0.div_le_upper_bound. lia.
    + assert (idx = 0) as -> by lia. done.
Qed.

Lemma col_idx_to_letter_loop_range rounds : ∀ idx letters,
  Forall (λ c, (65 ≤ c ≤ 90)%N) letters →
  Forall (λ c, (65 ≤ c ≤ 90)%N) (col_idx_to_letter_loop rounds idx letters).
Proof.
  induction rounds as [|k IH]; intros idx letters Hall; [done|].
  cbn [col_idx_to_letter_loop]. destruct (0 <? idx); [|done].
  apply IH. constructor; [|done].
  pose proof (Nat.mod_upper_bound (idx - 1) 26). lia.
Qed.

(** X18. The name of a column is made of capital letters and stands for
    the number of the column, so two columns never get the same name. *)
Theorem col_idx_to_letter_decodes (idx : nat) :
  letters_to_idx (col_idx_to_letter idx) = idx ∧
  Forall (λ c, (65 ≤ c ≤ 90)%N) (col_idx_to_letter idx) ∧
  ∀ idx', col_idx_to_letter idx = col_idx_to_letter idx' → idx = idx'.
Proof.
  assert (∀ i, letters_to_idx (col_idx_to_letter i) = i) as Hdec.
  { intros i. unfold col_idx_to_letter.
    by rewrite col_idx_to_letter_loop_decode. }
  split; [apply Hdec|]. split.
  - apply col_idx_to_letter_loop_range. constructor.
  - intros idx' Heq. by rewrite <- (Hdec idx), Heq, Hdec.
Qed.

(** ** The answers of the matrix exporter *)

#[global] Instance canonical_order_total :
  Total (λ x y : Field, str_leb (canonical x) (canonical y)).
Proof.
  intros x y. unfold str_leb.
  rewrite (lex_compare_antisym (canonical x) (canonical y)).
  destruct (lex_compare (canonical x) (canonical y)); simpl; auto.
Qed.

Lemma build_listing_order_nil b s :
  build_listing_order b s = [] ↔ Forall (λ l, batch l ≠ b) (listings s).
Proof.
  unfold build_listing_order. split.
  - intros Hnil. apply Forall_forall. intros l Hl Hb.
    assert (l ∈ merge_sort
              (λ x y, dt_leb (l_created_at x) (l_created_at y))
              (filter (λ l, batch l = b) (listings s))) as Hin.
    { rewrite merge_sort_Permutation. by apply list_elem_of_filter. }
    rewrite Hnil in Hin. by apply elem_of_nil in Hin.
  - intros Hall. apply Permutation_nil_r. rewrite merge_sort_Permutation.
    rewrite filter_none; [done|]. by rewrite Forall_forall in Hall.
Qed.

Lemma fields_by_canonical_nil s : fields_by_canonical s = [] ↔ fields s = [].
Proof.
  unfold fields_by_canonical. split; intros Hnil.
  - apply Permutation_nil_r. by rewrite <- Hnil, merge_sort_Permutation.
  - apply Permutation_nil_r. by rewrite merge_sort_Permutation, Hnil.
Qed.

(** X19. Where the spreadsheet library is installed and the service
    accepts the calls, the matrix exporter checks, in this order, that a
    sheet id is given, that the batch has a listing and that the store has
    a field: the first check that fails gives the answer 400 with its
    message and nothing is written; when all three hold a worksheet is
    written and the answer is 200. *)
Theorem export_google_sheet_symbols_checks (sheet_id b : option str)
    (s : store) :
  let bn := default (py "default") b in
  (default [] sheet_id = [] →
   export_google_sheet_symbols sheet_id b s =
     (Response 400 (Text (py "missing sheet_id")), None)) ∧
  (default [] sheet_id ≠ [] → Forall (λ l, batch l ≠ bn) (listings s) →
   export_google_sheet_symbols sheet_id b s =
     (Response 400 (Text (py "No listings found for batch '" ++ bn ++
                          py "'.")), None)) ∧
  (default [] sheet_id ≠ [] → Exists (λ l, batch l = bn) (listings s) →
   fields s = [] →
   export_google_sheet_symbols sheet_id b s =
     (Response 400 (Text (py "No fields found.")), None)) ∧
  (default [] sheet_id ≠ [] → Exists (λ l, batch l = bn) (listings s) →
   fields s ≠ [] →
   ∃ msg ws,
     export_google_sheet_symbols sheet_id b s =
       (Response 200 (Text msg), Some ws)).
Proof.
  intros bn. split; [|split; [|split]].
  - intros Hid. unfold export_google_sheet_symbols.
    by destruct sheet_id as [[|c t]|].
  - intros Hid Hall. apply build_listing_order_nil in Hall.
    unfold export_google_sheet_symbols. fold bn.
    destruct sheet_id as [[|c t]|]; [done| |done]. by rewrite Hall.
  - intros Hid Hex Hnil. unfold export_google_sheet_symbols. fold bn.
    destruct sheet_id as [[|c t]|]; [done| |done].
    destruct (build_listing_order bn s) as [|l0 ls] eqn:Els.
    { apply build_listing_order_nil in Els.
      apply Exists_exists in Hex as (l & Hl & Hb).
      rewrite Forall_forall in Els. by destruct (Els l Hl). }
    apply fields_by_canonical_nil in Hnil. by rewrite Hnil.
  - intros Hid Hex Hne.
    destruct (export_google_sheet_symbols_ok sheet_id b s Hid) as [msg ->].
    + intros Els. apply build_listing_order_nil in Els.
      apply Exists_exists in Hex as (l & Hl & Hb).
      rewrite Forall_forall in Els. by destruct (Els l Hl).
    + by rewrite fields_by_canonical_nil.
    + by eexists _, _.
Qed.

Lemma export_google_sheet_symbols_written sheet_id b s msg ws :
  export_google_sheet_symbols sheet_id b s =
    (Response 200 (Text msg), Some ws) →
  let ls := build_listing_order (default (py "default") b) s in
  let rows := matrix_row (obs_map (observations s)) ls <$>
              fields_by_canonical s in
  ws = foldl (write_formulas (length ls))
         (update 2 1 rows (update 1 1 [header_row ls] blank_worksheet))
         (seq 0 (length rows)).
Proof.
  intros Hexp ls rows. unfold export_google_sheet_symbols in Hexp.
  destruct sheet_id as [[|c t]|]; [done| |done].
  fold ls in Hexp. 
  destruct ls as [|l0 ls'] eqn:Els; [done|].
  destruct (fields_by_canonical s) as [|f0 fs'] eqn:Efs; [done|].
  cbv beta iota zeta in Hexp. by injection Hexp as _ <-.
Qed.

Lemma eval_eq_unfold d ws a b :
  eval (S d) ws (EEq a b) =
  (x ← eval d ws a; y ← eval d ws b;
   Some (arith (λ x y, VBool (Qeq_bool x y)) x y)).
Proof. reflexivity. Qed.

Lemma eval_div_unfold d ws a b :
  eval (S d) ws (EDiv a b) =
  (x ← eval d ws a; y ← eval d ws b;
   Some (arith (λ x y, if Qeq_bool y 0 then VError else VNum (x / y)) x y)).
Proof. reflexivity. Qed.

Lemma eval_num_unfold d ws n :
  eval (S d) ws (ENum n) = Some (VNum (inject_Z (Z.of_nat n))).
Proof. reflexivity. Qed.

Lemma Qeq_bool_sum_zero (f e : nat) :
  Qeq_bool (inject_Z (Z.of_nat f) + inject_Z (Z.of_nat e))
    (inject_Z (Z.of_nat 0)) = (f + e =? 0).
Proof.
  unfold Qeq_bool. simpl. rewrite !Z.mul_1_r.
  destruct (Nat.eqb_spec (f + e) 0) as [Hz|Hnz];
    destruct (Z.eqb_spec (Z.of_nat f + Z.of_nat e) (Z.of_nat 0));
    try done; lia.
Qed.

Lemma count_symbol_partition (symbols : list str) :
  Forall (λ t, t = symbol_filled ∨ t = symbol_empty ∨ t = symbol_unobserved)
    symbols →
  count_symbol symbol_filled symbols + count_symbol symbol_empty symbols +
  count_symbol symbol_unobserved symbols = length symbols.
Proof.
  unfold count_symbol. induction 1 as [|t symbols Ht _ IH]; [done|].
  rewrite !filter_cons. simpl.
  destruct Ht as [->| [->| ->]];
    repeat match goal with
           | |- context [decide (?a = ?b)] =>
             destruct (decide (a = b)) as [?|?]; try done
           end; simpl; lia.
Qed.

Lemma update_is_Some r0 c0 values w r c :
  is_Some (update r0 c0 values w r c) →
  is_Some (w r c) ∨
  (r0 ≤ r < r0 + length values ∧ c0 ≤ c ∧
   ∃ row, values !! (r - r0) = Some row ∧ c < c0 + length row).
Proof.
  unfold update.
  destruct (Nat.leb_spec r0 r) as [Hr|Hr]; [|by left].
  destruct (Nat.leb_spec c0 c) as [Hc|Hc]; [|by left]. simpl.
  destruct (values !! (r - r0)) as [row|] eqn:Erow; simpl; [|by left].
  destruct (row !! (c - c0)) as [t|] eqn:Ec; [|by left].
  intros _. right. apply lookup_lt_Some in Erow as Hlr.
  apply lookup_lt_Some in Ec. split; [lia|]. split; [done|].
  exists row. split; [done|lia].
Qed.

Section sheet.
Variables (b : str) (s : store).

Let ls := build_listing_order b s.
Let fs := fields_by_canonical s.
Let m := obs_map (observations s).
Let n := length ls.
Let rows := matrix_row m ls <$> fs.

Let ws : worksheet :=
  foldl (write_formulas n)
    (update 2 1 rows (update 1 1 [header_row ls] blank_worksheet))
    (seq 0 (length rows)).

Lemma length_header_row : length (header_row ls) = n + 5.
Proof.
  unfold header_row, listing_headers.
  rewrite !length_app, length_imap. simpl. unfold n. lia.
Qed.

Lemma worksheet_header c t :
  header_row ls !! c = Some t → ws 1 (1 + c) = Some (Raw t).
Proof.
  intros Hc. unfold ws. rewrite write_formulas_foldl.
  rewrite decide_False by lia.
  unfold update. simpl. replace (c - 0) with c by lia. by rewrite Hc.
Qed.

Lemma worksheet_name i fld :
  fs !! i = Some fld → ws (2 + i) 1 = Some (Raw (canonical fld)).
Proof.
  intros Hi. unfold ws. rewrite write_formulas_foldl.
  rewrite decide_False by lia.
  unfold update at 1. simpl. replace (i - 0) with i by lia.
  unfold rows. by rewrite list_lookup_fmap, Hi.
Qed.

Lemma worksheet_written r c :
  is_Some (ws r c) → 1 ≤ r ≤ num_rows rows ∧ 1 ≤ c ≤ num_cols (header_row ls).
Proof.
  unfold ws, num_rows, num_cols. rewrite length_header_row.
  rewrite write_formulas_foldl.
  destruct (decide _) as [(Hr & Hin & Hc)|_].
  { intros _. apply elem_of_seq in Hin. lia. }
  intros [Hblank|(Hr & Hc & row & Hrow & Hlen)]%update_is_Some.
  - apply update_is_Some in Hblank
      as [[? Hblank]|(Hr & Hc & row & Hrow & Hlen)]; [done|].
    simpl in Hr. assert (r - 1 = 0) as Hr0 by lia. rewrite Hr0 in Hrow.
    injection Hrow as <-. rewrite length_header_row in Hlen. lia.
  - unfold rows in Hrow. rewrite list_lookup_fmap in Hrow.
    destruct (fs !! (r - 2)) as [f|]; [|done]. injection Hrow as <-.
    unfold matrix_row, row_symbols in Hlen. simpl in Hlen.
    rewrite length_fmap in Hlen. fold n in Hlen. lia.
Qed.
End sheet.

Lemma formula_cell_pct n i :
  write_formulas n blank_worksheet i (2 + i) (n + 4) =
    Some (Entered (pct_expr (n + 2) (n + 3) (2 + i))).
Proof.
  unfold write_formulas, update_acell.
  replace (1 + n + 1) with (n + 2) by lia.
  replace (1 + n + 2) with (n + 3) by lia.
  replace (1 + n + 3) with (n + 4) by lia.
  replace (1 + n + 4) with (n + 5) by lia.
  repeat match goal with
         | |- context [?a =? ?b] => destruct (Nat.eqb_spec a b)
         end; cbn [andb]; try lia; done.
Qed.

Section cells.
Variables (b : str) (s : store).

Let ls := build_listing_order b s.
Let fs := fields_by_canonical s.
Let m := obs_map (observations s).
Let n := length ls.

Let ws : worksheet :=
  foldl (write_formulas n)
    (update 2 1 (matrix_row m ls <$> fs)
       (update 1 1 [header_row ls] blank_worksheet))
    (seq 0 (length (matrix_row m ls <$> fs))).

(** The values of the two count cells of a field's row. *)
Lemma eval_count_cells i fld d :
  fs !! i = Some fld →
  eval (3 + d) ws (ECell (n + 2) (2 + i)) =
    Some (VNum (inject_Z (Z.of_nat
      (count_symbol symbol_filled (row_symbols m ls fld))))) ∧
  eval (3 + d) ws (ECell (n + 3) (2 + i)) =
    Some (VNum (inject_Z (Z.of_nat
      (count_symbol symbol_empty (row_symbols m ls fld))))).
Proof.
  unfold ws, n, m, fs, ls. intros Hi.
  destruct (formula_cells b s i) as (_ & Hemp & Hfil).
  change (3 + d) with (S (S (S d))).
  rewrite !eval_cell_unfold.
  rewrite !(worksheet_formula b s i fld) by (done || lia).
  rewrite Hemp, Hfil. unfold empty_expr, filled_expr.
  by rewrite !(eval_countif b s i fld).
Qed.

(** The value of the percentage cell of a field's row. *)
Lemma eval_pct_cell i fld d :
  fs !! i = Some fld →
  let f := count_symbol symbol_filled (row_symbols m ls fld) in
  let e := count_symbol symbol_empty (row_symbols m ls fld) in
  eval (7 + d) ws (ECell (n + 4) (2 + i)) =
  Some (VNum (if f + e =? 0 then inject_Z 0
              else inject_Z (Z.of_nat e) /
                   (inject_Z (Z.of_nat f) + inject_Z (Z.of_nat e)))).
Proof.
  intros Hi f e.
  destruct (eval_count_cells i fld (1 + d) Hi) as [Hf1 He1].
  destruct (eval_count_cells i fld d Hi) as [Hf0 He0].
  fold f in Hf0, Hf1. fold e in He0, He1.
  unfold ws, n, m, fs, ls in *.
  change (7 + d) with (S (S (S (S (3 + d))))).
  rewrite eval_cell_unfold, (worksheet_formula b s i fld) by (done || lia).
  rewrite formula_cell_pct. unfold pct_expr.
  rewrite eval_if_unfold, eval_eq_unfold, eval_add_unfold.
  rewrite Hf0, He0, !eval_num_unfold.
  cbn [mbind option_bind arith to_number to_bool].
  rewrite Qeq_bool_sum_zero.
  destruct (Nat.eqb_spec (f + e) 0) as [Hz|Hnz]; cbn [negb].
  - reflexivity.
  - rewrite eval_div_unfold, eval_add_unfold.
    change (S (3 + d)) with (3 + (1 + d)).
    rewrite He1, Hf0, He0.
    cbn [mbind option_bind arith to_number].
    pose proof (Qeq_bool_sum_zero f e) as Hq.
    change (inject_Z (Z.of_nat 0)) with 0%Q in Hq. rewrite Hq.
    by rewrite (proj2 (Nat.eqb_neq (f + e) 0) Hnz).
Qed.
End cells.

Lemma cell_symbol_cases m fld l :
  (cell_symbol m fld l = symbol_filled ↔
   filled <$> m !! (f_id fld, l_id l) = Some true) ∧
  (cell_symbol m fld l = symbol_empty ↔
   filled <$> m !! (f_id fld, l_id l) = Some false) ∧
  (cell_symbol m fld l = symbol_unobserved ↔ m !! (f_id fld, l_id l) = None).
Proof.
  unfold cell_symbol.
  destruct (m !! (f_id fld, l_id l)) as [o|]; simpl; [destruct (filled o)|];
    repeat split; done.
Qed.

Lemma count_symbol_row m ls fld g :
  count_symbol g (row_symbols m ls fld) =
  length (filter (λ l, cell_symbol m fld l = g) ls).
Proof.
  unfold count_symbol, row_symbols.
  induction ls as [|l ls IH]; [done|].
  rewrite fmap_cons, !filter_cons.
  destruct (decide (cell_symbol m fld l = g)); simpl; by rewrite IH.
Qed.

Lemma count_symbol_filled m ls fld :
  count_symbol symbol_filled (row_symbols m ls fld) =
  length (filter (λ l, filled <$> m !! (f_id fld, l_id l) = Some true) ls).
Proof.
  rewrite count_symbol_row. f_equal. apply filter_ext_elem.
  intros l _. apply cell_symbol_cases.
Qed.

Lemma count_symbol_empty m ls fld :
  count_symbol symbol_empty (row_symbols m ls fld) =
  length (filter (λ l, filled <$> m !! (f_id fld, l_id l) = Some false) ls).
Proof.
  rewrite count_symbol_row. f_equal. apply filter_ext_elem.
  intros l _. apply cell_symbol_cases.
Qed.

Lemma row_symbols_glyphs m ls fld :
  Forall (λ t, t = symbol_filled ∨ t = symbol_empty ∨ t = symbol_unobserved)
    (row_symbols m ls fld).
Proof.
  unfold row_symbols. apply Forall_fmap, Forall_forall. intros l _.
  unfold cell_symbol. simpl.
  destruct (m !! (f_id fld, l_id l)) as [o|]; [destruct (filled o)|]; auto.
Qed.

(** X20. The sheet of a successful export: its columns are the listings
    of the batch, the oldest first, and its rows the fields in the order
    of their names.  Row 1 holds ``Field Name'' and the header of each
    listing; the row of a field holds the name of the field and, under
    each listing, the glyph of the observation the map holds for the pair
    (a dash when it holds none). *)
Theorem export_sheet_layout (sheet_id b : option str) (s : store)
    (msg : str) (ws : worksheet) :
  export_google_sheet_symbols sheet_id b s =
    (Response 200 (Text msg), Some ws) →
  let bn := default (py "default") b in
  let ls := build_listing_order bn s in
  let fs := fields_by_canonical s in
  ls ≡ₚ filter (λ l, batch l = bn) (listings s) ∧
  Sorted (λ x y, dt_leb (l_created_at x) (l_created_at y)) ls ∧
  fs ≡ₚ fields s ∧
  Sorted (λ x y, str_leb (canonical x) (canonical y)) fs ∧
  ws 1 1 = Some (Raw (py "Field Name")) ∧
  (∀ j l, ls !! j = Some l →
     ws 1 (2 + j) =
       Some (Raw (py "L" ++ decimal (S j) ++ py " - " ++
                  listing_id_text l))) ∧
  (∀ i f, fs !! i = Some f →
     ws (2 + i) 1 = Some (Raw (canonical f)) ∧
     ∀ j l, ls !! j = Some l →
       ws (2 + i) (2 + j) =
         Some (Raw match obs_map (observations s) !! (f_id f, l_id l) with
                   | None => symbol_unobserved
                   | Some o => if filled o then symbol_filled
                               else symbol_empty
                   end)).
Proof.
  intros Hexp bn ls fs.
  rewrite (export_google_sheet_symbols_written _ _ _ _ _ Hexp). fold bn ls fs.
  split; [apply merge_sort_Permutation|].
  split; [apply (Sorted_merge_sort _)|].
  split; [apply merge_sort_Permutation|].
  split; [apply (Sorted_merge_sort _)|].
  split; [by apply (worksheet_header bn s 0)|].
  split.
  - intros j l Hj. apply (worksheet_header bn s (1 + j)).
    unfold header_row. rewrite lookup_app_r by (simpl; lia).
    replace (1 + j - length [py "Field Name"]) with j by (simpl; lia).
    rewrite lookup_app_l.
    + unfold listing_headers. rewrite list_lookup_imap. fold ls.
      by rewrite Hj.
    + unfold listing_headers. rewrite length_imap.
      by apply lookup_lt_Some in Hj.
  - intros i f Hi. split; [by apply (worksheet_name bn s)|].
    intros j l Hj. apply (worksheet_symbol bn s i f j); [done|].
    unfold row_symbols. rewrite list_lookup_fmap. fold ls. by rewrite Hj.
Qed.

Lemma export_sheet_layout_witness :
  ∃ msg ws,
    export_google_sheet_symbols (Some (py "sheet")) None boundary_store =
      (Response 200 (Text msg), Some ws) ∧
    let bn := default (py "default") None in
    let ls := build_listing_order bn boundary_store in
    let fs := fields_by_canonical boundary_store in
    ls ≡ₚ filter (λ l, batch l = bn) (listings boundary_store) ∧
    Sorted (λ x y, dt_leb (l_created_at x) (l_created_at y)) ls ∧
    fs ≡ₚ fields boundary_store ∧
    Sorted (λ x y, str_leb (canonical x) (canonical y)) fs ∧
    ws 1 1 = Some (Raw (py "Field Name")) ∧
    (∀ j l, ls !! j = Some l →
       ws 1 (2 + j) =
         Some (Raw (py "L" ++ decimal (S j) ++ py " - " ++
                    listing_id_text l))) ∧
    (∀ i f, fs !! i = Some f →
       ws (2 + i) 1 = Some (Raw (canonical f)) ∧
       ∀ j l, ls !! j = Some l →
         ws (2 + i) (2 + j) =
           Some (Raw match obs_map (observations boundary_store)
                             !! (f_id f, l_id l) with
                     | None => symbol_unobserved
                     | Some o => if filled o then symbol_filled
                                 else symbol_empty
                     end)).
Proof.
  destruct (export_google_sheet_symbols_ok (Some (py "sheet")) None
              boundary_store) as [msg Hexp]; [by vm_compute..|].
  exists msg. eexists. split; [exact Hexp|].
  exact (export_sheet_layout _ _ _ _ _ Hexp).
Defined.

(** X21. Every cell the exporter writes lies inside the worksheet it has
    created, of [max(100, fields + 10)] rows and as many columns as the
    header row has cells (the listings and five more). *)
Theorem export_sheet_within_grid (sheet_id b : option str) (s : store)
    (msg : str) (ws : worksheet) (r c : nat) :
  export_google_sheet_symbols sheet_id b s =
    (Response 200 (Text msg), Some ws) →
  is_Some (ws r c) →
  let ls := build_listing_order (default (py "default") b) s in
  let rows := matrix_row (obs_map (observations s)) ls <$>
              fields_by_canonical s in
  1 ≤ r ≤ num_rows rows ∧ 1 ≤ c ≤ num_cols (header_row ls) ∧
  num_rows rows = 100 `max` (length (fields s) + 10) ∧
  num_cols (header_row ls) = length ls + 5.
Proof.
  intros Hexp Hsome ls rows.
  rewrite (export_google_sheet_symbols_written _ _ _ _ _ Hexp) in Hsome.
  apply worksheet_written in Hsome as [Hr Hc].
  split; [done|]. split; [done|]. split.
  - unfold num_rows, rows. rewrite length_fmap.
    unfold fields_by_canonical. by rewrite merge_sort_Permutation.
  - apply length_header_row.
Qed.

Lemma export_sheet_within_grid_witness :
  ∃ msg ws,
    export_google_sheet_symbols (Some (py "sheet")) None boundary_store =
      (Response 200 (Text msg), Some ws) ∧
    is_Some (ws 3 15) ∧
    let ls := build_listing_order (default (py "default") None)
                boundary_store in
    let rows := matrix_row (obs_map (observations boundary_store)) ls <$>
                fields_by_canonical boundary_store in
    1 ≤ 3 ≤ num_rows rows ∧ 1 ≤ 15 ≤ num_cols (header_row ls) ∧
    num_rows rows = 100 `max` (length (fields boundary_store) + 10) ∧
    num_cols (header_row ls) = length ls + 5.
Proof.
  destruct (export_google_sheet_symbols_ok (Some (py "sheet")) None
              boundary_store) as [msg Hexp]; [by vm_compute..|].
  exists msg. eexists. split; [exact Hexp|].
  assert (is_Some
            (foldl (write_formulas
                      (length (build_listing_order (default (py "default")
                                                      None) boundary_store)))
               (update 2 1
                  (matrix_row (obs_map (observations boundary_store))
                     (build_listing_order (default (py "default") None)
                        boundary_store) <$>
                   fields_by_canonical boundary_store)
                  (update 1 1
                     [header_row (build_listing_order
                                    (default (py "default") None)
                                    boundary_store)] blank_worksheet))
               (seq 0 (length
                  (matrix_row (obs_map (observations boundary_store))
                     (build_listing_order (default (py "default") None)
                        boundary_store) <$>
                   fields_by_canonical boundary_store))) 3 15)) as Hsome.
  { vm_compute. by eexists. }
  split; [exact Hsome|].
  exact (export_sheet_within_grid _ _ _ _ _ 3 15 Hexp Hsome).
Defined.

(** X22. For the row of a field in the exported sheet, the two count
    cells evaluate to the numbers of listings of the batch for which the
    observation map holds a filled and an empty observation of the field,
    and the percentage cell to the share of the empty ones among both, or
    to 0 when there are none: the division never fails. *)
Theorem export_sheet_summary_cells (sheet_id b : option str) (s : store)
    (msg : str) (ws : worksheet) (i : nat) (fld : Field) (depth : nat) :
  export_google_sheet_symbols sheet_id b s =
    (Response 200 (Text msg), Some ws) →
  fields_by_canonical s !! i = Some fld →
  7 ≤ depth →
  let ls := build_listing_order (default (py "default") b) s in
  let m := obs_map (observations s) in
  let n := length ls in
  let f := length (filter (λ l, filled <$> m !! (f_id fld, l_id l)
                                = Some true) ls) in
  let e := length (filter (λ l, filled <$> m !! (f_id fld, l_id l)
                                = Some false) ls) in
  f + e ≤ n ∧
  eval depth ws (ECell (n + 2) (2 + i)) =
    Some (VNum (inject_Z (Z.of_nat f))) ∧
  eval depth ws (ECell (n + 3) (2 + i)) =
    Some (VNum (inject_Z (Z.of_nat e))) ∧
  eval depth ws (ECell (n + 4) (2 + i)) =
    Some (VNum (if f + e =? 0 then inject_Z 0
                else inject_Z (Z.of_nat e) /
                     (inject_Z (Z.of_nat f) + inject_Z (Z.of_nat e)))).
Proof.
  intros Hexp Hi Hdepth ls m n f e.
  rewrite (export_google_sheet_symbols_written _ _ _ _ _ Hexp).
  destruct (eval_count_cells (default (py "default") b) s i fld
              (depth - 3) Hi) as [Hf He].
  pose proof (eval_pct_cell (default (py "default") b) s i fld
                (depth - 7) Hi) as Hp.
  cbv zeta in Hp.
  replace (3 + (depth - 3)) with depth in Hf, He by lia.
  replace (7 + (depth - 7)) with depth in Hp by lia.
  rewrite count_symbol_filled in Hf, Hp.
  rewrite count_symbol_empty in He, Hp.
  split; [|split; [exact Hf|split; [exact He|exact Hp]]].
  pose proof (count_symbol_partition _ (row_symbols_glyphs m ls fld))
    as Hsum.
  rewrite count_symbol_filled, count_symbol_empty in Hsum.
  unfold row_symbols in Hsum. rewrite length_fmap in Hsum.
  unfold f, e, n. lia.
Qed.

Lemma export_sheet_summary_cells_witness :
  ∃ msg ws fld,
    export_google_sheet_symbols (Some (py "sheet")) None boundary_store =
      (Response 200 (Text msg), Some ws) ∧
    fields_by_canonical boundary_store !! 0 = Some fld ∧
    7 ≤ 7 ∧
    let ls := build_listing_order (default (py "default") None)
                boundary_store in
    let m := obs_map (observations boundary_store) in
    let n := length ls in
    let f := length (filter (λ l, filled <$> m !! (f_id fld, l_id l)
                                  = Some true) ls) in
    let e := length (filter (λ l, filled <$> m !! (f_id fld, l_id l)
                                  = Some false) ls) in
    f + e ≤ n ∧
    eval 7 ws (ECell (n + 2) (2 + 0)) =
      Some (VNum (inject_Z (Z.of_nat f))) ∧
    eval 7 ws (ECell (n + 3) (2 + 0)) =
      Some (VNum (inject_Z (Z.of_nat e))) ∧
    eval 7 ws (ECell (n + 4) (2 + 0)) =
      Some (VNum (if f + e =? 0 then inject_Z 0
                  else inject_Z (Z.of_nat e) /
                       (inject_Z (Z.of_nat f) + inject_Z (Z.of_nat e)))).
Proof.
  destruct (export_google_sheet_symbols_ok (Some (py "sheet")) None
              boundary_store) as [msg Hexp]; [by vm_compute..|].
  exists msg. eexists.
  exists (default {| f_id := 0; canonical := []; f_created_at := clock0 0 |}
            (fields_by_canonical boundary_store !! 0)).
  split; [exact Hexp|].
  assert (7 ≤ 7) as Hd by lia.
  assert (fields_by_canonical boundary_store !! 0 =
          Some (default {| f_id := 0; canonical := [];
                           f_created_at := clock0 0 |}
                  (fields_by_canonical boundary_store !! 0))) as Hi
    by by vm_compute.
  split; [exact Hi|]. split; [exact Hd|].
  exact (export_sheet_summary_cells _ _ _ _ _ 0 _ 7 Hexp Hi Hd).
Defined.

(** X23. A field that no observation refers to still has its row in the
    exported sheet, with a dash under every listing and NO in the removal
    column, while the summary of the batch has no row for it. *)
Theorem unobserved_field_row (sheet_id b : option str) (s : store)
    (msg : str) (ws : worksheet) (i : nat) (fld : Field) (depth : nat) :
  export_google_sheet_symbols sheet_id b s =
    (Response 200 (Text msg), Some ws) →
  fields_by_canonical s !! i = Some fld →
  8 ≤ depth →
  Forall (λ o, field_id o ≠ f_id fld) (observations s) →
  let bn := default (py "default") b in
  let ls := build_listing_order bn s in
  ws (2 + i) 1 = Some (Raw (canonical fld)) ∧
  (∀ j, j < length ls → ws (2 + i) (2 + j) = Some (Raw symbol_unobserved)) ∧
  eval depth ws (ECell (length ls + 5) (2 + i)) = Some (VText (py "NO")) ∧
  f_id fld ∉ sr_field_id <$> summary_rows bn s.
Proof.
  intros Hexp Hi Hdepth Hnone bn ls.
  rewrite (export_google_sheet_symbols_written _ _ _ _ _ Hexp). fold bn ls.
  assert (∀ l, cell_symbol (obs_map (observations s)) fld l =
               symbol_unobserved) as Hcell.
  { intros l. rewrite obs_map_cell_symbol.
    rewrite filter_none; [done|].
    intros o Ho [_ Hf]. rewrite Forall_forall in Hnone.
    by apply (Hnone o Ho). }
  assert (row_symbols (obs_map (observations s)) ls fld =
          replicate (length ls) symbol_unobserved) as Hrow.
  { unfold row_symbols. induction ls as [|l ls' IH]; [done|].
    rewrite fmap_cons, Hcell, IH. done. }
  split; [by apply (worksheet_name bn s)|]. split; [|split].
  - intros j Hj. apply (worksheet_symbol bn s i fld j); [done|].
    fold ls. rewrite Hrow. by apply lookup_replicate_2.
  - pose proof (eval_remove_cell bn s i fld (depth - 8) Hi) as Hrem.
    replace (8 + (depth - 8)) with depth in Hrem by lia.
    fold ls in Hrem. rewrite Hrow in Hrem. unfold count_symbol in Hrem.
    rewrite !filter_none in Hrem; [exact Hrem|..];
      by intros t [-> _]%elem_of_replicate.
  - intros (f & o & _ & _ & Ho & Hfo & _)%summary_rows_observed.
    rewrite Forall_forall in Hnone. by apply (Hnone o Ho).
Qed.

Lemma unobserved_field_row_witness :
  let s := (find_or_create_field (py "Zoning") boundary_store).2 in
  ∃ msg ws fld,
    export_google_sheet_symbols (Some (py "sheet")) None s =
      (Response 200 (Text msg), Some ws) ∧
    fields_by_canonical s !! 2 = Some fld ∧
    8 ≤ 8 ∧
    Forall (λ o, field_id o ≠ f_id fld) (observations s) ∧
    let bn := default (py "default") None in
    let ls := build_listing_order bn s in
    ws (2 + 2) 1 = Some (Raw (canonical fld)) ∧
    (∀ j, j < length ls →
          ws (2 + 2) (2 + j) = Some (Raw symbol_unobserved)) ∧
    eval 8 ws (ECell (length ls + 5) (2 + 2)) = Some (VText (py "NO")) ∧
    f_id fld ∉ sr_field_id <$> summary_rows bn s.
Proof.
  intros s.
  destruct (export_google_sheet_symbols_ok (Some (py "sheet")) None s)
    as [msg Hexp]; [by vm_compute..|].
  exists msg. eexists.
  exists (default {| f_id := 0; canonical := []; f_created_at := clock0 0 |}
            (fields_by_canonical s !! 2)).
  split; [exact Hexp|].
  assert (8 ≤ 8) as Hd by lia.
  assert (fields_by_canonical s !! 2 =
          Some (default {| f_id := 0; canonical := [];
                           f_created_at := clock0 0 |}
                  (fields_by_canonical s !! 2))) as Hi
    by by vm_compute.
  split; [exact Hi|]. split; [exact Hd|].
  assert (Forall (λ o, field_id o ≠
                       f_id (default {| f_id := 0; canonical := [];
                                        f_created_at := clock0 0 |}
                               (fields_by_canonical s !! 2)))
            (observations s)) as Hnone.
  { apply (bool_decide_unpack _). by vm_compute. }
  split; [exact Hnone|].
  exact (unobserved_field_row _ _ _ _ _ 2 _ 8 Hexp Hi Hd Hnone).
Defined.

(** ** Field suggestions *)

Example ilike_examples :
  (λ tp, ilike tp.1 tp.2) <$>
    [(py "xxABxx", py "%ab%"); (py "xxAxB", py "%ab%");
     (py "zABCz", py "%a_c%"); (py "anything", py "%%%"); ([], py "%_%");
     ([201%N], [37; 233; 37]%N); ([201%N], [37; 201; 37]%N);
     (py "xa", py "%a" ++ [0%N] ++ py "b%");
     (py "xab", py "%a" ++ [0%N] ++ py "b%");
     (py "x" ++ [0%N] ++ py "a", py "%a%");
     (py "x" ++ [0%N] ++ py "a", py "%x%");
     (py "100%", py "%0%%"); (py "a_b", py "%a_b%"); (py "k", py "%K%")]
  = Some <$> [true; false; true; true; false; false; true; true; false;
              false; true; true; true; true].
Proof. by vm_compute. Qed.

Lemma like_percent_unfold p t :
  like (37%N :: p) t =
  like p t || match t with [] => false | _ :: t' => like (37%N :: p) t' end.
Proof. by destruct t. Qed.

Lemma like_percent p t :
  like (37%N :: p) t = true ↔ ∃ pre post, t = pre ++ post ∧ like p post = true.
Proof.
  induction t as [|c t IH]; rewrite like_percent_unfold.
  - rewrite orb_false_r. split.
    + intros Hl. by exists [], [].
    + intros (pre & post & Ht & Hl). symmetry in Ht.
      apply app_eq_nil in Ht as [-> ->]. done.
  - rewrite orb_true_iff, IH. split.
    + intros [Hl|(pre & post & -> & Hl)].
      * by exists [], (c :: t).
      * by exists (c :: pre), post.
    + intros (pre & post & Ht & Hl). destruct pre as [|c' pre].
      * left. simpl in Ht. by subst.
      * right. injection Ht as -> ->. by exists pre, post.
Qed.

Lemma like_literal c p t :
  c ≠ 37%N → c ≠ 95%N →
  like (c :: p) t = true ↔ ∃ t', t = c :: t' ∧ like p t' = true.
Proof.
  intros H37 H95. cbn [like].
  rewrite (proj2 (N.eqb_neq c 37) H37), (proj2 (N.eqb_neq c 95) H95).
  destruct t as [|d t]; [split; [done|by intros (? & ? & _)]|].
  rewrite andb_true_iff, N.eqb_eq. split.
  - intros [-> Hl]. by exists t.
  - intros (t' & Ht & Hl). injection Ht as -> ->. done.
Qed.

Lemma like_literals q : ∀ p t,
  Forall (λ c, c ≠ 37%N ∧ c ≠ 95%N) q →
  like (q ++ p) t = true ↔ ∃ post, t = q ++ post ∧ like p post = true.
Proof.
  induction q as [|c q IH]; intros p t Hq.
  - simpl. split; [intros Hl; by exists t|by intros (post & -> & Hl)].
  - apply Forall_cons in Hq as [[H37 H95] Hq]. rewrite <- app_comm_cons.
    rewrite like_literal by done. split.
    + intros (t' & -> & Hl). apply IH in Hl as (post & -> & Hl); [|done].
      by exists post.
    + intros (post & -> & Hl). exists (q ++ post). split; [done|].
      apply IH; [done|]. by exists post.
Qed.

Lemma like_any t : like [37%N] t = true.
Proof.
  apply like_percent. exists t, []. split; [by rewrite app_nil_r|done].
Qed.

(** A pattern [%q%] without wild cards in [q] finds the texts in which
    [q] occurs. *)
Lemma like_occurs q t :
  Forall (λ c, c ≠ 37%N ∧ c ≠ 95%N) q →
  like (37%N :: q ++ [37%N]) t = true ↔ occurs_in q t.
Proof.
  intros Hq. rewrite like_percent. unfold occurs_in. split.
  - intros (pre & post & -> & Hl).
    apply like_literals in Hl as (post' & -> & _); [|done].
    by exists pre, post'.
  - intros (pre & post & ->). exists pre, (q ++ post). split; [done|].
    apply like_literals; [done|]. exists post. split; [done|apply like_any].
Qed.

Lemma like_all_percent p t :
  p ≠ [] → Forall (λ c, c = 37%N) p → like p t = true.
Proof.
  induction p as [|c p IH] in t |- *; [done|]. intros _ Hp.
  apply Forall_cons in Hp as [-> Hp]. destruct p as [|c' p].
  - apply like_any.
  - apply like_percent. exists [], t. split; [done|]. by apply IH.
Qed.

Lemma sql_lower_plain q :
  Forall (λ c, c ≠ 0 ∧ c ≠ 37 ∧ c ≠ 95)%N q →
  Forall (λ c, c ≠ 0 ∧ c ≠ 37 ∧ c ≠ 95)%N (sql_lower q).
Proof.
  intros Hq. unfold sql_lower. apply Forall_fmap.
  eapply Forall_impl; [exact Hq|]. intros c (H0 & H37 & H95). simpl.
  destruct (N.leb_spec 65 c), (N.leb_spec c 90); simpl; lia.
Qed.

Lemma until_nul_app q t :
  Forall (λ c, c ≠ 0%N) q → until_nul (q ++ t) = q ++ until_nul t.
Proof.
  induction 1 as [|c q Hc _ IH]; [done|]. simpl.
  by rewrite (proj2 (N.eqb_neq c 0) Hc), IH.
Qed.

Lemma utf8_length_pattern q :
  utf8_length (py "%" ++ q ++ py "%") = (utf8_length q + 2)%N.
Proof.
  change (py "%") with [37%N]. simpl. unfold utf8_length at 1.
  rewrite foldr_app. simpl.
  induction q as [|c q IH]; simpl; [done|]. unfold utf8_length in *. simpl.
  lia.
Qed.

Lemma ilike_pattern q t :
  (utf8_length q + 2 ≤ 50000)%N →
  Forall (λ c, c ≠ 0%N) q →
  ilike t (py "%" ++ q ++ py "%") =
  Some (like (37%N :: sql_lower q ++ [37%N]) (until_nul (sql_lower t))).
Proof.
  intros Hlen Hq. unfold ilike. rewrite utf8_length_pattern.
  rewrite (proj2 (N.ltb_ge _ _)) by done. f_equal. f_equal.
  change (py "%") with [37%N]. unfold sql_lower. rewrite !fmap_app.
  simpl. rewrite until_nul_app; [done|].
  apply Forall_fmap. eapply Forall_impl; [exact Hq|]. intros c Hc.
  unfold compose. simpl in Hc.
  destruct (N.leb_spec 65 c), (N.leb_spec c 90); simpl; lia.
Qed.

Lemma mapM_ilike_Some (fs : list Field) pattern :
  (utf8_length pattern ≤ 50000)%N →
  is_Some (mapM (λ f, ilike (canonical f) pattern) fs).
Proof.
  intros Hlen. apply mapM_is_Some, Forall_forall. intros f _.
  unfold ilike. rewrite (proj2 (N.ltb_ge _ _)) by done. by eexists.
Qed.

(** X24. A query without wild cards is answered with at most 20 fields,
    in the order of the table, in whose names the query occurs when the
    case of the ASCII letters is disregarded (the query is trimmed, and a
    name counts up to its first NUL); when fewer than 20 are returned,
    they are all the fields in whose names the query occurs. *)
Theorem api_fields_matches (q : option str) (s : store) :
  let q' := strip (default [] q) in
  q' ≠ [] →
  Forall (λ c, c ≠ 0 ∧ c ≠ 37 ∧ c ≠ 95)%N q' →
  (utf8_length q' + 2 ≤ 50000)%N →
  ∃ fs,
    api_fields q s = Suggestions (suggestion <$> fs) ∧
    fs `sublist_of` fields s ∧ length fs ≤ 20 ∧
    (∀ f, f ∈ fs →
          occurs_in (sql_lower q') (until_nul (sql_lower (canonical f)))) ∧
    (length fs < 20 →
     ∀ f, f ∈ fields s →
          occurs_in (sql_lower q') (until_nul (sql_lower (canonical f))) →
          f ∈ fs).
Proof.
  intros q' Hne Hplain Hlen. unfold api_fields. fold q'.
  destruct q' as [|c q0] eqn:Eq; [done|]. rewrite <- Eq in *. clear Eq.
  destruct (mapM_ilike_Some (fields s) (py "%" ++ q' ++ py "%")) as [bs ->].
  { rewrite utf8_length_pattern. done. }
  assert (∀ f, ilike (canonical f) (py "%" ++ q' ++ py "%") = Some true ↔
               occurs_in (sql_lower q') (until_nul (sql_lower (canonical f))))
    as Hmatch.
  { intros f. rewrite ilike_pattern; [|done|].
    - etrans; [|apply like_occurs].
      + split; [intros Heq; by injection Heq|intros Heq; by f_equal].
      + eapply Forall_impl; [exact (sql_lower_plain q' Hplain)|].
        by intros x (_ & ? & ?).
    - eapply Forall_impl; [exact Hplain|]. by intros x (? & _). }
  eexists. split; [reflexivity|]. split; [|split; [|split]].
  - etrans; [apply sublist_take|]. apply sublist_filter.
  - rewrite length_take. lia.
  - intros f Hf. apply Hmatch.
    assert (f ∈ filter (λ f, ilike (canonical f) (py "%" ++ q' ++ py "%")
                             = Some true) (fields s)) as Hin.
    { apply elem_of_take in Hf as (i & Hi & _).
      by apply list_elem_of_lookup_2 in Hi. }
    by apply list_elem_of_filter in Hin as [? _].
  - intros Hshort f Hf Hocc. rewrite length_take in Hshort.
    rewrite take_ge by lia. apply list_elem_of_filter. split; [|done].
    by apply Hmatch.
Qed.

Lemma api_fields_matches_witness :
  let q' := strip (default [] (Some (py " pOo "))) in
  q' ≠ [] ∧
  Forall (λ c, c ≠ 0 ∧ c ≠ 37 ∧ c ≠ 95)%N q' ∧
  (utf8_length q' + 2 ≤ 50000)%N ∧
  ∃ fs,
    api_fields (Some (py " pOo ")) demo_store =
      Suggestions (suggestion <$> fs) ∧
    fs `sublist_of` fields demo_store ∧ length fs ≤ 20 ∧
    (∀ f, f ∈ fs →
          occurs_in (sql_lower q') (until_nul (sql_lower (canonical f)))) ∧
    (length fs < 20 →
     ∀ f, f ∈ fields demo_store →
          occurs_in (sql_lower q') (until_nul (sql_lower (canonical f))) →
          f ∈ fs).
Proof.
  intros q'.
  assert (q' ≠ []) as Hne by by vm_compute.
  assert (Forall (λ c, c ≠ 0 ∧ c ≠ 37 ∧ c ≠ 95)%N q') as Hplain.
  { vm_compute. repeat constructor; done. }
  assert (utf8_length q' + 2 ≤ 50000)%N as Hlen by by vm_compute.
  split; [exact Hne|]. split; [exact Hplain|]. split; [exact Hlen|].
  exact (api_fields_matches (Some (py " pOo ")) demo_store Hne Hplain Hlen).
Defined.

(** X25. The wild cards of the query are not escaped: a query made of
    percent signs matches every name, so the answer is the first 20
    fields of the table. *)
Theorem api_fields_percent (q : option str) (s : store) :
  let q' := strip (default [] q) in
  q' ≠ [] →
  Forall (λ c, c = 37%N) q' →
  (utf8_length q' + 2 ≤ 50000)%N →
  api_fields q s = Suggestions (suggestion <$> take 20 (fields s)).
Proof.
  intros q' Hne Hpct Hlen. unfold api_fields. fold q'.
  destruct q' as [|c q0] eqn:Eq; [done|]. rewrite <- Eq in *. clear Eq.
  destruct (mapM_ilike_Some (fields s) (py "%" ++ q' ++ py "%")) as [bs ->].
  { rewrite utf8_length_pattern. done. }
  rewrite filter_all; [done|]. intros f _.
  rewrite ilike_pattern; [|done|].
  - f_equal. apply like_all_percent; [done|].
    constructor; [done|]. apply Forall_app. split; [|by constructor].
    unfold sql_lower. apply Forall_fmap.
    eapply Forall_impl; [exact Hpct|]. by intros x ->.
  - eapply Forall_impl; [exact Hpct|]. by intros x ->.
Qed.

Lemma api_fields_percent_witness :
  let q' := strip (default [] (Some (py "%"))) in
  q' ≠ [] ∧ Forall (λ c, c = 37%N) q' ∧ (utf8_length q' + 2 ≤ 50000)%N ∧
  api_fields (Some (py "%")) demo_store =
    Suggestions (suggestion <$> take 20 (fields demo_store)).
Proof.
  intros q'.
  assert (q' ≠ []) as Hne by by vm_compute.
  assert (Forall (λ c, c = 37%N) q') as Hpct.
  { vm_compute. repeat constructor. }
  assert (utf8_length q' + 2 ≤ 50000)%N as Hlen by by vm_compute.
  split; [exact Hne|]. split; [exact Hpct|]. split; [exact Hlen|].
  exact (api_fields_percent (Some (py "%")) demo_store Hne Hpct Hlen).
Defined.

Lemma lex_compare_trans a : ∀ b c,
  lex_compare a b ≠ Gt → lex_compare b c ≠ Gt → lex_compare a c ≠ Gt.
Proof.
  induction a as [|x a IH]; intros [|y b] [|z c]; simpl; try done.
  destruct (N.compare_spec x y) as [->|Hxy|Hxy]; [| |done].
  - destruct (N.compare_spec y z) as [->|Hyz|Hyz]; [apply IH|done|done].
  - intros _.
    destruct (N.compare_spec y z) as [->|Hyz|Hyz]; [| |done]; intros _.
    + by rewrite (proj2 (N.compare_lt_iff x z) Hxy).
    + rewrite (proj2 (N.compare_lt_iff x z)); [done|lia].
Qed.

#[global] Instance dt_leb_trans : Transitive (λ a b : datetime, dt_leb a b).
Proof.
  intros a b c. unfold dt_leb.
  pose proof (lex_compare_trans (dt_fields a) (dt_fields b) (dt_fields c)).
  destruct (lex_compare (dt_fields a) (dt_fields b)),
           (lex_compare (dt_fields b) (dt_fields c)),
           (lex_compare (dt_fields a) (dt_fields c)); simpl; naive_solver.
Qed.

#[global] Instance newest_field_total :
  Total (λ x y : Field, dt_leb (f_created_at y) (f_created_at x)).
Proof.
  intros x y. destruct (dt_leb_total (f_created_at y) (f_created_at x)); auto.
Qed.

#[global] Instance newest_field_trans :
  Transitive (λ x y : Field, dt_leb (f_created_at y) (f_created_at x)).
Proof.
  intros x y z Hxy Hyz.
  exact (dt_leb_trans (f_created_at z) (f_created_at y) (f_created_at x)
           Hyz Hxy).
Qed.

(** X26. Without a query (absent, or blank after trimming) the answer is
    the 50 fields created last, the newest first: no field that is left
    out was created after a field of the answer. *)
Theorem api_fields_recent (q : option str) (s : store) :
  strip (default [] q) = [] →
  ∃ fs rest,
    api_fields q s = Suggestions (suggestion <$> fs) ∧
    fs ++ rest ≡ₚ fields s ∧
    length fs = 50 `min` length (fields s) ∧
    StronglySorted (λ x y, dt_leb (f_created_at y) (f_created_at x)) fs ∧
    ∀ f g, f ∈ fs → g ∈ rest → dt_leb (f_created_at g) (f_created_at f).
Proof.
  intros Hq. unfold api_fields. rewrite Hq.
  set (sorted := merge_sort _ (fields s)).
  assert (StronglySorted
            (λ x y, dt_leb (f_created_at y) (f_created_at x)) sorted)
    as Hsorted by apply (StronglySorted_merge_sort _).
  exists (take 50 sorted), (drop 50 sorted).
  rewrite <- (take_drop 50 sorted) in Hsorted.
  split; [done|]. split; [|split; [|split]].
  - rewrite take_drop. apply merge_sort_Permutation.
  - rewrite length_take. unfold sorted. by rewrite merge_sort_Permutation.
  - by apply StronglySorted_app_1_l in Hsorted.
  - intros f g Hf Hg.
    exact (StronglySorted_app_1_elem_of _ _ _ f g Hsorted Hf Hg).
Qed.

Lemma api_fields_recent_witness :
  strip (default [] (Some (py "  "))) = [] ∧
  ∃ fs rest,
    api_fields (Some (py "  ")) demo_store = Suggestions (suggestion <$> fs) ∧
    fs ++ rest ≡ₚ fields demo_store ∧
    length fs = 50 `min` length (fields demo_store) ∧
    StronglySorted (λ x y, dt_leb (f_created_at y) (f_created_at x)) fs ∧
    ∀ f g, f ∈ fs → g ∈ rest → dt_leb (f_created_at g) (f_created_at f).
Proof.
  assert (strip (default [] (Some (py "  "))) = []) as Hq by by vm_compute.
  split; [exact Hq|].
  exact (api_fields_recent (Some (py "  ")) demo_store Hq).
Defined.

(** ** The quick-entry page *)

Example escapeHtml_examples :
  escapeHtml (py "<b>Tom & 'Jerry'</b> &amp; " ++ DQ) =
  py "&lt;b&gt;Tom &amp; 'Jerry'&lt;/b&gt; &amp;amp; &quot;".
Proof. by vm_compute. Qed.

Lemma replace_all_app c r s1 s2 :
  replace_all c r (s1 ++ s2) = replace_all c r s1 ++ replace_all c r s2.
Proof. unfold replace_all. apply bind_app. Qed.

Lemma escapeHtml_app s1 s2 :
  escapeHtml (s1 ++ s2) = escapeHtml s1 ++ escapeHtml s2.
Proof. unfold escapeHtml. by rewrite !replace_all_app. Qed.

Lemma escapeHtml_char c : escapeHtml [c] = escape_char c.
Proof.
  unfold escapeHtml, escape_char, replace_all.
  destruct (N.eqb_spec c 38) as [->|H38]; [by vm_compute|].
  destruct (N.eqb_spec c 34) as [->|H34]; [by vm_compute|].
  destruct (N.eqb_spec c 60) as [->|H60]; [by vm_compute|].
  destruct (N.eqb_spec c 62) as [->|H62]; [by vm_compute|].
  rewrite !bind_singleton.
  rewrite (proj2 (N.eqb_neq c 38) H38). rewrite !bind_singleton.
  rewrite (proj2 (N.eqb_neq c 34) H34). rewrite !bind_singleton.
  rewrite (proj2 (N.eqb_neq c 60) H60). rewrite !bind_singleton.
  by rewrite (proj2 (N.eqb_neq c 62) H62).
Qed.

Lemma escapeHtml_bind s : escapeHtml s = s ≫= escape_char.
Proof.
  induction s as [|c s IH]; [done|].
  change (c :: s) with ([c] ++ s).
  by rewrite escapeHtml_app, bind_app, bind_singleton, IH, escapeHtml_char.
Qed.

(** X27. [escapeHtml] replaces each ampersand, double quote and angle
    bracket by its entity, in one pass (an entity it has written is not
    escaped again), so its result holds no double quote and no angle
    bracket; every other character, the apostrophe among them, is left as
    it is. *)
Theorem escapeHtml_entities (s : str) :
  escapeHtml s = s ≫= escape_char ∧
  Forall (λ c, c ≠ 34 ∧ c ≠ 60 ∧ c ≠ 62)%N (escapeHtml s) ∧
  filter (λ c, c = 39%N) (escapeHtml s) = filter (λ c, c = 39%N) s ∧
  (Forall (λ c, c ≠ 38 ∧ c ≠ 34 ∧ c ≠ 60 ∧ c ≠ 62)%N s → escapeHtml s = s).
Proof.
  split; [apply escapeHtml_bind|]. rewrite escapeHtml_bind.
  split; [|split].
  - induction s as [|c s IH]; [constructor|].
    rewrite bind_cons. apply Forall_app. split; [|done].
    unfold escape_char.
    destruct (N.eqb_spec c 38) as [_|H38];
      [apply (bool_decide_unpack _); by vm_compute|].
    destruct (N.eqb_spec c 34) as [_|H34];
      [apply (bool_decide_unpack _); by vm_compute|].
    destruct (N.eqb_spec c 60) as [_|H60];
      [apply (bool_decide_unpack _); by vm_compute|].
    destruct (N.eqb_spec c 62) as [_|H62];
      [apply (bool_decide_unpack _); by vm_compute|].
    by apply Forall_singleton.
  - induction s as [|c s IH]; [done|].
    rewrite bind_cons, filter_app, IH, filter_cons. f_equal.
    unfold escape_char.
    destruct (N.eqb_spec c 38) as [->|H38]; [by vm_compute|].
    destruct (N.eqb_spec c 34) as [->|H34]; [by vm_compute|].
    destruct (N.eqb_spec c 60) as [->|H60]; [by vm_compute|].
    destruct (N.eqb_spec c 62) as [->|H62]; [by vm_compute|].
    rewrite filter_cons.
    by destruct (decide (c = 39%N)).
  - induction 1 as [|c s (H38 & H34 & H60 & H62) _ IH]; [done|].
    rewrite bind_cons, IH. unfold escape_char.
    by rewrite (proj2 (N.eqb_neq c 38) H38), (proj2 (N.eqb_neq c 34) H34),
      (proj2 (N.eqb_neq c 60) H60), (proj2 (N.eqb_neq c 62) H62).
Qed.

(** ** From a request to the summary *)

(** X28. What a request records shows in the summary of its batch: after
    a listing is added, the summary of the batch has a row under the
    trimmed text of every entry of the request that is not blank. *)
Theorem add_listing_then_summary (b : str) (data : listing_request)
    (s : store) (e : observation_entry) :
  reachable s →
  strip (default [] (req_listing_id data)) ≠ [] →
  e ∈ req_observations data →
  ¬ blank_entry e →
  ∃ r,
    r ∈ summary_rows b (add_listing b data s).2 ∧
    sr_canonical r = strip (default [] (field_text e)) ∧
    1 ≤ sr_sample r.
Proof.
  intros Hreach Hid He Hblank.
  pose proof (reach_add_listing s b data Hreach) as Hreach'.
  pose proof (reachable_integrity _ Hreach') as (Hndl & Hndf & _).
  pose proof (reachable_names _ Hreach') as [_ Hnames].
  revert Hreach' Hndl Hndf Hnames. unfold add_listing.
  destruct (strip (default [] (req_listing_id data))) as [|ch t] eqn:Et;
    [done|].
  destruct (add_Listing b (ch :: t) s) as [lst s1] eqn:Eadd.
  cbn [snd]. set (who := default (py "unknown") (req_analyst data)).
  set (s' := foldl (add_listing_entry lst who) s1 (req_observations data)).
  intros Hreach' Hndl Hndf Hnames.
  destruct (add_listing_loop_observations lst who (req_observations data) s1)
    as (new & Hobs & Hnew).
  destruct (add_listing_loop_spec lst who (req_observations data) s1)
    as [Hls _].
  fold s' in Hobs, Hls.
  assert (lst ∈ listings s' ∧ batch lst = b) as [Hlst Hb].
  { rewrite Hls. unfold add_Listing in Eadd. injection Eadd as <- <-.
    split; [|done]. simpl. apply elem_of_app. right. left. }
  assert (∃ o, o ∈ new ∧ listing_id o = l_id lst ∧
               raw_text o = strip (default [] (field_text e)))
    as (o & Ho & Hol & Hraw).
  { assert ((l_id lst, strip (default [] (field_text e)),
             truthy (default (JBool false) (entry_filled e)), who) ∈
            (λ o, (listing_id o, raw_text o, filled o, analyst o)) <$> new)
      as Hin.
    { rewrite Hnew. apply list_elem_of_fmap. exists e. split; [done|].
      by apply list_elem_of_filter. }
    apply list_elem_of_fmap in Hin as (o & Heq & Ho).
    exists o. split; [done|]. by injection Heq as <- <- _ _. }
  assert (o ∈ observations s') as Ho'.
  { rewrite Hobs. apply elem_of_app. by right. }
  rewrite Forall_forall in Hnames.
  destruct (Hnames o Ho') as (f & Hf & Hcan).
  pose proof Hf as [Hfid Hfin]%field_by_id_Some.
  assert (field_id o ∈ sr_field_id <$> summary_rows b s') as Hrow.
  { apply summary_rows_observed. exists f, o. repeat split; try done.
    apply Exists_exists. exists lst. by rewrite Hol. }
  apply list_elem_of_fmap in Hrow as (r & Hr & Hrin).
  exists r. split; [done|].
  destruct (summary_rows_row b s' r Hndf Hrin) as (Hsample & f' & Hf' & Hc').
  split; [|done]. rewrite Hc', <- Hraw, <- Hcan.
  rewrite <- Hr, Hf in Hf'. by injection Hf' as <-.
Qed.

Lemma add_listing_then_summary_witness :
  let e := {| field_text := Some (py "Roof");
              entry_filled := Some (JBool true) |} in
  reachable demo_store ∧
  strip (default [] (req_listing_id demo_request)) ≠ [] ∧
  e ∈ req_observations demo_request ∧
  ¬ blank_entry e ∧
  ∃ r,
    r ∈ summary_rows (py "spring")
          (add_listing (py "spring") demo_request demo_store).2 ∧
    sr_canonical r = strip (default [] (field_text e)) ∧
    1 ≤ sr_sample r.
Proof.
  intros e.
  assert (strip (default [] (req_listing_id demo_request)) ≠ []) as Hid
    by by vm_compute.
  assert (e ∈ req_observations demo_request) as He by left.
  assert (¬ blank_entry e) as Hb by by vm_compute.
  split; [apply reachable_demo_store|]. split; [exact Hid|].
  split; [exact He|]. split; [exact Hb|].
  exact (add_listing_then_summary (py "spring") demo_request demo_store e
           reachable_demo_store Hid He Hb).
Defined.

(** ** The observations a summary counts *)

Lemma sum_list_one_more (g : Z → nat) (k0 : Z) (ks : list Z) :
  NoDup ks → k0 ∈ ks →
  sum_list ((λ k, if decide (k0 = k) then S (g k) else g k) <$> ks) =
  S (sum_list (g <$> ks)).
Proof.
  induction 1 as [|k ks Hk Hnd IH]; intros Hin.
  - by apply elem_of_nil in Hin.
  - rewrite !fmap_cons. simpl. destruct (decide (k0 = k)) as [->|Hne].
    + assert ((λ k0, if decide (k = k0) then S (g k0) else g k0) <$> ks
              = g <$> ks) as ->; [|lia].
      apply list_fmap_ext. intros i k' Hk'.
      rewrite decide_False; [done|]. intros ->.
      by apply list_elem_of_lookup_2 in Hk'.
    + apply elem_of_cons in Hin as [?|Hin]; [done|]. rewrite IH by done. lia.
Qed.

Lemma length_by_key {A} (key : A → Z) (ks : list Z) (l : list A) :
  NoDup ks → (∀ x, x ∈ l → key x ∈ ks) →
  sum_list ((λ k, length (filter (λ x, key x = k) l)) <$> ks) = length l.
Proof.
  intros Hnd. induction l as [|x l IH]; intros Hks.
  - clear. induction ks as [|k ks IHk]; [done|].
    rewrite fmap_cons. simpl. exact IHk.
  - simpl. rewrite <- IH by (intros y Hy; apply Hks; by right).
    rewrite <- (sum_list_one_more _ (key x)); [|done|apply Hks; left].
    f_equal. apply list_fmap_ext. intros i k _.
    rewrite filter_cons. by destruct (decide (key x = k)).
Qed.

(** X29. The sample counts of the rows of a summary add up to the number
    of observations of listings of the batch: each of these observations is
    counted in exactly one row. *)
Theorem summary_rows_total (b : str) (s : store) :
  integrity s →
  sum_list (sr_sample <$> summary_rows b s) =
  length (filter (observation_in_batch b s) (observations s)).
Proof.
  intros (Hndl & Hndf & Hrefs).
  set (j := summary_join b s).
  set (keys := remove_dups ((λ r, f_id r.1.1) <$> j)).
  assert (sr_sample <$> summary_rows b s ≡ₚ
          (λ k, length (filter (λ o, field_id o = k)
                          (filter (observation_in_batch b s)
                             (observations s)))) <$> keys) as ->.
  { unfold summary_rows. rewrite merge_sort_Permutation.
    fold j keys. rewrite <- list_fmap_compose.
    apply reflexive_eq, list_fmap_ext. intros i k Hk.
    apply list_elem_of_lookup_2 in Hk. unfold compose.
    cbn [sr_sample summary_group].
    unfold keys in Hk. rewrite elem_of_remove_dups in Hk. unfold j in *.
    rewrite (summary_group_length b s k Hndl Hndf Hk).
    by rewrite list_filter_filter. }
  apply length_by_key; [apply NoDup_remove_dups|].
  intros o [Hbatch Ho]%list_elem_of_filter.
  rewrite Forall_forall in Hrefs. destruct (Hrefs o Ho) as [_ Hf].
  apply list_elem_of_fmap in Hf as (f & Hfo & Hf).
  apply Exists_exists in Hbatch as (l & Hl & Hol & Hb).
  unfold keys. rewrite elem_of_remove_dups, list_elem_of_fmap.
  exists (f, o, l). split; [done|].
  by apply summary_join_elem.
Qed.

Lemma summary_rows_total_witness :
  integrity demo_store ∧
  sum_list (sr_sample <$> summary_rows (py "spring") demo_store) =
  length (filter (observation_in_batch (py "spring") demo_store)
            (observations demo_store)).
Proof.
  assert (integrity demo_store) as Hs
    by apply reachable_integrity, reachable_demo_store.
  split; [exact Hs|].
  exact (summary_rows_total (py "spring") demo_store Hs).
Defined.
